(** * one-prompt: session store, chat history, panel cache and resizer

    A shallow embedding of the orchestration core of the one-prompt
    renderer:

    - [Sessions]  models [src/core/sessions.js] (session list, current
      pointer, counter, persistence with quota recovery);
    - [Tabs]      models [createNewSessionAndSwitch] of [src/core/tabs.js];
    - [ApiChat]   models [saveApiHistory] / [handleApiChat] of the API chat
      module and [sendPromptToSelectedAIs] of [src/app/prompt.js];
    - [Resizer]   models the flex and grid resize arithmetic and the
      per-layout persistence of the resizer module;
    - [Panels]    models the wrapper reconciliation loop of
      [renderWebviews] in [src/renderer.js].

    JavaScript module state becomes an explicit record that is threaded
    through a small state-and-exception monad; [localStorage] is a finite
    map of strings together with a refusal policy that decides which
    [setItem] calls throw. *)

From Stdlib Require Import ZArith QArith Qround Lqa Lia.
From stdpp Require Import base option list gmap strings pretty sorting.

Local Open Scope string_scope.
Local Open Scope list_scope.
Local Open Scope Z_scope.

(* ================================================================== *)
(** ** JavaScript values used by the modules *)
(* ================================================================== *)

Module Js.

(** A number that may be [NaN] ([parseInt] of a malformed counter). *)
Inductive JsNumber := JNum (z : Z) | JNaN.

(** [n++] *)
Definition incr (n : JsNumber) : JsNumber :=
  match n with JNum z => JNum (z + 1) | JNaN => JNaN end.

(** [n.toString()] *)
Definition toString (n : JsNumber) : string :=
  match n with JNum z => pretty z | JNaN => "NaN" end.

(** Truthiness of a string-or-null value: [null] and [''] are falsy. *)
Definition truthy (v : option string) : bool :=
  match v with
  | None => false
  | Some s => negb (String.eqb s "")
  end.

(** [v || null] on a string-or-null value. *)
Definition or_null (v : option string) : option string :=
  if truthy v then v else None.

(** [String(v)] as [localStorage.setItem] applies it to its value. *)
Definition String_of (v : option string) : string := default "null" v.

(** [arr.slice(-n)]: the last [n] elements; [slice(-0)] is [slice(0)],
    the whole array. *)
Definition slice_last {A} (n : nat) (l : list A) : list A :=
  match n with
  | O => l
  | S _ => drop (length l - n) l
  end.

(** [set.add(x)] on a [Set] kept in insertion order. *)
Definition Set_add (s : list string) (x : string) : list string :=
  if decide (x ∈ s) then s else s ++ [x].

(** [new Set(iterable)] followed by iteration: first occurrences, in order. *)
Definition new_Set (l : list string) : list string := foldl Set_add [] l.

(** An exception value; only its [name] and [message] are inspected. *)
Record JsError := { err_name : string; err_message : string }.

End Js.

(* ================================================================== *)
(** ** localStorage *)
(* ================================================================== *)

Module Storage.

(** The key/value area and the host's refusal policy: [refuses m k v]
    is the error [setItem(k, v)] throws when the area holds [m], if any
    (a full quota, a disabled store). *)
Record LocalStorage := {
  items : gmap string string;
  refuses : gmap string string → string → string → option Js.JsError
}.

Definition getItem (k : string) (ls : LocalStorage) : option string :=
  items ls !! k.

Definition setItem (k v : string) (ls : LocalStorage) : Js.JsError + LocalStorage :=
  match refuses ls (items ls) k v with
  | Some e => inl e
  | None => inr {| items := <[k := v]> (items ls); refuses := refuses ls |}
  end.

Definition removeItem (k : string) (ls : LocalStorage) : LocalStorage :=
  {| items := delete k (items ls); refuses := refuses ls |}.

End Storage.

(* ================================================================== *)
(** ** src/core/sessions.js *)
(* ================================================================== *)

Module Sessions.
Import Js Storage.

Record Message := { role : string; content : string }.

(** A session object.  Fields that persisted data may lack are options:
    [sessionNumber] ([None] or [Some 0] is falsy), [chatUrls],
    [apiChatHistory]. *)
Record Session := {
  id : string;
  name : option string;
  sessionNumber : option Z;
  selectedAIs : list string;
  mode : option string;
  chatUrls : option (gmap string string);
  apiChatHistory : option (gmap string (list Message));
  promptDraft : string;
  createdAt : Z
}.

Definition STORAGE_KEYS_SESSIONS : string := "oneprompt-sessions".
Definition STORAGE_KEYS_CURRENT_SESSION : string := "oneprompt-current-session".
Definition STORAGE_KEYS_SESSION_COUNTER : string := "oneprompt-session-counter".
Definition STORAGE_KEYS_DEFAULT_MODE : string := "oneprompt-default-mode".

Definition DEFAULT_CONFIG_defaultServices : list string := ["perplexity"; "copilot"].
Definition DEFAULT_CONFIG_defaultMode : string := "web".
Definition DEFAULT_CONFIG_maxHistoryPerAI : nat := 6.

(** The after-save hook is opaque to the store; all that matters to the
    caller is whether it returns or throws. *)
Inductive Hook := HookReturns | HookThrows (e : JsError).

(** What the modules do to the outside: logger calls, every
    [localStorage.setItem] attempt with its outcome, and calls of host
    functions and injected callbacks ([alert], the render callbacks). *)
Inductive Event :=
| LoggerLog (msg : string)
| LoggerWarn (msg : string)
| LoggerError (msg : string) (e : JsError)
| SetItem (key value : string) (thrown : option JsError)
| Call (callee : string) (args : list string).

(** Module state of sessions.js together with the localStorage it
    persists to and the trace of its effects (most recent last). *)
Record State := {
  sessions : list Session;
  currentSessionId : option string;
  sessionCounter : JsNumber;
  onAfterSave : option Hook;
  localStorage : LocalStorage;
  trace : list Event
}.

Definition set_sessions (l : list Session) (st : State) : State :=
  {| sessions := l; currentSessionId := currentSessionId st;
     sessionCounter := sessionCounter st; onAfterSave := onAfterSave st;
     localStorage := localStorage st; trace := trace st |}.

Definition set_currentSessionId (c : option string) (st : State) : State :=
  {| sessions := sessions st; currentSessionId := c;
     sessionCounter := sessionCounter st; onAfterSave := onAfterSave st;
     localStorage := localStorage st; trace := trace st |}.

Definition set_sessionCounter (n : JsNumber) (st : State) : State :=
  {| sessions := sessions st; currentSessionId := currentSessionId st;
     sessionCounter := n; onAfterSave := onAfterSave st;
     localStorage := localStorage st; trace := trace st |}.

Definition set_localStorage (ls : LocalStorage) (st : State) : State :=
  {| sessions := sessions st; currentSessionId := currentSessionId st;
     sessionCounter := sessionCounter st; onAfterSave := onAfterSave st;
     localStorage := ls; trace := trace st |}.

Definition emit (ev : Event) (st : State) : State :=
  {| sessions := sessions st; currentSessionId := currentSessionId st;
     sessionCounter := sessionCounter st; onAfterSave := onAfterSave st;
     localStorage := localStorage st; trace := trace st ++ [ev] |}.

(** *** State-and-exception monad *)

Inductive Completion (A : Type) :=
| Normal (a : A)
| Throw (e : JsError).
Arguments Normal {A} a.
Arguments Throw {A} e.

Definition M (A : Type) : Type := State → Completion A * State.

#[export] Instance M_ret : MRet M := λ A a st, (Normal a, st).

#[export] Instance M_bind : MBind M := λ A B k m st,
  match m st with
  | (Normal a, st') => k a st'
  | (Throw e, st') => (Throw e, st')
  end.

Definition throw {A} (e : JsError) : M A := λ st, (Throw e, st).

(** [try { m } catch (e) { h e }]; mutations made before the throw stay. *)
Definition try_catch {A} (m : M A) (h : JsError → M A) : M A :=
  λ st, match m st with
        | (Normal a, st') => (Normal a, st')
        | (Throw e, st') => h e st'
        end.

Definition get : M State := λ st, (Normal st, st).
Definition modify (f : State → State) : M unit := λ st, (Normal tt, f st).

Definition logger_log (msg : string) : M unit := modify (emit (LoggerLog msg)).
Definition logger_warn (msg : string) : M unit := modify (emit (LoggerWarn msg)).
Definition logger_error (msg : string) (e : JsError) : M unit :=
  modify (emit (LoggerError msg e)).

(** [localStorage.getItem(k)] *)
Definition localStorage_getItem (k : string) : M (option string) :=
  λ st, (Normal (getItem k (localStorage st)), st).

(** [localStorage.setItem(k, v)]: throws what the host refuses with. *)
Definition localStorage_setItem (k v : string) : M unit :=
  λ st, match setItem k v (localStorage st) with
        | inl e => (Throw e, emit (SetItem k v (Some e)) st)
        | inr ls => (Normal tt, emit (SetItem k v None) (set_localStorage ls st))
        end.

(** Built-ins the module calls and whose text format is not modelled. *)
Inductive Parsed :=
| SyntaxError (e : JsError)
    (** [JSON.parse] throws *)
| NotSessions (e : JsError)
    (** parses, but the property reads of the log statement throw *)
| SessionArray (l : list Session).

Class Builtins := {
  JSON_stringify : list Session → string;
  JSON_parse : string → Parsed;
  parseInt : string → JsNumber
}.

(** *** createSession *)

(** [nextNumber]: one more than the largest positive [sessionNumber]
    in the list, 1 when there is none. *)
Definition nextNumber (l : list Session) : Z :=
  let existingNumbers :=
    filter (λ n, 0 < n) (map (λ s, default 0 (sessionNumber s)) l) in
  match existingNumbers with
  | [] => 1
  | n :: ns => foldl Z.max n ns + 1
  end.

(** [initialMode] after the [if (!initialMode) { ... }] block, given the
    stored default mode. *)
Definition initialMode (mode defaultMode : option string) : option string :=
  if truthy mode then mode
  else if truthy defaultMode && negb (bool_decide (defaultMode = Some "ask"))
       then defaultMode else mode.

(** [ticks] are the two [Date.now()] readings, for [id] and [createdAt]. *)
Definition createSession (ticks : Z * Z) (name : option string)
    (selectedAIsSet : option (list string)) (mode : option string) : M Session :=
  modify (λ st, set_sessionCounter (incr (sessionCounter st)) st) ;;
  st ← get;
  defaultMode ← (if truthy mode then mret None
                 else localStorage_getItem STORAGE_KEYS_DEFAULT_MODE);
  mret {| id := "session-" +:+ pretty ticks.1 +:+ "-" +:+ toString (sessionCounter st);
          name := or_null name;
          sessionNumber := Some (nextNumber (sessions st));
          selectedAIs := default [] selectedAIsSet;
          mode := or_null (initialMode mode defaultMode);
          chatUrls := Some ∅;
          apiChatHistory := Some ∅;
          promptDraft := "";
          createdAt := ticks.2 |}.

(** *** Accessors and list mutation *)

Definition getSessions : M (list Session) := st ← get; mret (sessions st).
Definition setSessions (l : list Session) : M unit := modify (set_sessions l).
Definition getCurrentSessionId : M (option string) :=
  st ← get; mret (currentSessionId st).
Definition setCurrentSessionId (c : option string) : M unit :=
  modify (set_currentSessionId c).
Definition getSessionCounter : M JsNumber := st ← get; mret (sessionCounter st).

(** [sessions.find(s => s.id === sessionId)] *)
Definition find_by_id (sessionId : option string) (l : list Session) : option Session :=
  match sessionId with
  | None => None
  | Some i => List.find (λ s, bool_decide (id s = i)) l
  end.

(** In-place mutation of the object that [find(s => s.id === i)] returns:
    the first session carrying that id. *)
Fixpoint update_found (i : string) (f : Session → Session) (l : list Session)
    : list Session :=
  match l with
  | [] => []
  | s :: l' =>
      if bool_decide (id s = i) then f s :: l'
      else s :: update_found i f l'
  end.

Definition getSessionById (sessionId : option string) : M (option Session) :=
  st ← get; mret (find_by_id sessionId (sessions st)).

(** [sessions.find(...) || sessions[0]] *)
Definition getCurrentSession : M (option Session) :=
  st ← get;
  mret (match find_by_id (currentSessionId st) (sessions st) with
       | Some s => Some s
       | None => head (sessions st)
       end).

Definition addSession (s : Session) : M unit :=
  modify (λ st, set_sessions (sessions st ++ [s]) st).

(** [findIndex] then [splice(index, 1)] *)
Fixpoint remove_first_by_id (i : string) (l : list Session) : option (list Session) :=
  match l with
  | [] => None
  | s :: l' =>
      if bool_decide (id s = i) then Some l'
      else option_map (cons s) (remove_first_by_id i l')
  end.

Definition removeSession (sessionId : string) : M bool :=
  st ← get;
  match remove_first_by_id sessionId (sessions st) with
  | Some l => setSessions l ;; mret true
  | None => mret false
  end.

(** [session.apiChatHistory?.[aiKey]] *)
Definition history (s : Session) (aiKey : string) : option (list Message) :=
  apiChatHistory s ≫= (λ h, h !! aiKey).

(** *** trimAllApiHistory *)

Definition set_apiChatHistory (h : option (gmap string (list Message))) (s : Session) : Session :=
  {| id := id s; name := name s; sessionNumber := sessionNumber s;
     selectedAIs := selectedAIs s; mode := mode s; chatUrls := chatUrls s;
     apiChatHistory := h; promptDraft := promptDraft s; createdAt := createdAt s |}.

Definition set_sessionNumber (n : option Z) (s : Session) : Session :=
  {| id := id s; name := name s; sessionNumber := n;
     selectedAIs := selectedAIs s; mode := mode s; chatUrls := chatUrls s;
     apiChatHistory := apiChatHistory s; promptDraft := promptDraft s;
     createdAt := createdAt s |}.

Definition set_promptDraft (d : string) (s : Session) : Session :=
  {| id := id s; name := name s; sessionNumber := sessionNumber s;
     selectedAIs := selectedAIs s; mode := mode s; chatUrls := chatUrls s;
     apiChatHistory := apiChatHistory s; promptDraft := d;
     createdAt := createdAt s |}.

(** The body of the inner [forEach]: one history, cut when too long. *)
Definition trim_history (maxMessages : nat) (history : list Message) : list Message :=
  if bool_decide (maxMessages < length history)%nat
  then slice_last maxMessages history
  else history.

Definition trim_session (maxMessages : nat) (s : Session) : Session :=
  match apiChatHistory s with
  | Some h => set_apiChatHistory (Some (trim_history maxMessages <$> h)) s
  | None => s
  end.

(** Whether the loop sets [freed] while visiting this session. *)
Definition session_frees (maxMessages : nat) (s : Session) : bool :=
  match apiChatHistory s with
  | Some h =>
      existsb (λ kv, bool_decide (maxMessages < length kv.2)%nat) (map_to_list h)
  | None => false
  end.

Definition trimAllApiHistory (maxMessages : nat) : M bool :=
  st ← get;
  modify (set_sessions (map (trim_session maxMessages) (sessions st))) ;;
  mret (existsb (session_frees maxMessages) (sessions st)).

(** *** saveSessionsToStorage *)

Section WithBuiltins.
Context `{Builtins}.

Definition is_quota_error (e : JsError) : bool :=
  bool_decide (err_name e = "QuotaExceededError")
  || bool_decide (err_name e = "NS_ERROR_DOM_QUOTA_REACHED").

(** [localStorage.setItem(STORAGE_KEYS.SESSIONS, JSON.stringify(sessions))] *)
Definition write_sessions : M unit :=
  st ← get;
  localStorage_setItem STORAGE_KEYS_SESSIONS (JSON_stringify (sessions st)).

Definition call_onAfterSave : M unit :=
  st ← get;
  match onAfterSave st with
  | Some HookReturns => mret tt
  | Some (HookThrows e) => throw e
  | None => mret tt
  end.

(** The statements of the outer [try] block. *)
Definition save_attempt (captureUrlsFn : option (M unit)) : M unit :=
  match captureUrlsFn with Some f => f | None => mret tt end ;;
  write_sessions ;;
  st ← get;
  localStorage_setItem STORAGE_KEYS_CURRENT_SESSION (String_of (currentSessionId st)) ;;
  localStorage_setItem STORAGE_KEYS_SESSION_COUNTER (toString (sessionCounter st)) ;;
  try_catch call_onAfterSave
    (λ hookError, logger_error "onAfterSave hook failed:" hookError).

(** The [catch] block: log, and on a quota error trim and retry. *)
Definition save_recover (error : JsError) : M unit :=
  logger_error "Failed to save sessions to storage:" error ;;
  if is_quota_error error then
    logger_warn "Storage quota exceeded. Attempting to trim history..." ;;
    freed ← trimAllApiHistory DEFAULT_CONFIG_maxHistoryPerAI;
    if freed : bool then
      try_catch
        (write_sessions ;; logger_log "Sessions saved after trimming.")
        (λ retryError, logger_error "Still failed after trimming:" retryError)
    else mret tt
  else mret tt.

Definition saveSessionsToStorage (captureUrlsFn : option (M unit)) : M unit :=
  try_catch (save_attempt captureUrlsFn) save_recover.

(** *** loadSessionsFromStorage *)

Record LoadOptions := {
  defaultServices : option (list string);
  defaultMode : option string
}.

(** [!session.sessionNumber] *)
Definition lacks_number (s : Session) : bool :=
  match sessionNumber s with
  | None => true
  | Some n => bool_decide (n = 0)
  end.

(** The [forEach] that numbers sessions lacking a [sessionNumber]. *)
Definition number_missing (l : list Session) : list Session :=
  imap (λ index s,
          if lacks_number s then set_sessionNumber (Some (Z.of_nat index + 1)) s
          else s) l.

(** The [if (storedSessions) { try ... catch ... }] block. *)
Definition read_stored : M unit :=
  storedSessions ← localStorage_getItem STORAGE_KEYS_SESSIONS;
  if truthy storedSessions then
    let read_pointer_and_counter : M unit :=
      current ← localStorage_getItem STORAGE_KEYS_CURRENT_SESSION;
      setCurrentSessionId current ;;
      counter ← localStorage_getItem STORAGE_KEYS_SESSION_COUNTER;
      modify (set_sessionCounter
                (parseInt (if truthy counter then default "0" counter else "0"))) in
    try_catch
      (match JSON_parse (default "" storedSessions) with
       | SyntaxError e => throw e
       | NotSessions e => read_pointer_and_counter ;; throw e
       | SessionArray l =>
           setSessions l ;;
           read_pointer_and_counter ;;
           logger_log "[loadSessionsFromStorage] Loaded sessions:"
       end)
      (λ error,
         logger_error "[loadSessionsFromStorage] Failed to parse stored sessions:" error ;;
         setSessions [])
  else mret tt.

Definition options_defaultServices (options : LoadOptions) : list string :=
  default DEFAULT_CONFIG_defaultServices (defaultServices options).

Definition options_defaultMode (options : LoadOptions) : string :=
  if truthy (defaultMode options)
  then default DEFAULT_CONFIG_defaultMode (defaultMode options)
  else DEFAULT_CONFIG_defaultMode.

Definition loadSessionsFromStorage (ticks : Z * Z) (options : LoadOptions)
    : M (list Session * option string * JsNumber) :=
  let defaultServices := options_defaultServices options in
  let defaultMode := options_defaultMode options in
  read_stored ;;
  st ← get;
  match sessions st with
  | [] =>
      defaultSession ← createSession ticks None (Some (new_Set defaultServices))
                         (Some defaultMode);
      addSession defaultSession ;;
      setCurrentSessionId (Some (id defaultSession)) ;;
      saveSessionsToStorage None
  | first :: _ =>
      match find_by_id (currentSessionId st) (sessions st) with
      | Some validSession => mret tt
      | None =>
          setCurrentSessionId (Some (id first)) ;;
          logger_log "[loadSessionsFromStorage] Fixed invalid currentSessionId, now:"
      end
  end ;;
  modify (λ st, set_sessions (number_missing (sessions st)) st) ;;
  st ← get;
  mret (sessions st, currentSessionId st, sessionCounter st).

End WithBuiltins.

End Sessions.

(* ================================================================== *)
(** ** src/core/tabs.js *)
(* ================================================================== *)

Module Tabs.
Import Js Storage Sessions.

Section WithBuiltins.
Context `{Builtins}.

(** The re-render callbacks touch the DOM only; they are recorded. *)
Definition callback (fn : string) (args : list string) : M unit :=
  modify (emit (Call fn args)).

(** [t('error.maxTabs') || 'Maximum 20 tabs allowed'] shown by [alert]. *)
Definition alert_maxTabs : M unit := callback "alert" ["error.maxTabs"].

(** In-place mutation of the object [getCurrentSession()] returns. *)
Definition update_current (f : Session → Session) (st : State) : State :=
  match find_by_id (currentSessionId st) (sessions st), sessions st with
  | Some s, l => set_sessions (update_found (id s) f l) st
  | None, first :: rest => set_sessions (f first :: rest) st
  | None, [] => st
  end.

(** [switchToSession(sessionId)]; [promptInput] is the value of the
    prompt element, if the element exists. *)
Definition switchToSession (promptInput : option string) (sessionId : string)
    : M unit :=
  currentId ← getCurrentSessionId;
  if bool_decide (Some sessionId = currentId) then mret tt
  else
    match promptInput with
    | Some value => modify (update_current (set_promptDraft value))
    | None => mret tt
    end ;;
    saveSessionsToStorage None ;;
    setCurrentSessionId (Some sessionId) ;;
    session ← getCurrentSession;
    match session with
    | None =>
        throw {| err_name := "TypeError";
                 err_message := "Cannot read properties of undefined" |}
    | Some session =>
        callback "setSelectedAIs" (new_Set (selectedAIs session)) ;;
        saveSessionsToStorage None ;;
        callback "renderTabs" [] ;;
        callback "renderSidebar" [] ;;
        callback "renderWebviews" [] ;;
        callback "updateCopyButton" [] ;;
        callback "updateCrossCheckVisibility" [] ;;
        callback "promptInput.restore" [promptDraft session] ;;
        callback "updatePromptButtons" []
    end.

(** [closeSession(sessionId)]; [cleanupSessionWebviews] is an optional
    callback of the host. *)
Definition closeSession (ticks : Z * Z) (sessionId : string) : M unit :=
  before ← getSessions;
  match list_find (λ s, id s = sessionId) before with
  | None => mret tt
  | Some (sessionIndex, _) =>
      callback "cleanupSessionWebviews" [sessionId] ;;
      removeSession sessionId ;;
      sessions ← getSessions;
      current ← getCurrentSessionId;
      match sessions with
      | [] =>
          newSession ← createSession ticks None (Some (new_Set [])) None;
          addSession newSession ;;
          setCurrentSessionId (Some (id newSession)) ;;
          callback "setSelectedAIs" (new_Set (selectedAIs newSession))
      | _ :: _ =>
          if bool_decide (Some sessionId = current) then
            match sessions !! (sessionIndex - 1)%nat with
            | Some s =>
                setCurrentSessionId (Some (id s)) ;;
                callback "setSelectedAIs" (new_Set (selectedAIs s))
            | None => mret tt
            end
          else mret tt
      end ;;
      saveSessionsToStorage None ;;
      callback "renderTabs" [] ;;
      callback "renderSidebar" [] ;;
      callback "renderWebviews" [] ;;
      callback "updateCopyButton" [] ;;
      callback "updateCrossCheckVisibility" []
  end.

Definition createNewSessionAndSwitch (ticks : Z * Z) : M unit :=
  sessions ← getSessions;
  if bool_decide (20 ≤ length sessions)%nat then alert_maxTabs
  else
    saveSessionsToStorage None ;;
    newSession ← createSession ticks None (Some (new_Set [])) None;
    addSession newSession ;;
    setCurrentSessionId (Some (id newSession)) ;;
    callback "setSelectedAIs" (new_Set (selectedAIs newSession)) ;;
    saveSessionsToStorage None ;;
    callback "renderTabs" [] ;;
    callback "renderSidebar" [] ;;
    callback "renderWebviews" [] ;;
    callback "updateCopyButton" [].

End WithBuiltins.

End Tabs.

(* ================================================================== *)
(** ** API chat module and src/app/prompt.js *)
(* ================================================================== *)

Module ApiChat.
Import Js Storage Sessions.

Definition API_HISTORY_LIMIT : nat := 12.

(** What the chat code reads from a panel element: [panel.dataset.aiKey]
    and the [data-session-id] of the closest enclosing wrapper. *)
Record Panel := {
  dataset_aiKey : string;
  closest_sessionId : option string
}.

(** [a || b] on string-or-null values. *)
Definition or_else (a b : option string) : option string :=
  if truthy a then a else b.

(** Lines 225-237 of [saveApiHistory]: create the containers when
    missing, push, enforce the sliding window. *)
Definition push_message (aiKey role content : string) (s : Session) : Session :=
  let history := default ∅ (apiChatHistory s) in
  let pushed := (default [] (history !! aiKey)
                 ++ [{| role := role; content := content |}])%list in
  let windowed :=
    if bool_decide (API_HISTORY_LIMIT < length pushed)%nat
    then slice_last API_HISTORY_LIMIT pushed
    else pushed in
  set_apiChatHistory (Some (<[aiKey := windowed]> history)) s.

Section WithBuiltins.
Context `{Builtins}.

(** The collaborators injected through [initApiChat] are bound to the
    session store: [getSessionsArray] to [getSessions],
    [getCurrentSessionId] and [saveSessionsToStorage] to the functions of
    the same names; [saveSessionsToStorage()] is called without argument. *)
Definition saveApiHistory (aiKey role content : string) (sessionId : option string)
    : M unit :=
  current ← getCurrentSessionId;
  let targetSessionId := or_else sessionId current in
  sessionsArray ← getSessions;
  match find_by_id targetSessionId sessionsArray with
  | None => logger_warn "[saveApiHistory] Session not found:"
  | Some session =>
      modify (λ st, set_sessions
                      (update_found (id session) (push_message aiKey role content)
                         (sessions st)) st) ;;
      saveSessionsToStorage None
  end.

(** DOM-only effects are recorded in the trace. *)
Definition dom (what : string) (args : list string) : M unit :=
  modify (emit (Call what args)).

Definition appendApiMessage (panel : Panel) (role text : string) (save : bool)
    (sessionId : option string) : M unit :=
  (if save && negb (bool_decide (role = "system")) then
     current ← getCurrentSessionId;
     let targetSessionId :=
       or_else (or_else sessionId (closest_sessionId panel)) current in
     saveApiHistory (dataset_aiKey panel) role text targetSessionId
   else mret tt) ;;
  dom "appendBubble" [dataset_aiKey panel; role; text].

(** The variables an in-flight [handleApiChat] call closes over. *)
Record Request := {
  req_aiKey : string;
  req_prompt : string;
  req_panel : Panel;
  req_targetSessionId : option string
}.

(** [handleApiChat] up to its first [await] (the request check). *)
Definition handleApiChat_start (aiKey prompt : string) (panel : Panel)
    (sessionId : option string) : M Request :=
  current ← getCurrentSessionId;
  let targetSessionId := or_else sessionId current in
  appendApiMessage panel "user" prompt false targetSessionId ;;
  mret {| req_aiKey := aiKey; req_prompt := prompt; req_panel := panel;
          req_targetSessionId := targetSessionId |}.

(** From the resolution of [checkCanMakeRequest] to the second [await]:
    returns the messages handed to [makeAIRequest], if the request goes
    ahead. *)
Definition handleApiChat_checked (r : Request) (canProceed : bool)
    : M (option (list Message)) :=
  if canProceed then
    dom "updateWebviewStatus" [req_aiKey r; "thinking"] ;;
    dom "appendApiLoader" [req_aiKey r] ;;
    sessionsArray ← getSessions;
    let session := find_by_id (req_targetSessionId r) sessionsArray in
    let stored :=
      default [] (s ← session; h ← apiChatHistory s; h !! req_aiKey r) in
    let existingHistory :=
      slice_last API_HISTORY_LIMIT
        (filter (λ msg, role msg = "user" ∨ role msg = "assistant") stored) in
    mret (Some existingHistory)
  else
    appendApiMessage (req_panel r) "system" "error.apiKeyMissing" false
      (req_targetSessionId r) ;;
    dom "updateWebviewStatus" [req_aiKey r; "error"] ;;
    mret None.

(** [errorMsg.includes(...)] tests of the [catch] block. *)
Definition isApiKeyError (errorMsg : string) : bool :=
  let includes needle := bool_decide (is_Some (String.index 0 needle errorMsg)) in
  includes "ISO-8859-1" || includes "Failed to fetch" || includes "401"
  || includes "invalid_api_key" || includes "Unauthorized".

(** From the settlement of [makeAIRequest] to the end of the function. *)
Definition handleApiChat_settled (r : Request) (outcome : JsError + string)
    : M unit :=
  match outcome with
  | inr responseText =>
      dom "loader.remove" [req_aiKey r] ;;
      logger_log "[handleApiChat] Saving assistant response" ;;
      appendApiMessage (req_panel r) "assistant" responseText true
        (req_targetSessionId r) ;;
      saveSessionsToStorage None ;;
      dom "updateWebviewStatus" [req_aiKey r; "ready"]
  | inl error =>
      logger_error "API Error" error ;;
      dom "loader.remove" [req_aiKey r] ;;
      (if isApiKeyError (err_message error)
       then appendApiMessage (req_panel r) "system" "error.apiKeyInvalid" true None
       else appendApiMessage (req_panel r) "system"
              ("Error: " +:+ err_message error) true None) ;;
      dom "updateWebviewStatus" [req_aiKey r; "error"]
  end.

(** *** sendPromptToSelectedAIs (prompt.js)

    [prompt] is [promptInput.value.trim()], [selectedAIs] the module's
    selection in iteration order, [sessionWebviews] the result of
    [getCurrentSessionWebviews()].  The callbacks run up to their first
    [await] in order; the result lists the requests left in flight. *)

(** The callback passed to [aiKeys.map], applied after the requests
    [started] so far. *)
Definition dispatch (prompt : string) (capturedSessionId : option string)
    (isApiMode : bool) (sessionWebviews : gmap string Panel)
    (started : list Request) (aiKey : string) : M (list Request) :=
  match sessionWebviews !! aiKey with
  | None =>
      logger_log "Webview not found in current session" ;;
      mret started
  | Some webview =>
      if isApiMode then
        logger_log "Handling API chat" ;;
        saveApiHistory aiKey "user" prompt capturedSessionId ;;
        r ← handleApiChat_start aiKey prompt webview capturedSessionId;
        mret (started ++ [r])
      else
        dom "ensureWebviewLoaded" [aiKey] ;;
        mret started
  end.

Definition sendPromptToSelectedAIs (prompt : string) (selectedAIs : list string)
    (sessionWebviews : gmap string Panel) : M (list Request) :=
  if String.eqb prompt "" || bool_decide (selectedAIs = []) then mret []
  else
    capturedSessionId ← getCurrentSessionId;
    currentSession ← getCurrentSession;
    let isApiMode :=
      match currentSession with
      | Some s => bool_decide (mode s = Some "api")
      | None => false
      end in
    dom "promptInput.clear" [] ;;
    dom "updatePromptButtons" [] ;;
    foldl (λ (acc : M (list Request)) aiKey,
             started ← acc;
             dispatch prompt capturedSessionId isApiMode sessionWebviews
               started aiKey)
          (mret []) selectedAIs.

End WithBuiltins.

End ApiChat.

(* ================================================================== *)
(** ** Resizer module *)
(* ================================================================== *)

Module Resizer.
Import Js Storage.

Local Open Scope Q_scope.

Definition STORAGE_KEY_PREFIX : string := "oneprompt-wrapper-sizes".

(** Pixel extents and pointer coordinates are exact rationals (layout
    units are dyadic fractions of a pixel).  A quotient by zero is not a
    finite number in JavaScript: [None]. *)
Definition num : Type := option Q.

Definition js_div (a b : Q) : num :=
  if Qeq_bool b 0 then None else Some (a / b).

(** [getBoundingClientRect()] of an element, as last laid out. *)
Record Rect := { left : Q; top : Q; width : Q; height : Q }.

(** A [.webview-wrapper] element: the inline styles the resizer reads and
    writes, its measured box and whether it carries a [.webview-resizer]
    handle.  [style.flex] is [''] ([None]) or [`${ratio} 1 0%`]. *)
Record Wrapper := {
  aiKey : string;
  display : string;
  order : Z;
  flex : option num;
  minWidth : string;
  minHeight : string;
  rect : Rect;
  resizer : bool
}.

(** The [#webviewGrid] element. *)
Record Grid := {
  classList : list string;
  gridTemplateColumns : string;
  gridTemplateRows : string;
  gridResizers : list (string * nat)
}.

(** Flex drag state ([isResizing], [currentWrapper], ...); wrappers are
    referred to by their position in the document. *)
Record FlexDrag := {
  isResizing : bool;
  currentWrapper : option nat;
  nextWrapper : option nat;
  startPos : Q * Q;
  startSizes : Q * Q;
  resizeDirection : option string
}.

Record GridDrag := {
  grid_isResizing : bool;
  grid_type : string;
  grid_index : nat;
  grid_startPos : Q;
  grid_startSizes : list Q
}.

Record MouseEvent := { clientX : Q; clientY : Q }.

Record State := {
  webviewGrid : option Grid;
  wrappers : list Wrapper;
  flexDrag : FlexDrag;
  gridResizeState : GridDrag;
  gridResizeObserver : bool;
  localStorage : LocalStorage;
  timers : list (string * nat);
  console : list string
}.

Definition set_webviewGrid (g : option Grid) (st : State) : State :=
  {| webviewGrid := g; wrappers := wrappers st; flexDrag := flexDrag st;
     gridResizeState := gridResizeState st;
     gridResizeObserver := gridResizeObserver st;
     localStorage := localStorage st; timers := timers st;
     console := console st |}.

Definition set_wrappers (ws : list Wrapper) (st : State) : State :=
  {| webviewGrid := webviewGrid st; wrappers := ws; flexDrag := flexDrag st;
     gridResizeState := gridResizeState st;
     gridResizeObserver := gridResizeObserver st;
     localStorage := localStorage st; timers := timers st;
     console := console st |}.

Definition set_gridResizeObserver (b : bool) (st : State) : State :=
  {| webviewGrid := webviewGrid st; wrappers := wrappers st;
     flexDrag := flexDrag st; gridResizeState := gridResizeState st;
     gridResizeObserver := b;
     localStorage := localStorage st; timers := timers st;
     console := console st |}.

Definition set_localStorage (ls : LocalStorage) (st : State) : State :=
  {| webviewGrid := webviewGrid st; wrappers := wrappers st;
     flexDrag := flexDrag st; gridResizeState := gridResizeState st;
     gridResizeObserver := gridResizeObserver st;
     localStorage := ls; timers := timers st; console := console st |}.

(** [setTimeout(callback, ms)] *)
Definition setTimeout (callback : string) (ms : nat) (st : State) : State :=
  {| webviewGrid := webviewGrid st; wrappers := wrappers st;
     flexDrag := flexDrag st; gridResizeState := gridResizeState st;
     gridResizeObserver := gridResizeObserver st;
     localStorage := localStorage st;
     timers := timers st ++ [(callback, ms)]; console := console st |}.

Definition logger_log (msg : string) (st : State) : State :=
  {| webviewGrid := webviewGrid st; wrappers := wrappers st;
     flexDrag := flexDrag st; gridResizeState := gridResizeState st;
     gridResizeObserver := gridResizeObserver st;
     localStorage := localStorage st; timers := timers st;
     console := console st ++ [msg] |}.

(** The inline styles of a wrapper, with the key they are stored under. *)
Definition styles (w : Wrapper) : string * string * option num * string * string :=
  (aiKey w, display w, flex w, minWidth w, minHeight w).

(** *** Layout mode and visible wrappers *)

Definition getCurrentLayoutMode (st : State) : string :=
  match webviewGrid st with
  | None => "horizontal"
  | Some grid =>
      if bool_decide ("layout-vertical" ∈ classList grid) then "vertical"
      else if bool_decide ("layout-grid" ∈ classList grid) then "grid"
      else "horizontal"
  end.

Definition getStorageKey (st : State) : string :=
  STORAGE_KEY_PREFIX +:+ "-" +:+ getCurrentLayoutMode st.

Definition visible (w : Wrapper) : bool :=
  negb (String.eqb (display w) "none").

(** Stable insertion by [style.order], as [Array.prototype.sort] is. *)
Fixpoint insert_by_order (x : nat * Wrapper) (l : list (nat * Wrapper))
    : list (nat * Wrapper) :=
  match l with
  | [] => [x]
  | y :: l' =>
      if (order x.2 <? order y.2)%Z then x :: y :: l'
      else y :: insert_by_order x l'
  end.

(** Visible wrappers in display order, each with its document position. *)
Definition getVisibleWrappers (st : State) : list (nat * Wrapper) :=
  foldr insert_by_order []
    (filter (λ iw, visible iw.2 = true) (imap (λ i w, (i, w)) (wrappers st))).

(** [wrappers.forEach(f)] over the visible wrappers, for a body that only
    mutates the wrapper it visits. *)
Definition forEach_visible (f : Wrapper → Wrapper) (st : State) : State :=
  set_wrappers (map (λ w, if visible w then f w else w) (wrappers st)) st.

Definition getNextWrapper (wrapper : nat) (st : State) : option nat :=
  let ws := (fst <$> getVisibleWrappers st) in
  i ← list_find (λ j, j = wrapper) ws;
  fst <$> (getVisibleWrappers st !! S i.1).

(** *** Flex resize (horizontal and vertical) *)

(** The two candidate sizes of [onResize] after the minimum is enforced. *)
Definition onResize_sizes (d : FlexDrag) (e : MouseEvent) : Q * Q :=
  let delta :=
    if bool_decide (resizeDirection d = Some "vertical")
    then clientY e - (startPos d).2
    else clientX e - (startPos d).1 in
  let minSize := 150 in
  let newCurrentSize := (startSizes d).1 + delta in
  let newNextSize := (startSizes d).2 - delta in
  let '(newCurrentSize, newNextSize) :=
    if Qlt_le_dec newCurrentSize minSize
    then (minSize, (startSizes d).1 + (startSizes d).2 - minSize)
    else (newCurrentSize, newNextSize) in
  let '(newCurrentSize, newNextSize) :=
    if Qlt_le_dec newNextSize minSize
    then ((startSizes d).1 + (startSizes d).2 - minSize, minSize)
    else (newCurrentSize, newNextSize) in
  (newCurrentSize, newNextSize).

Definition set_flex_min (ratio : num) (direction : option string) (w : Wrapper)
    : Wrapper :=
  if bool_decide (direction = Some "vertical") then
    {| aiKey := aiKey w; display := display w; order := order w;
       flex := Some ratio; minWidth := minWidth w; minHeight := "150px";
       rect := rect w; resizer := resizer w |}
  else
    {| aiKey := aiKey w; display := display w; order := order w;
       flex := Some ratio; minWidth := "150px"; minHeight := minHeight w;
       rect := rect w; resizer := resizer w |}.

Definition update_at (i : nat) (f : Wrapper → Wrapper) (ws : list Wrapper)
    : list Wrapper :=
  match ws !! i with
  | Some w => <[i := f w]> ws
  | None => ws
  end.

Definition onResize (e : MouseEvent) (st : State) : State :=
  let d := flexDrag st in
  match isResizing d, currentWrapper d, nextWrapper d with
  | true, Some current, Some next =>
      let '(newCurrentSize, newNextSize) := onResize_sizes d e in
      let totalSize := newCurrentSize + newNextSize in
      let currentRatio := (λ r, r * 2) <$> js_div newCurrentSize totalSize in
      let nextRatio := (λ r, r * 2) <$> js_div newNextSize totalSize in
      set_wrappers
        (update_at next (set_flex_min nextRatio (resizeDirection d))
           (update_at current (set_flex_min currentRatio (resizeDirection d))
              (wrappers st))) st
  | _, _, _ => st
  end.

(** *** Grid resize *)

(** [newSizes] of [onGridResize]: the start sizes with entries [index]
    and [index + 1] replaced by the two candidates.  [None] when the
    divider has no column or row on one side (the source then computes
    with [undefined]). *)
Definition onGridResize_sizes (g : GridDrag) (e : MouseEvent) : option (list Q) :=
  let delta :=
    if bool_decide (grid_type g = "column")
    then clientX e - grid_startPos g
    else clientY e - grid_startPos g in
  let minSize := 150 in
  match grid_startSizes g !! grid_index g, grid_startSizes g !! S (grid_index g) with
  | Some size1, Some size2 =>
      let newSize1 := size1 + delta in
      let newSize2 := size2 - delta in
      let '(newSize1, newSize2) :=
        if Qlt_le_dec newSize1 minSize
        then (minSize, size1 + size2 - minSize)
        else (newSize1, newSize2) in
      let '(newSize1, newSize2) :=
        if Qlt_le_dec newSize2 minSize
        then (size1 + size2 - minSize, minSize)
        else (newSize1, newSize2) in
      Some (<[S (grid_index g) := newSize2]>
              (<[grid_index g := newSize1]> (grid_startSizes g)))
  | _, _ => None
  end.

(** *** Grid structure derived from the rendered boxes *)

(** [Math.round] *)
Definition Math_round (q : Q) : Z := Qfloor (q + (1 # 2)).

(** [[...new Set(xs)].sort((a, b) => a - b)] *)
Definition uniqueSorted (xs : list Z) : list Z :=
  merge_sort Z.le (remove_dups xs).

Record GridStructure := {
  cols : nat;
  rows : nat;
  colWidths : list Q;
  rowHeights : list Q
}.

Definition getGridStructure (st : State) : GridStructure :=
  match webviewGrid st, getVisibleWrappers st with
  | None, _ | _, [] => {| cols := 0; rows := 0; colWidths := []; rowHeights := [] |}
  | Some _, visibleWrappers =>
      let positions := snd <$> visibleWrappers in
      let uniqueLefts := uniqueSorted ((λ w, Math_round (left (rect w))) <$> positions) in
      let uniqueTops := uniqueSorted ((λ w, Math_round (top (rect w))) <$> positions) in
      (* gridArray[row][col]: the last wrapper placed at that corner *)
      let cell (l t : Z) : option Wrapper :=
        last (filter (λ w, Math_round (left (rect w)) = l
                           ∧ Math_round (top (rect w)) = t) positions) in
      {| cols := length uniqueLefts;
         rows := length uniqueTops;
         colWidths :=
           (λ l, default 0 (width ∘ rect <$>
                   (list_find is_Some ((λ t, cell l t) <$> uniqueTops) ≫= snd)))
           <$> uniqueLefts;
         rowHeights :=
           (λ t, default 0 (height ∘ rect <$>
                   (list_find is_Some ((λ l, cell l t) <$> uniqueLefts) ≫= snd)))
           <$> uniqueTops |}
  end.

Definition set_gridResizers (rs : list (string * nat)) (g : Grid) : Grid :=
  {| classList := classList g; gridTemplateColumns := gridTemplateColumns g;
     gridTemplateRows := gridTemplateRows g; gridResizers := rs |}.

Definition set_templates (c r : string) (g : Grid) : Grid :=
  {| classList := classList g; gridTemplateColumns := c;
     gridTemplateRows := r; gridResizers := gridResizers g |}.

(** Column and row dividers; their pixel offsets are derived data and
    are not kept. *)
Definition createGridResizers (st : State) : State :=
  match webviewGrid st with
  | None => st
  | Some grid =>
      let cleared := set_webviewGrid (Some (set_gridResizers [] grid)) st in
      let structure := getGridStructure cleared in
      if bool_decide (cols structure ≤ 1)%nat && bool_decide (rows structure ≤ 1)%nat
      then cleared
      else
        logger_log "[Resizer] Grid resizers created:"
          (set_webviewGrid
             (Some (set_gridResizers
                      (((λ i, ("column", i)) <$> seq 0 (cols structure - 1))
                       ++ ((λ i, ("row", i)) <$> seq 0 (rows structure - 1)))%list
                      grid)) st)
  end.

(** [startGridResize(e, type, index)] *)
Definition startGridResize (e : MouseEvent) (type : string) (index : nat)
    (st : State) : State :=
  let structure := getGridStructure st in
  logger_log "[Resizer] Started grid resize:"
    {| webviewGrid := webviewGrid st; wrappers := wrappers st;
       flexDrag := flexDrag st;
       gridResizeState :=
         {| grid_isResizing := true; grid_type := type; grid_index := index;
            grid_startPos := if bool_decide (type = "column")
                             then clientX e else clientY e;
            grid_startSizes := if bool_decide (type = "column")
                               then colWidths structure
                               else rowHeights structure |};
       gridResizeObserver := gridResizeObserver st;
       localStorage := localStorage st; timers := timers st;
       console := console st |}.

(** [startResize(e, wrapper, direction)] *)
Definition startResize (e : MouseEvent) (wrapper : nat) (direction : string)
    (st : State) : State :=
  match getNextWrapper wrapper st with
  | None => st
  | Some next =>
      let extent (i : nat) : Q :=
        match wrappers st !! i with
        | Some w => if bool_decide (direction = "vertical")
                    then height (rect w) else width (rect w)
        | None => 0
        end in
      logger_log "[Resizer] Started resize:"
        {| webviewGrid := webviewGrid st; wrappers := wrappers st;
           flexDrag :=
             {| isResizing := true; currentWrapper := Some wrapper;
                nextWrapper := Some next;
                startPos := (clientX e, clientY e);
                startSizes := (extent wrapper, extent next);
                resizeDirection := Some direction |};
           gridResizeState := gridResizeState st;
           gridResizeObserver := gridResizeObserver st;
           localStorage := localStorage st; timers := timers st;
           console := console st |}
  end.

(** *** Persisted sizes: restore and clear *)

(** [JSON.parse] of the two record shapes; [None] when it throws or the
    value cannot be read as that shape. *)
Class Formats := {
  JSON_parse_ratios : string → option (gmap string Q);
  JSON_parse_grid : string → option (option string * option string)
}.

Section WithFormats.
Context `{Formats}.

Definition set_flex (r : option num) (mw mh : string) (w : Wrapper) : Wrapper :=
  {| aiKey := aiKey w; display := display w; order := order w;
     flex := r; minWidth := mw; minHeight := mh;
     rect := rect w; resizer := resizer w |}.

Definition set_resizer (b : bool) (w : Wrapper) : Wrapper :=
  {| aiKey := aiKey w; display := display w; order := order w;
     flex := flex w; minWidth := minWidth w; minHeight := minHeight w;
     rect := rect w; resizer := b |}.

Definition applyFlexRatios (ratios : gmap string Q) (st : State) : State :=
  let layoutMode := getCurrentLayoutMode st in
  if bool_decide (layoutMode = "grid") then st
  else
    forEach_visible
      (λ wrapper,
         let ratio :=
           match ratios !! aiKey wrapper with
           | Some r => if Qeq_bool r 0 then 1 else r
           | None => 1
           end in
         if bool_decide (layoutMode = "horizontal")
         then set_flex (Some (Some ratio)) "150px" (minHeight wrapper) wrapper
         else set_flex (Some (Some ratio)) (minWidth wrapper) "150px" wrapper)
      st.

Definition restoreGridSizes (st : State) : State :=
  match getItem (getStorageKey st) (localStorage st) with
  | None => st
  | Some stored =>
      if String.eqb stored "" then st
      else
        match JSON_parse_grid stored with
        | None => logger_log "[Resizer] Error restoring grid sizes:" st
        | Some (columns, rows) =>
            logger_log "[Resizer] Grid sizes restored:"
              (set_webviewGrid
                 ((λ grid,
                     set_templates
                       (if truthy columns then default "" columns
                        else gridTemplateColumns grid)
                       (if truthy rows then default "" rows
                        else gridTemplateRows grid)
                       grid) <$> webviewGrid st) st)
        end
  end.

Definition restoreSizes (st : State) : State :=
  if bool_decide (getCurrentLayoutMode st = "grid") then
    setTimeout "createGridResizers" 50 (restoreGridSizes st)
  else
    match getItem (getStorageKey st) (localStorage st) with
    | None => st
    | Some stored =>
        if String.eqb stored "" then st
        else
          match JSON_parse_ratios stored with
          | Some ratios =>
              logger_log "[Resizer] Ratios restored:" (applyFlexRatios ratios st)
          | None => logger_log "[Resizer] Error restoring ratios:" st
          end
    end.

Definition clearSizes (st : State) : State :=
  let st1 := forEach_visible (set_flex None "" "") st in
  let st2 := set_webviewGrid (set_templates "" "" <$> webviewGrid st1) st1 in
  let st3 := set_localStorage (removeItem (getStorageKey st) (localStorage st2)) st2 in
  logger_log "[Resizer] Sizes cleared" st3.

(** [createResizer(wrapper)] for the wrapper at document position [i]. *)
Definition createResizer (i : nat) (st : State) : State :=
  let st1 := set_wrappers (update_at i (set_resizer false) (wrappers st)) st in
  if bool_decide (getCurrentLayoutMode st1 = "grid") then st1
  else
    match getNextWrapper i st1 with
    | None => st1
    | Some _ => set_wrappers (update_at i (set_resizer true) (wrappers st1)) st1
    end.

Definition initResizers (st : State) : State :=
  let layoutMode := getCurrentLayoutMode st in
  let wrappers := getVisibleWrappers st in
  let st1 :=
    if bool_decide (layoutMode = "grid") then
      setTimeout "createGridResizers; setupGridResizeObserver" 50 st
    else
      set_gridResizeObserver false
        (foldl (λ acc iw, createResizer iw.1 acc) st wrappers) in
  logger_log "[Resizer] Initialized" (restoreSizes st1).

(** [onLayoutModeChange] up to its [setTimeout]. *)
Definition onLayoutModeChange (st : State) : State :=
  let st1 := set_gridResizeObserver false st in
  let st2 := set_webviewGrid (set_gridResizers [] <$> webviewGrid st1) st1 in
  let st3 := set_wrappers (set_resizer false <$> Resizer.wrappers st2) st2 in
  setTimeout "initResizers" 50 (clearSizes st3).

(** The timer callback scheduled by [onLayoutModeChange]. *)
Definition onLayoutModeChange_timeout (st : State) : State :=
  logger_log "[Resizer] Layout mode changed, sizes reset" (initResizers st).

End WithFormats.

End Resizer.

(* ================================================================== *)
(** ** src/renderer.js: panel cache and wrapper reconciliation *)
(* ================================================================== *)

Module Panels.
Import Js.

(** What a panel element is: an [.api-panel] div or a [<webview>]. *)
Inductive Kind := ApiPanel | Webview.

#[export] Instance Kind_eq_dec : EqDecision Kind.
Proof. solve_decision. Defined.

(** An element built by [createApiPanel] or [createWebview]; [serial]
    is its construction rank and stands for the element's identity. *)
Record Instance := { serial : nat; kind : Kind; service : string }.

#[export] Instance Instance_eq_dec : EqDecision Instance.
Proof. solve_decision. Defined.

(** Children of a wrapper. *)
Inductive Node :=
| Header
| Content (i : Instance)
| ResponseContainer (display : string).

#[export] Instance Node_eq_dec : EqDecision Node.
Proof. solve_decision. Defined.

(** A [.webview-wrapper] element of the grid. *)
Record Wrapper := {
  dataset_sessionId : string;
  dataset_aiKey : string;
  display : string;
  order : nat;
  children : list Node
}.

Record State := {
  (** [webviewInstances]: sessionId -> aiKey -> element *)
  webviewInstances : gmap string (gmap string Instance);
  (** the wrappers under [#webviewGrid], in document order *)
  wrappers : list Wrapper;
  (** the [.webview-placeholder] element: its [style.display] *)
  placeholder : option string;
  (** number of panel elements constructed so far *)
  constructed : nat;
  (** renderer state read by [renderWebviews] *)
  currentSessionId : option string;
  selectedAIs : list string;
  aiConfigs : gset string;
  (** [getCurrentSession()?.mode] *)
  mode : option string
}.

Definition set_wrappers (ws : list Wrapper) (st : State) : State :=
  {| webviewInstances := webviewInstances st; wrappers := ws;
     placeholder := placeholder st; constructed := constructed st;
     currentSessionId := currentSessionId st; selectedAIs := selectedAIs st;
     aiConfigs := aiConfigs st; mode := mode st |}.

Definition set_webviewInstances (m : gmap string (gmap string Instance))
    (st : State) : State :=
  {| webviewInstances := m; wrappers := wrappers st;
     placeholder := placeholder st; constructed := constructed st;
     currentSessionId := currentSessionId st; selectedAIs := selectedAIs st;
     aiConfigs := aiConfigs st; mode := mode st |}.

Definition set_placeholder (p : option string) (st : State) : State :=
  {| webviewInstances := webviewInstances st; wrappers := wrappers st;
     placeholder := p; constructed := constructed st;
     currentSessionId := currentSessionId st; selectedAIs := selectedAIs st;
     aiConfigs := aiConfigs st; mode := mode st |}.

Definition set_constructed (n : nat) (st : State) : State :=
  {| webviewInstances := webviewInstances st; wrappers := wrappers st;
     placeholder := placeholder st; constructed := n;
     currentSessionId := currentSessionId st; selectedAIs := selectedAIs st;
     aiConfigs := aiConfigs st; mode := mode st |}.

Definition set_mode (m : option string) (st : State) : State :=
  {| webviewInstances := webviewInstances st; wrappers := wrappers st;
     placeholder := placeholder st; constructed := constructed st;
     currentSessionId := currentSessionId st; selectedAIs := selectedAIs st;
     aiConfigs := aiConfigs st; mode := m |}.

Definition set_display (d : string) (w : Wrapper) : Wrapper :=
  {| dataset_sessionId := dataset_sessionId w; dataset_aiKey := dataset_aiKey w;
     display := d; order := order w; children := children w |}.

Definition set_order (n : nat) (w : Wrapper) : Wrapper :=
  {| dataset_sessionId := dataset_sessionId w; dataset_aiKey := dataset_aiKey w;
     display := display w; order := n; children := children w |}.

Definition set_children (c : list Node) (w : Wrapper) : Wrapper :=
  {| dataset_sessionId := dataset_sessionId w; dataset_aiKey := dataset_aiKey w;
     display := display w; order := order w; children := c |}.

(** The template literal [`${currentSessionId}`] used for the data
    attribute, the selector and the cache key. *)
Definition sessionKey (st : State) : string := String_of (currentSessionId st).

Definition matches (sessionId aiKey : string) (w : Wrapper) : bool :=
  bool_decide (dataset_sessionId w = sessionId)
  && bool_decide (dataset_aiKey w = aiKey).

(** [document.querySelector('.webview-wrapper[data-session-id=..][data-ai-key=..]')]:
    the first match in document order. *)
Definition querySelector (sessionId aiKey : string) (ws : list Wrapper)
    : option Wrapper :=
  List.find (matches sessionId aiKey) ws.

(** Mutation of the element [querySelector] returns. *)
Fixpoint update_selected (sessionId aiKey : string) (f : Wrapper → Wrapper)
    (ws : list Wrapper) : list Wrapper :=
  match ws with
  | [] => []
  | w :: ws' =>
      if matches sessionId aiKey w then f w :: ws'
      else w :: update_selected sessionId aiKey f ws'
  end.

(** [webviewInstances[sessionId][aiKey]] *)
Definition cached (st : State) (sessionId aiKey : string) : option Instance :=
  webviewInstances st !! sessionId ≫= (λ m, m !! aiKey).

(** [getSessionWebviews(sessionId)]: creates the inner map when missing. *)
Definition getSessionWebviews (sessionId : string) (st : State) : State :=
  match webviewInstances st !! sessionId with
  | Some _ => st
  | None => set_webviewInstances (<[sessionId := ∅]> (webviewInstances st)) st
  end.

(** [sessionWebviews[aiKey] = element] on the current session's map. *)
Definition cache (sessionId aiKey : string) (i : Instance) (st : State) : State :=
  set_webviewInstances
    (<[sessionId := <[aiKey := i]> (default ∅ (webviewInstances st !! sessionId))]>
       (webviewInstances st)) st.

(** The two nested [forEach] loops that hide the wrapper of every cached
    (session, service) pair. *)
Definition hideAll (st : State) : State :=
  set_wrappers
    (foldr (λ sm ws,
              foldr (λ ki ws', update_selected sm.1 ki.1 (set_display "none") ws')
                ws (map_to_list sm.2))
       (wrappers st) (map_to_list (webviewInstances st))) st.

(** [createApiPanel(aiKey)] / [createWebview(aiKey)] *)
Definition construct (k : Kind) (aiKey : string) (st : State) : Instance * State :=
  ({| serial := constructed st; kind := k; service := aiKey |},
   set_constructed (S (constructed st)) st).

Definition is_content (k : Kind) (n : Node) : bool :=
  match n with
  | Content i => bool_decide (kind i = k)
  | _ => false
  end.

(** [wrapper.querySelector('.api-panel')] and [wrapper.querySelector('webview')] *)
Definition existing (k : Kind) (w : Wrapper) : option Node :=
  List.find (is_content k) (children w).

(** [element.remove()] for the first child satisfying [p] *)
Fixpoint remove_first (p : Node → bool) (l : list Node) : list Node :=
  match l with
  | [] => []
  | n :: l' => if p n then l' else n :: remove_first p l'
  end.

Definition is_container (n : Node) : bool :=
  match n with ResponseContainer _ => true | _ => false end.

(** [textareaContainer.style.display = d] on the first container, if any *)
Fixpoint show_container (d : string) (l : list Node) : list Node :=
  match l with
  | [] => []
  | ResponseContainer _ :: l' => ResponseContainer d :: l'
  | n :: l' => n :: show_container d l'
  end.

(** Insert after the header when it has a next sibling, else append. *)
Fixpoint insert_after_header (n : Node) (l : list Node) : list Node :=
  match l with
  | [] => [n]
  | Header :: l' => Header :: n :: l'
  | m :: l' => m :: insert_after_header n l'
  end.

(** The mode check on an existing wrapper: when its content is not of
    the kind the mode asks for, the old element is removed and a new one
    is built, inserted after the header and cached. *)
Definition recreate (aiKey : string) (shown : Wrapper) (st : State)
    : list Node * State :=
  let sid := sessionKey st in
  let existingApiPanel := existing ApiPanel shown in
  let existingWebview := existing Webview shown in
  if bool_decide (mode st = Some "api")
     && bool_decide (existingApiPanel = None) then
    let detached := remove_first (is_content Webview) (children shown) in
    let hidden := show_container "none" detached in
    let '(apiPanel, st') := construct ApiPanel aiKey st in
    (insert_after_header (Content apiPanel) hidden, cache sid aiKey apiPanel st')
  else if bool_decide (mode st = Some "web")
          && bool_decide (existingWebview = None) then
    let detached := remove_first (is_content ApiPanel) (children shown) in
    let '(webview, st') := construct Webview aiKey st in
    (insert_after_header (Content webview) detached, cache sid aiKey webview st')
  else (children shown, st).

(** Visibility of the response textarea container by mode. *)
Definition responseContainer (m : option string) (kids : list Node) : list Node :=
  if bool_decide (m = Some "web") then
    match List.find is_container kids with
    | None => kids ++ [ResponseContainer ""]
    | Some _ => show_container "block" kids
    end
  else show_container "none" kids.

(** The loop body for one configured service at display position [index]. *)
Definition renderOne (aiKey : string) (index : nat) (st : State) : State :=
  let sid := sessionKey st in
  match querySelector sid aiKey (wrappers st) with
  | None =>
      (* new wrapper with its header *)
      let '(webview, st1) :=
        match cached st sid aiKey with
        | Some webview => (webview, st)
        | None =>
            let '(webview, st') :=
              if bool_decide (mode st = Some "api")
              then construct ApiPanel aiKey st
              else construct Webview aiKey st in
            (webview, cache sid aiKey webview st')
        end in
      let wrapper :=
        {| dataset_sessionId := sid; dataset_aiKey := aiKey; display := "";
           order := index;
           children :=
             [Header; Content webview]
             ++ (if bool_decide (mode st = Some "web")
                 then [ResponseContainer ""] else []) |} in
      set_wrappers (wrappers st1 ++ [wrapper]) st1
  | Some wrapper =>
      let shown := set_order index (set_display "flex" wrapper) in
      let '(kids, st1) := recreate aiKey shown st in
      let kids := responseContainer (mode st) kids in
      set_wrappers
        (update_selected sid aiKey (λ _, set_children kids shown) (wrappers st1)) st1
  end.

(** One iteration of the [for (const aiKey of selectedAIs)] loop; a
    service without a configuration is skipped and does not consume a
    display position. *)
Definition renderStep (acc : State * nat) (aiKey : string) : State * nat :=
  if bool_decide (aiKey ∈ aiConfigs acc.1)
  then (renderOne aiKey acc.2 acc.1, S acc.2)
  else acc.

Definition renderSelected (keys : list string) (st : State) : State * nat :=
  foldl renderStep (st, O) keys.

(** [renderWebviews()], run to completion. *)
Definition renderWebviews (st : State) : State :=
  match selectedAIs st with
  | [] => set_placeholder (Some "flex") (hideAll st)
  | _ :: _ =>
      let st1 :=
        match placeholder st with
        | Some _ => set_placeholder (Some "none") st
        | None => st
        end in
      let st2 := hideAll st1 in
      let st3 := getSessionWebviews (sessionKey st2) st2 in
      (renderSelected (selectedAIs st3) st3).1
  end.

(** *** The cache invariant

    The panel elements attached to a wrapper, and the relation between
    the wrapper of a (session, service) pair and the cache entry of the
    pair that [renderWebviews] maintains: no wrapper and no entry, or a
    wrapper holding exactly the cached element. *)
Definition content_of (n : Node) : option Instance :=
  match n with Content i => Some i | _ => None end.

Definition contents (l : list Node) : list Instance := omap content_of l.

Definition panelNodes (st : State) (sessionId aiKey : string) : option (list Node) :=
  children <$> querySelector sessionId aiKey (wrappers st).

Definition coherent (st : State) (sessionId aiKey : string) : Prop :=
  match panelNodes st sessionId aiKey with
  | None => cached st sessionId aiKey = None
  | Some nodes =>
      ∃ i, contents nodes = [i] ∧ cached st sessionId aiKey = Some i
           ∧ (serial i < constructed st)%nat
  end.

(** The pair has a wrapper that holds exactly the cached element [i]. *)
Definition holds (st : State) (sessionId aiKey : string) (i : Instance) : Prop :=
  ∃ nodes, panelNodes st sessionId aiKey = Some nodes
           ∧ contents nodes = [i]
           ∧ cached st sessionId aiKey = Some i
           ∧ (serial i < constructed st)%nat.

(** The kind of element the two mode tests of the loop ask for: an API
    panel for ['api'], a webview for ['web'], nothing in particular for
    any other value. *)
Definition wanted (m : option string) : option Kind :=
  if bool_decide (m = Some "api") then Some ApiPanel
  else if bool_decide (m = Some "web") then Some Webview
  else None.

(** The renderer at start-up: no wrapper, no cached element. *)
Definition initial (current : option string) (selected : list string)
    (configs : gset string) (m : option string) : State :=
  {| webviewInstances := ∅; wrappers := []; placeholder := None;
     constructed := 0; currentSessionId := current; selectedAIs := selected;
     aiConfigs := configs; mode := m |}.

End Panels.

(* ================================================================== *)
(** ** A concrete host for examples *)
(* ================================================================== *)

Module Demo.
Import Js Storage Sessions.

(** A quote-free rendering of the session list: ids, numbers and the
    chat histories. *)
Definition show_message (m : Message) : string :=
  role m +:+ ":" +:+ content m.

Definition show_history (kv : string * list Message) : string :=
  kv.1 +:+ "=[" +:+ String.concat "," (show_message <$> kv.2) +:+ "]".

Definition show_session (s : Session) : string :=
  "{id=" +:+ id s
  +:+ ";number=" +:+ from_option pretty "null" (sessionNumber s)
  +:+ ";services=" +:+ String.concat "," (selectedAIs s)
  +:+ ";mode=" +:+ String_of (mode s)
  +:+ ";history="
  +:+ String.concat ";" (show_history <$> map_to_list (default ∅ (apiChatHistory s)))
  +:+ "}".

Definition stringify (l : list Session) : string :=
  "[" +:+ String.concat "," (show_session <$> l) +:+ "]".

Definition digit (a : Ascii.ascii) : option Z :=
  let n := Z.of_nat (Ascii.nat_of_ascii a) in
  if bool_decide (48 ≤ n ≤ 57) then Some (n - 48) else None.

(** [parseInt] on an unsigned decimal literal. *)
Definition parse_decimal (s : string) : JsNumber :=
  match String.list_ascii_of_string s with
  | [] => JNaN
  | a :: l =>
      match foldl (λ acc c, n ← acc; d ← digit c; Some (10 * n + d)) (Some 0) (a :: l) with
      | Some n => JNum n
      | None => JNaN
      end
  end.

(** A host whose [JSON.parse] decodes the texts listed in [table] and
    rejects every other text. *)
Definition host (table : list (string * list Session)) : Builtins :=
  {| JSON_stringify := stringify;
     JSON_parse := λ text,
       match List.find (λ entry, String.eqb entry.1 text) table with
       | Some entry => SessionArray entry.2
       | None => SyntaxError {| err_name := "SyntaxError";
                                err_message := "Unexpected token" |}
       end;
     parseInt := parse_decimal |}.

Definition QuotaExceededError : JsError :=
  {| err_name := "QuotaExceededError"; err_message := "exceeded the quota" |}.

(** A store with room for everything, and one that is full. *)
Definition roomy (m : gmap string string) : LocalStorage :=
  {| items := m; refuses := λ _ _ _, None |}.

Definition full (m : gmap string string) : LocalStorage :=
  {| items := m; refuses := λ _ _ _, Some QuotaExceededError |}.

(** A store with a quota on the total length of its keys and values. *)
Definition limited (capacity : nat) (m : gmap string string) : LocalStorage :=
  {| items := m;
     refuses := λ held k v,
       let used :=
         map_fold (λ k v n, (String.length k + String.length v + n)%nat) O
           (<[k := v]> held) in
       if bool_decide (capacity < used)%nat then Some QuotaExceededError else None |}.

Definition message (r c : string) : Message := {| role := r; content := c |}.

(** Two visible panels side by side in the grid element with the given
    classes, and the size records found in localStorage. *)
Definition panels_in (classes : list string) (records : gmap string string)
    : Resizer.State :=
  let wrapper k x :=
    {| Resizer.aiKey := k; Resizer.display := "flex"; Resizer.order := 0;
       Resizer.flex := None; Resizer.minWidth := ""; Resizer.minHeight := "";
       Resizer.rect := {| Resizer.left := x; Resizer.top := 0;
                          Resizer.width := 500; Resizer.height := 600 |};
       Resizer.resizer := false |} in
  {| Resizer.webviewGrid :=
       Some {| Resizer.classList := classes;
               Resizer.gridTemplateColumns := "";
               Resizer.gridTemplateRows := "";
               Resizer.gridResizers := [] |};
     Resizer.wrappers := [wrapper "chatgpt" 0%Q; wrapper "claude" 500%Q];
     Resizer.flexDrag :=
       {| Resizer.isResizing := false; Resizer.currentWrapper := None;
          Resizer.nextWrapper := None; Resizer.startPos := (0%Q, 0%Q);
          Resizer.startSizes := (0%Q, 0%Q); Resizer.resizeDirection := None |};
     Resizer.gridResizeState :=
       {| Resizer.grid_isResizing := false; Resizer.grid_type := "";
          Resizer.grid_index := 0; Resizer.grid_startPos := 0%Q;
          Resizer.grid_startSizes := [] |};
     Resizer.gridResizeObserver := false;
     Resizer.localStorage := roomy records;
     Resizer.timers := [];
     Resizer.console := [] |}.

(** A size-record decoder that knows one grid record and one ratio
    record. *)
Definition formats : Resizer.Formats :=
  {| Resizer.JSON_parse_ratios := λ text,
       if String.eqb text "{chatgpt:2,claude:1}"
       then Some {[ "chatgpt" := 2%Q; "claude" := 1%Q ]} else None;
     Resizer.JSON_parse_grid := λ text,
       if String.eqb text "{columns:1.500fr 0.500fr,rows:1.000fr}"
       then Some (Some "1.500fr 0.500fr", Some "1.000fr") else None |}.

Definition fourteen : list string := pretty <$> seqZ 1 14.

Definition session (i : string) (n : Z) (services : list string) (m : option string)
    (h : gmap string (list Message)) : Session :=
  {| id := i; name := None; sessionNumber := Some n; selectedAIs := services;
     mode := m; chatUrls := Some ∅; apiChatHistory := Some h;
     promptDraft := ""; createdAt := 0 |}.

Definition state (l : list Session) (current : option string) (counter : Z)
    (ls : LocalStorage) : State :=
  {| sessions := l; currentSessionId := current; sessionCounter := JNum counter;
     onAfterSave := None; localStorage := ls; trace := [] |}.

End Demo.

(* ================================================================== *)
(** ** src/core/sessions.js: accessors of the current session *)
(* ================================================================== *)

Module SessionsApi.
Import Js Storage Sessions.

Definition set_chatUrls (u : option (gmap string string)) (s : Session) : Session :=
  {| id := id s; name := name s; sessionNumber := sessionNumber s;
     selectedAIs := selectedAIs s; mode := mode s; chatUrls := u;
     apiChatHistory := apiChatHistory s; promptDraft := promptDraft s;
     createdAt := createdAt s |}.

Definition set_mode (m : option string) (s : Session) : Session :=
  {| id := id s; name := name s; sessionNumber := sessionNumber s;
     selectedAIs := selectedAIs s; mode := m; chatUrls := chatUrls s;
     apiChatHistory := apiChatHistory s; promptDraft := promptDraft s;
     createdAt := createdAt s |}.

Definition set_selectedAIs (l : list string) (s : Session) : Session :=
  {| id := id s; name := name s; sessionNumber := sessionNumber s;
     selectedAIs := l; mode := mode s; chatUrls := chatUrls s;
     apiChatHistory := apiChatHistory s; promptDraft := promptDraft s;
     createdAt := createdAt s |}.

Definition setOnAfterSave (callback : option Hook) : M unit :=
  modify (λ st,
    {| sessions := sessions st; currentSessionId := currentSessionId st;
       sessionCounter := sessionCounter st; onAfterSave := callback;
       localStorage := localStorage st; trace := trace st |}).

(** [const session = getCurrentSession(); if (!session) return; ...]
    for a body that mutates the session object in place. *)
Definition with_current (f : Session → Session) : M unit :=
  modify (Tabs.update_current f).

Definition getApiChatHistory (aiKey : string) : M (list Message) :=
  session ← getCurrentSession;
  mret (default [] (s ← session; h ← apiChatHistory s; h !! aiKey)).

(** The body of [addApiChatMessage]: create the containers when missing,
    then [push]. *)
Definition add_message (aiKey role content : string) (s : Session) : Session :=
  let history := default ∅ (apiChatHistory s) in
  set_apiChatHistory
    (Some (<[aiKey := (default [] (history !! aiKey)
                       ++ [{| role := role; content := content |}])%list]> history)) s.

Definition addApiChatMessage (aiKey role content : string) : M unit :=
  with_current (add_message aiKey role content).

Definition clearApiChatHistory (aiKey : string) : M unit :=
  with_current (λ s, match apiChatHistory s with
                     | Some h => set_apiChatHistory (Some (<[aiKey := []]> h)) s
                     | None => s
                     end).

Definition clearAllApiChatHistory : M unit :=
  with_current (set_apiChatHistory (Some ∅)).

Definition updateSessionChatUrl (aiKey url : string) : M unit :=
  with_current (λ s, set_chatUrls (Some (<[aiKey := url]> (default ∅ (chatUrls s)))) s).

Definition getSessionChatUrl (aiKey : string) : M (option string) :=
  session ← getCurrentSession;
  mret (or_null (s ← session; u ← chatUrls s; u !! aiKey)).

Definition updatePromptDraft (draft : string) : M unit :=
  with_current (set_promptDraft draft).

Definition getPromptDraft : M string :=
  session ← getCurrentSession;
  mret (from_option promptDraft "" session).

Definition updateSessionMode (m : option string) : M unit :=
  with_current (set_mode m).

Definition getSessionMode : M (option string) :=
  session ← getCurrentSession;
  mret (or_null (session ≫= mode)).

Definition updateSelectedAIs (selectedAIs : list string) : M unit :=
  with_current (set_selectedAIs selectedAIs).

Definition getSelectedAIs : M (list string) :=
  session ← getCurrentSession;
  mret (from_option selectedAIs [] session).

End SessionsApi.

(* ================================================================== *)
(** ** src/core/tabs.js: the drop listener of a tab *)
(* ================================================================== *)

Module TabsEvents.
Import Js Storage Sessions Tabs.

(** [sessions.findIndex(s => s.id === i)]; [None] is [-1]. *)
Definition findIndex (i : string) (l : list Session) : option nat :=
  fst <$> list_find (λ s, id s = i) l.

(** [arr.splice(index, 0, x)]: [x] is put before position [index], at
    the end when [index] is not a position of the array. *)
Definition splice_insert {A} (index : nat) (x : A) (l : list A) : list A :=
  take index l ++ x :: drop index l.

Section WithBuiltins.
Context `{Builtins}.

(** The [drop] listener installed by [createTabElement(session)] on the
    tab of the session with id [target]; [draggedSessionId] is the
    payload of the drag.  The listener works on the array that
    [getSessions()] returned when the tab was built; tabs are rebuilt by
    [renderTabs] after every change of the list, so this is the array of
    the store. *)
Definition onDrop (target draggedSessionId : string) : M unit :=
  if bool_decide (draggedSessionId = target) then mret tt
  else
    sessions ← getSessions;
    match findIndex draggedSessionId sessions, findIndex target sessions with
    | Some draggedIndex, Some targetIndex =>
        match sessions !! draggedIndex with
        | Some draggedSession =>
            setSessions
              (splice_insert targetIndex draggedSession (delete draggedIndex sessions)) ;;
            saveSessionsToStorage None ;;
            callback "renderTabs" []
        | None => mret tt
        end
    | _, _ => mret tt
    end.

End WithBuiltins.

End TabsEvents.

(* ================================================================== *)
(** ** src/services/settings.js: createNewSession *)
(* ================================================================== *)

Module Settings.
Import Js Storage Sessions.

(** [new Set(sessions.map(s => s.sessionNumber).filter(n => typeof n === 'number'))] *)
Definition usedNumbers (l : list Session) : list Z := omap sessionNumber l.

(** [while (usedNumbers.has(nextNumber)) nextNumber++] run for at most
    [rounds] iterations from the candidate [nextNumber]; the result is
    the candidate reached. *)
Fixpoint gap_from (rounds : nat) (used : list Z) (nextNumber : Z) : Z :=
  match rounds with
  | O => nextNumber
  | S rounds =>
      if bool_decide (nextNumber ∈ used)
      then gap_from rounds used (nextNumber + 1)
      else nextNumber
  end.

(** The loop started at 1.  It leaves within [length used] increments,
    since each increment is paid for by a different member of [used]
    (theorem [gap_from_exits]). *)
Definition lowestFree (used : list Z) : Z := gap_from (length used) used 1.

(** The state module keeps its own [sessions] and [sessionCounter]; they
    are held in the same record as those of the session store. *)
Definition createNewSession (ticks : Z * Z) (name : option string)
    (selectedAIsSet : option (list string)) (mode : option string) : M Session :=
  modify (λ st, set_sessionCounter (incr (sessionCounter st)) st) ;;
  st ← get;
  defaultMode ← (if truthy mode then mret None
                 else localStorage_getItem STORAGE_KEYS_DEFAULT_MODE);
  mret {| id := "session-" +:+ pretty ticks.1 +:+ "-" +:+ toString (sessionCounter st);
          name := or_null name;
          sessionNumber := Some (lowestFree (usedNumbers (sessions st)));
          selectedAIs := default [] selectedAIsSet;
          mode := or_null (initialMode mode defaultMode);
          chatUrls := Some ∅;
          apiChatHistory := Some ∅;
          promptDraft := "";
          createdAt := ticks.2 |}.

End Settings.

(* ================================================================== *)
(** ** Resizer module: saving the sizes *)
(* ================================================================== *)

Module ResizerSave.
Import Js Storage Resizer.

Local Open Scope Q_scope.

(** [obj[k] = v] on an object kept as the list of its properties in
    insertion order: an existing property keeps its place. *)
Definition obj_set {V} (k : string) (v : V) (obj : list (string * V))
    : list (string * V) :=
  if bool_decide (k ∈ obj.*1)
  then (λ kv, if bool_decide (kv.1 = k) then (k, v) else kv) <$> obj
  else obj ++ [(k, v)].

(** [JSON.stringify] of the two records the resizer writes; a ratio that
    is not a finite number is written as [null]. *)
Class Writers := {
  JSON_stringify_ratios : list (string * num) → string;
  JSON_stringify_grid : string → string → string
}.

(** [layoutMode === 'vertical' ? rect.height : rect.width] *)
Definition extent (layoutMode : string) (w : Wrapper) : Q :=
  if bool_decide (layoutMode = "vertical") then height (rect w) else width (rect w).

(** [Math.min(x, ...xs)] *)
Definition Math_min (x : Q) (xs : list Q) : Q :=
  foldl (λ m y, if Qlt_le_dec y m then y else m) x xs.

Definition calculateCurrentRatios (st : State) : list (string * num) :=
  let layoutMode := getCurrentLayoutMode st in
  match snd <$> getVisibleWrappers st with
  | [] => []
  | first :: rest =>
      if bool_decide (layoutMode = "grid") then []
      else
        let minSize :=
          Math_min (extent layoutMode first) (extent layoutMode <$> rest) in
        foldl (λ ratios w,
                 obj_set (aiKey w) (js_div (extent layoutMode w) minSize) ratios)
          [] (first :: rest)
  end.

Definition set_flexDrag (d : FlexDrag) (st : State) : State :=
  {| webviewGrid := webviewGrid st; wrappers := wrappers st; flexDrag := d;
     gridResizeState := gridResizeState st;
     gridResizeObserver := gridResizeObserver st;
     localStorage := localStorage st; timers := timers st;
     console := console st |}.

Definition set_gridResizeState (g : GridDrag) (st : State) : State :=
  {| webviewGrid := webviewGrid st; wrappers := wrappers st;
     flexDrag := flexDrag st; gridResizeState := g;
     gridResizeObserver := gridResizeObserver st;
     localStorage := localStorage st; timers := timers st;
     console := console st |}.

Section WithWriters.
Context `{Writers}.

(** The functions below call [localStorage.setItem] outside any [try]:
    their result is the state they leave and the exception they throw,
    if any. *)

Definition saveGridSizes (st : State) : option JsError * State :=
  match webviewGrid st with
  | None => (None, st)
  | Some grid =>
      if truthy (Some (gridTemplateColumns grid))
         || truthy (Some (gridTemplateRows grid))
      then
        match setItem (getStorageKey st)
                (JSON_stringify_grid (gridTemplateColumns grid) (gridTemplateRows grid))
                (localStorage st) with
        | inl e => (Some e, st)
        | inr ls =>
            (None, logger_log "[Resizer] Grid sizes saved:" (set_localStorage ls st))
        end
      else (None, st)
  end.

Definition saveSizes (st : State) : option JsError * State :=
  if bool_decide (getCurrentLayoutMode st = "grid") then saveGridSizes st
  else
    let ratios := calculateCurrentRatios st in
    match ratios with
    | [] => (None, st)
    | _ :: _ =>
        match setItem (getStorageKey st) (JSON_stringify_ratios ratios)
                (localStorage st) with
        | inl e => (Some e, st)
        | inr ls =>
            (None, logger_log "[Resizer] Ratios saved:" (set_localStorage ls st))
        end
    end.

(** [stopResize()]: the overlay, the body classes and the listeners are
    DOM-only. *)
Definition stopResize (st : State) : option JsError * State :=
  let d := flexDrag st in
  if negb (isResizing d) then (None, st)
  else
    let st1 :=
      set_flexDrag
        {| isResizing := false; currentWrapper := currentWrapper d;
           nextWrapper := nextWrapper d; startPos := startPos d;
           startSizes := startSizes d; resizeDirection := resizeDirection d |} st in
    match saveSizes st1 with
    | (Some e, st2) => (Some e, st2)
    | (None, st2) =>
        let d2 := flexDrag st2 in
        (None,
         logger_log "[Resizer] Stopped resize"
           (set_flexDrag
              {| isResizing := isResizing d2; currentWrapper := None;
                 nextWrapper := None; startPos := startPos d2;
                 startSizes := startSizes d2; resizeDirection := None |} st2))
    end.

Definition stopGridResize (st : State) : option JsError * State :=
  let g := gridResizeState st in
  if negb (grid_isResizing g) then (None, st)
  else
    let st1 :=
      set_gridResizeState
        {| grid_isResizing := false; grid_type := grid_type g;
           grid_index := grid_index g; grid_startPos := grid_startPos g;
           grid_startSizes := grid_startSizes g |} st in
    match saveGridSizes st1 with
    | (Some e, st2) => (Some e, st2)
    | (None, st2) => (None, logger_log "[Resizer] Stopped grid resize" st2)
    end.

End WithWriters.

End ResizerSave.

(* ================================================================== *)
(** ** Layout module *)
(* ================================================================== *)

Module Layout.
Import Js Storage Resizer.

Definition LAYOUT_MODES : list string := ["horizontal"; "vertical"; "grid"].
Definition DEFAULT_LAYOUT_MODE : string := "horizontal".
Definition STORAGE_KEY : string := "oneprompt-layout-mode".

(** [localStorage.getItem(STORAGE_KEY) || DEFAULT_LAYOUT_MODE] *)
Definition getLayoutMode (st : State) : string :=
  let stored := getItem STORAGE_KEY (localStorage st) in
  if truthy stored then default DEFAULT_LAYOUT_MODE stored else DEFAULT_LAYOUT_MODE.

(** [classList.remove(...names)] and [classList.add(name)] *)
Definition classList_remove (names : list string) (cl : list string) : list string :=
  filter (λ c, c ∉ names) cl.

Definition classList_add (name : string) (cl : list string) : list string :=
  if bool_decide (name ∈ cl) then cl else cl ++ [name].

Definition set_classList (cl : list string) (g : Grid) : Grid :=
  {| classList := cl; gridTemplateColumns := gridTemplateColumns g;
     gridTemplateRows := gridTemplateRows g; gridResizers := gridResizers g |}.

Definition applyLayoutMode (mode : string) (st : State) : State :=
  set_webviewGrid
    ((λ webviewGrid,
        set_classList
          (classList_add ("layout-" +:+ mode)
             (classList_remove ["layout-horizontal"; "layout-vertical"; "layout-grid"]
                (classList webviewGrid)))
          webviewGrid) <$> webviewGrid st) st.

(** [setLayoutMode(mode)]; [resizer] tells whether
    [window.OnePromptUI.resizer] is there.  The result is the state left
    and the exception [localStorage.setItem] throws, if any. *)
Definition setLayoutMode (resizer : bool) (mode : string) (st : State)
    : option JsError * State :=
  let '(mode, st1) :=
    if bool_decide (mode ∈ LAYOUT_MODES) then (mode, st)
    else (DEFAULT_LAYOUT_MODE, logger_log "[Layout] Invalid mode, using default" st) in
  match setItem STORAGE_KEY mode (localStorage st1) with
  | inl e => (Some e, st1)
  | inr ls =>
      let st2 := applyLayoutMode mode (set_localStorage ls st1) in
      (None, if resizer then onLayoutModeChange st2 else st2)
  end.

(** [initLayoutMode()] up to the settings UI. *)
Definition initLayoutMode (st : State) : State :=
  applyLayoutMode (getLayoutMode st) st.

End Layout.

(* ================================================================== *)
(** ** A laid-out grid and a writer of size records *)
(* ================================================================== *)

Module DemoSizes.
Import Js Storage.

(** A quote-free rendering of a ratio: the reduced fraction. *)
Definition show_Q (q : Q) : string :=
  let r := Qred q in
  if Pos.eqb (Qden r) 1 then pretty (Qnum r)
  else pretty (Qnum r) +:+ "/" +:+ pretty (Zpos (Qden r)).

Definition show_ratio (kv : string * Resizer.num) : string :=
  kv.1 +:+ ":" +:+ from_option show_Q "null" kv.2.

Definition writers : ResizerSave.Writers :=
  {| ResizerSave.JSON_stringify_ratios := λ ratios,
       "{" +:+ String.concat "," (show_ratio <$> ratios) +:+ "}";
     ResizerSave.JSON_stringify_grid := λ columns rows,
       "{columns:" +:+ columns +:+ ",rows:" +:+ rows +:+ "}" |}.

(** Three panels in a horizontal layout: two visible ones, 1000 and 500
    pixels wide, and a hidden one between them. *)
Definition panel (k d : string) (o : Z) (x w : Q) : Resizer.Wrapper :=
  {| Resizer.aiKey := k; Resizer.display := d; Resizer.order := o;
     Resizer.flex := None; Resizer.minWidth := ""; Resizer.minHeight := "";
     Resizer.rect := {| Resizer.left := x; Resizer.top := 0;
                        Resizer.width := w; Resizer.height := 600 |};
     Resizer.resizer := false |}.

Definition laid_out : Resizer.State :=
  {| Resizer.webviewGrid :=
       Some {| Resizer.classList := ["layout-horizontal"];
               Resizer.gridTemplateColumns := "";
               Resizer.gridTemplateRows := "";
               Resizer.gridResizers := [] |};
     Resizer.wrappers :=
       [panel "chatgpt" "flex" 0 0 1000; panel "gemini" "none" 0 0 0;
        panel "claude" "flex" 1 1000 500];
     Resizer.flexDrag := Resizer.flexDrag (Demo.panels_in [] ∅);
     Resizer.gridResizeState := Resizer.gridResizeState (Demo.panels_in [] ∅);
     Resizer.gridResizeObserver := false;
     Resizer.localStorage := Demo.roomy ∅;
     Resizer.timers := [];
     Resizer.console := [] |}.

End DemoSizes.

(* ================================================================== *)
(** * Properties of the session store *)
(* ================================================================== *)

Import Js Storage Sessions Tabs ApiChat.

(** Unfolds the monadic plumbing. *)
Ltac step :=
  cbv beta iota zeta delta
    [mbind mret M_bind M_ret try_catch throw get modify
     logger_log logger_warn logger_error localStorage_getItem
     localStorage_setItem setSessions setCurrentSessionId addSession
     getSessions getCurrentSessionId callback alert_maxTabs dom] in *;
  cbn [fst snd] in *.

Section SessionsFacts.
Context `{Builtins}.

Lemma bind_normal {A B} (m : M A) (k : A → M B) st a st' :
  m st = (Normal a, st') → (m ≫= k) st = k a st'.
Proof. intros Hm. unfold mbind, M_bind. by rewrite Hm. Qed.

(** [createSession] always returns; its only effect on the state is the
    increment of [sessionCounter]. *)
Lemma createSession_run ticks name selectedAIsSet mode st :
  createSession ticks name selectedAIsSet mode st
  = (Normal
       {| id := "session-" +:+ pretty ticks.1 +:+ "-"
                +:+ toString (incr (sessionCounter st));
          name := or_null name;
          sessionNumber := Some (nextNumber (sessions st));
          selectedAIs := default [] selectedAIsSet;
          mode := or_null
                    (initialMode mode
                       (if truthy mode then None
                        else getItem STORAGE_KEYS_DEFAULT_MODE (localStorage st)));
          chatUrls := Some ∅;
          apiChatHistory := Some ∅;
          promptDraft := "";
          createdAt := ticks.2 |},
     set_sessionCounter (incr (sessionCounter st)) st).
Proof.
  unfold createSession. step.
  by destruct (truthy mode).
Qed.

Lemma save_result (st : State) :
  ∃ st', saveSessionsToStorage None st = (Normal tt, st')
    ∧ currentSessionId st' = currentSessionId st
    ∧ sessionCounter st' = sessionCounter st
    ∧ onAfterSave st' = onAfterSave st
    ∧ (sessions st' = sessions st
       ∨ sessions st' = map (trim_session DEFAULT_CONFIG_maxHistoryPerAI) (sessions st)).
Proof.
  unfold saveSessionsToStorage, save_attempt, save_recover, write_sessions,
    call_onAfterSave, trimAllApiHistory.
  step.
  repeat (case_match; simplify_eq/=; step); eauto 10.
Qed.

Lemma save_length (st : State) :
  length (sessions (saveSessionsToStorage None st).2) = length (sessions st).
Proof.
  destruct (save_result st) as (st' & -> & _ & _ & _ & [Hs | Hs]); cbn;
    rewrite Hs; by rewrite ?length_map.
Qed.

(** *** createSession: numbering and purity *)

(** C9 (amended): [createSession] returns a session and leaves the
    session list, the current-session pointer, the after-save hook and
    localStorage (hence the persisted copy of the counter) as they were;
    the one thing it changes is the store's in-memory session counter,
    which it increments. *)
Theorem createSession_only_increments_counter
    ticks name selectedAIsSet mode (st : State) :
  ∃ s st', createSession ticks name selectedAIsSet mode st = (Normal s, st')
    ∧ sessions st' = sessions st
    ∧ currentSessionId st' = currentSessionId st
    ∧ onAfterSave st' = onAfterSave st
    ∧ localStorage st' = localStorage st
    ∧ trace st' = trace st
    ∧ sessionCounter st' = incr (sessionCounter st).
Proof.
  rewrite createSession_run. by eexists _, _.
Qed.

(** *** createNewSessionAndSwitch: the 20-tab limit *)

Lemma createNewSessionAndSwitch_at_limit ticks (st : State) :
  (20 ≤ length (sessions st))%nat →
  createNewSessionAndSwitch ticks st
  = (Normal tt, emit (Call "alert" ["error.maxTabs"]) st).
Proof.
  intros Hlen. unfold createNewSessionAndSwitch.
  rewrite (bind_normal _ _ st (sessions st) st) by done.
  by rewrite bool_decide_eq_true_2.
Qed.

Lemma createNewSessionAndSwitch_below_limit ticks (st : State) :
  (length (sessions st) < 20)%nat →
  length (sessions (createNewSessionAndSwitch ticks st).2)
  = S (length (sessions st)).
Proof.
  intros Hlen. unfold createNewSessionAndSwitch.
  rewrite (bind_normal _ _ st (sessions st) st) by done.
  rewrite bool_decide_eq_false_2 by lia.
  destruct (save_result st) as (st1 & Hsave1 & _ & _ & _ & Hs1).
  rewrite (bind_normal _ _ _ _ _ Hsave1).
  rewrite (bind_normal _ _ _ _ _ (createSession_run _ _ _ _ st1)).
  set (st2 := set_sessionCounter _ st1).
  step.
  set (st3 := emit _ _).
  pose proof (save_length st3) as Hlen3.
  destruct (save_result st3) as (st4 & Hsave4 & _).
  rewrite Hsave4 in Hlen3 |- *. cbn in *.
  rewrite Hlen3. subst st3 st2. cbn. rewrite length_app. cbn.
  destruct Hs1 as [-> | ->]; rewrite ?length_map; lia.
Qed.

(** C10: with 20 or more sessions the new-tab action changes neither the
    session list, nor the current-session pointer, nor the counter, nor
    localStorage; hence from a list of at most 20 sessions no sequence of
    new-tab actions reaches a list of more than 20. *)
Theorem createNewSessionAndSwitch_bounded (st : State) :
  (∀ ticks, (20 ≤ length (sessions st))%nat →
     let st' := (createNewSessionAndSwitch ticks st).2 in
     sessions st' = sessions st
     ∧ currentSessionId st' = currentSessionId st
     ∧ sessionCounter st' = sessionCounter st
     ∧ localStorage st' = localStorage st)
  ∧ ((length (sessions st) ≤ 20)%nat →
     ∀ presses : list (Z * Z),
       (length (sessions
                  (foldl (λ acc ticks, (createNewSessionAndSwitch ticks acc).2)
                     st presses)) ≤ 20)%nat).
Proof.
  split.
  - intros ticks Hlen. by rewrite createNewSessionAndSwitch_at_limit.
  - intros Hlen presses. revert st Hlen.
    induction presses as [|ticks presses IH]; intros st Hlen; [done|].
    cbn [foldl]. apply IH.
    destruct (decide (length (sessions st) < 20)%nat) as [Hlt | Hge].
    + rewrite createNewSessionAndSwitch_below_limit by done. lia.
    + rewrite createNewSessionAndSwitch_at_limit by lia. cbn. lia.
Qed.


(** *** loadSessionsFromStorage: self-healing *)

Lemma read_stored_returns (st : State) :
  ∃ st1, read_stored st = (Normal tt, st1).
Proof.
  unfold read_stored. step.
  repeat (case_match; simplify_eq/=; step); eauto.
Qed.

Lemma number_missing_numbered (l : list Session) (s : Session) :
  s ∈ number_missing l → lacks_number s = false.
Proof.
  unfold number_missing. intros (i & x & -> & _)%elem_of_lookup_imap.
  destruct (lacks_number x) eqn:Hx; [|done].
  unfold lacks_number; cbn. apply bool_decide_eq_false_2. lia.
Qed.

Lemma number_missing_ids (l : list Session) :
  id <$> number_missing l = id <$> l.
Proof.
  unfold number_missing.
  assert (Hgen : ∀ f : nat → Session → Session,
             (∀ i s, id (f i s) = id s) → id <$> imap f l = id <$> l).
  { induction l as [|s l IH]; intros f Hf; [done|].
    cbn. f_equal; [apply Hf|]. apply IH. intros i s'. apply Hf. }
  apply Hgen. intros i s. by destruct (lacks_number s).
Qed.

Lemma number_missing_fixed (l : list Session) :
  (∀ s, s ∈ l → lacks_number s = false) → number_missing l = l.
Proof.
  unfold number_missing. intros Hl.
  assert (Hgen : ∀ f : nat → Session → Session,
             (∀ i s, s ∈ l → f i s = s) → imap f l = l).
  { clear Hl. induction l as [|s l IH]; intros f Hf; [done|].
    cbn. f_equal; [apply Hf; left|]. apply IH.
    intros i s' Hs'. apply Hf. by right. }
  apply Hgen. intros i s Hs. by rewrite (Hl s Hs).
Qed.

Lemma find_by_id_Some (c : option string) (l : list Session) (s : Session) :
  find_by_id c l = Some s → s ∈ l ∧ c = Some (id s).
Proof.
  destruct c as [i|]; [|done]. cbn. intros Hfind.
  apply find_some in Hfind as [Hin Hid].
  apply bool_decide_eq_true in Hid. subst i.
  split; [by apply list_elem_of_In|done].
Qed.

Lemma truthy_options_defaultMode options :
  truthy (Some (options_defaultMode options)) = true.
Proof.
  unfold options_defaultMode.
  destruct (defaultMode options) as [m|]; cbn; [|done].
  destruct (String.eqb m "") eqn:Hm; cbn; [done|]. by rewrite Hm.
Qed.


(** *** saveSessionsToStorage: quota recovery *)

Lemma trim_history_short n (h : list Message) :
  (length h ≤ n)%nat → trim_history n h = h.
Proof.
  intros Hlen. unfold trim_history. rewrite bool_decide_eq_false_2; [done|lia].
Qed.

Lemma trim_history_long n (h : list Message) :
  (0 < n < length h)%nat → trim_history n h = drop (length h - n) h.
Proof.
  intros Hlen. unfold trim_history. rewrite bool_decide_eq_true_2 by lia.
  unfold slice_last. destruct n; [lia|done].
Qed.

Lemma trim_session_id n s : id (trim_session n s) = id s.
Proof. unfold trim_session. by destruct (apiChatHistory s). Qed.

Lemma trim_session_history n s k :
  history (trim_session n s) k = trim_history n <$> history s k.
Proof.
  unfold history, trim_session.
  destruct (apiChatHistory s) as [m|] eqn:Hm; cbn; [|by rewrite Hm].
  by rewrite lookup_fmap.
Qed.

Lemma session_frees_spec n s :
  session_frees n s = true ↔ ∃ k h, history s k = Some h ∧ (n < length h)%nat.
Proof.
  unfold session_frees, history.
  destruct (apiChatHistory s) as [m|]; cbn.
  - rewrite existsb_exists. split.
    + intros ([k h] & Hin & Hlong). exists k, h.
      apply list_elem_of_In, elem_of_map_to_list in Hin.
      by apply bool_decide_eq_true in Hlong.
    + intros (k & h & Hk & Hlong). exists (k, h). split.
      * by apply list_elem_of_In, elem_of_map_to_list.
      * by apply bool_decide_eq_true.
  - split; [done|]. by intros (? & ? & ? & _).
Qed.

(** The [catch] block on a quota error, run to completion. *)
Lemma save_recover_quota (e : JsError) (st1 : State) :
  is_quota_error e = true →
  save_recover e st1 =
    let limit := DEFAULT_CONFIG_maxHistoryPerAI in
    let trimmed := map (trim_session limit) (sessions st1) in
    let text := JSON_stringify trimmed in
    let st2 :=
      set_sessions trimmed
        (emit (LoggerWarn "Storage quota exceeded. Attempting to trim history...")
           (emit (LoggerError "Failed to save sessions to storage:" e) st1)) in
    (Normal tt,
     if existsb (session_frees limit) (sessions st1) then
       match setItem STORAGE_KEYS_SESSIONS text (localStorage st1) with
       | inl retryError =>
           emit (LoggerError "Still failed after trimming:" retryError)
             (emit (SetItem STORAGE_KEYS_SESSIONS text (Some retryError)) st2)
       | inr ls =>
           emit (LoggerLog "Sessions saved after trimming.")
             (emit (SetItem STORAGE_KEYS_SESSIONS text None)
                (set_localStorage ls st2))
       end
     else st2).
Proof.
  intros Hquota. unfold save_recover, trimAllApiHistory, write_sessions.
  step. rewrite Hquota. step. cbn [sessions emit set_sessions localStorage].
  destruct (existsb _ _); [|done].
  by destruct (setItem _ _ _).
Qed.

(** C5 (amended): when the write attempt of [saveSessionsToStorage]
    throws a quota error, the store logs it and replaces every session's
    histories by their trimmed versions: a history longer than 6 entries
    becomes its most recent 6, a history of at most 6 entries is left as
    it is.  The write of the session list is retried, once, exactly when
    some history was longer than 6; when nothing could be trimmed there
    is no retry.  A failure of the retry is logged and not thrown: the
    call returns normally in every case. *)
Theorem saveSessionsToStorage_quota_recovery
    (captureUrlsFn : option (M unit)) (st st1 : State) (e : JsError) :
  save_attempt captureUrlsFn st = (Throw e, st1) →
  is_quota_error e = true →
  let limit := DEFAULT_CONFIG_maxHistoryPerAI in
  let trimmed := map (trim_session limit) (sessions st1) in
  let text := JSON_stringify trimmed in
  let logged :=
    trace st1
    ++ [LoggerError "Failed to save sessions to storage:" e;
        LoggerWarn "Storage quota exceeded. Attempting to trim history..."] in
  ∃ st',
    saveSessionsToStorage captureUrlsFn st = (Normal tt, st')
    ∧ sessions st' = trimmed
    ∧ (∀ i s, sessions st1 !! i = Some s →
         ∃ s', sessions st' !! i = Some s' ∧ id s' = id s
           ∧ ∀ k h, history s k = Some h →
               history s' k
               = Some (if bool_decide (length h ≤ 6)%nat then h
                       else drop (length h - 6) h))
    ∧ currentSessionId st' = currentSessionId st1
    ∧ sessionCounter st' = sessionCounter st1
    ∧ ((∃ s k h, s ∈ sessions st1 ∧ history s k = Some h ∧ (6 < length h)%nat) →
        match setItem STORAGE_KEYS_SESSIONS text (localStorage st1) with
        | inr ls =>
            localStorage st' = ls
            ∧ trace st' = logged
                ++ [SetItem STORAGE_KEYS_SESSIONS text None;
                    LoggerLog "Sessions saved after trimming."]
        | inl retryError =>
            localStorage st' = localStorage st1
            ∧ trace st' = logged
                ++ [SetItem STORAGE_KEYS_SESSIONS text (Some retryError);
                    LoggerError "Still failed after trimming:" retryError]
        end)
    ∧ ((∀ s k h, s ∈ sessions st1 → history s k = Some h → (length h ≤ 6)%nat) →
        localStorage st' = localStorage st1 ∧ trace st' = logged).
Proof.
  intros Hattempt Hquota. cbv zeta.
  assert (Hpoint : ∀ i s, sessions st1 !! i = Some s →
            ∃ s', map (trim_session DEFAULT_CONFIG_maxHistoryPerAI) (sessions st1) !! i
                  = Some s' ∧ id s' = id s
              ∧ ∀ k h, history s k = Some h →
                  history s' k
                  = Some (if bool_decide (length h ≤ 6)%nat then h
                          else drop (length h - 6) h)).
  { intros i s Hi. exists (trim_session DEFAULT_CONFIG_maxHistoryPerAI s). split_and!.
    - by rewrite list_lookup_fmap, Hi.
    - apply trim_session_id.
    - intros k h Hk. rewrite trim_session_history, Hk. cbn. f_equal.
      case_bool_decide.
      + by apply trim_history_short.
      + apply trim_history_long. unfold DEFAULT_CONFIG_maxHistoryPerAI. lia. }
  assert (Hfreed : existsb (session_frees DEFAULT_CONFIG_maxHistoryPerAI) (sessions st1)
                   = true
                   ↔ ∃ s k h, s ∈ sessions st1 ∧ history s k = Some h
                              ∧ (6 < length h)%nat).
  { rewrite existsb_exists. split.
    - intros (s & Hin & (k & h & Hk & Hlong)%session_frees_spec).
      exists s, k, h. by rewrite list_elem_of_In.
    - intros (s & k & h & Hin & Hk & Hlong). exists s.
      rewrite <- list_elem_of_In. split; [done|].
      apply session_frees_spec. by exists k, h. }
  unfold saveSessionsToStorage, try_catch. rewrite Hattempt.
  rewrite (save_recover_quota e st1 Hquota). cbv zeta.
  destruct (existsb _ (sessions st1)) eqn:Hex.
  - destruct (setItem _ _ (localStorage st1)) as [e'|ls] eqn:Hset;
      eexists; (split; [reflexivity|]); cbn;
      rewrite <- ?(assoc_L (++)); split_and!; try done.
    + intros Hshort. apply proj1 in Hfreed.
      destruct (Hfreed eq_refl) as (s & k & h & Hin & Hk & Hlong).
      specialize (Hshort s k h Hin Hk). lia.
    + intros Hshort. apply proj1 in Hfreed.
      destruct (Hfreed eq_refl) as (s & k & h & Hin & Hk & Hlong).
      specialize (Hshort s k h Hin Hk). lia.
  - eexists. split; [reflexivity|]. cbn. split_and!; try done.
    + intros Hlong. apply Hfreed in Hlong. congruence.
    + intros _. by rewrite <- (assoc_L (++)).
Qed.

End SessionsFacts.

Section SessionsExamples.

(** C1: three tabs numbered 1, 2, 3; tab 1 is closed and a tab is
    created.  [createSession] numbers the new session 4, although 1 is
    the smallest positive integer no live session uses. *)
Lemma createSession_skips_freed_number :
  let st := Demo.state [Demo.session "a" 1 [] None ∅;
                        Demo.session "b" 2 [] None ∅;
                        Demo.session "c" 3 [] None ∅]
              (Some "a") 3 (Demo.roomy ∅) in
  let closed := (closeSession (H := Demo.host []) (5, 5) "a" st).2 in
  let created := (createSession (6, 6) None (Some []) None closed).1 in
  (sessionNumber <$> sessions closed) = [Some 2; Some 3]
  ∧ created = Normal
      {| id := "session-6-4"; name := None; sessionNumber := Some 4;
         selectedAIs := []; mode := None; chatUrls := Some ∅;
         apiChatHistory := Some ∅; promptDraft := ""; createdAt := 6 |}.
Proof. vm_compute. done. Qed.

(** C9, as stated, fails: the session counter of the store differs
    after the call. *)
Lemma createSession_changes_counter :
  let st := Demo.state [] None 0 (Demo.roomy ∅) in
  let st' := (createSession (1, 1) None None None st).2 in
  ¬ (sessions st' = sessions st
     ∧ currentSessionId st' = currentSessionId st
     ∧ sessionCounter st' = sessionCounter st).
Proof. cbn. intros (_ & _ & [=]). Qed.

Lemma createNewSessionAndSwitch_bounded_witness :
  let st := Demo.state (replicate 20 (Demo.session "s" 1 [] None ∅))
              (Some "s") 20 (Demo.roomy ∅) in
  (20 ≤ length (sessions st))%nat
  ∧ (length (sessions st) ≤ 20)%nat
  ∧ sessions (createNewSessionAndSwitch (H := Demo.host []) (7, 7) st).2
    = sessions st
  ∧ (length (sessions
               (foldl (λ acc ticks,
                         (createNewSessionAndSwitch (H := Demo.host []) ticks acc).2)
                  st [(8, 8)%Z; (9, 9)%Z])) ≤ 20)%nat.
Proof.
  intros st.
  pose proof (createNewSessionAndSwitch_bounded (H := Demo.host []) st) as [Hfix Hreach].
  assert (Hge : (20 ≤ length (sessions st))%nat) by (vm_compute; lia).
  assert (Hle : (length (sessions st) ≤ 20)%nat) by (vm_compute; lia).
  split; [exact Hge|]. split; [exact Hle|]. split.
  - exact (proj1 (Hfix (7, 7) Hge)).
  - exact (Hreach Hle [(8, 8); (9, 9)]%Z).
Defined.

(** C5, as stated, fails: the store is full, no history is longer than
    6 messages, and the failed write is not retried: the only [setItem]
    call of the whole save is the one that threw. *)
Lemma saveSessionsToStorage_no_retry_without_trimming :
  let h := {[ "x" := [Demo.message "user" "hi"; Demo.message "assistant" "hello"] ]} in
  let st := Demo.state [Demo.session "a" 1 ["x"] (Some "api") h]
              (Some "a") 1 (Demo.full ∅) in
  let st' := (saveSessionsToStorage (H := Demo.host []) None st).2 in
  (save_attempt (H := Demo.host []) None st).1 = Throw Demo.QuotaExceededError
  ∧ ∃ text,
      trace st' =
        [SetItem STORAGE_KEYS_SESSIONS text (Some Demo.QuotaExceededError);
         LoggerError "Failed to save sessions to storage:" Demo.QuotaExceededError;
         LoggerWarn "Storage quota exceeded. Attempting to trim history..."].
Proof. split; [reflexivity|]. eexists. vm_compute. reflexivity. Qed.

Lemma saveSessionsToStorage_quota_recovery_witness :
  let h := {[ "x" := (λ n, Demo.message "user" (pretty n)) <$> seq 1 8 ]} in
  let st := Demo.state [Demo.session "a" 1 ["x"] (Some "api") h]
              (Some "a") 1 (Demo.full ∅) in
  let st1 := (save_attempt (H := Demo.host []) None st).2 in
  save_attempt (H := Demo.host []) None st = (Throw Demo.QuotaExceededError, st1)
  ∧ is_quota_error Demo.QuotaExceededError = true
  ∧ ∃ st', saveSessionsToStorage (H := Demo.host []) None st = (Normal tt, st')
      ∧ sessions st' = map (trim_session DEFAULT_CONFIG_maxHistoryPerAI) (sessions st1).
Proof.
  intros h st st1.
  assert (Hattempt : save_attempt (H := Demo.host []) None st
                     = (Throw Demo.QuotaExceededError, st1)) by reflexivity.
  assert (Hquota : is_quota_error Demo.QuotaExceededError = true) by reflexivity.
  split; [exact Hattempt|]. split; [exact Hquota|].
  destruct (saveSessionsToStorage_quota_recovery (H := Demo.host []) None st st1
              Demo.QuotaExceededError Hattempt Hquota) as (st' & Hrun & Hs & _).
  exists st'. split; [exact Hrun|exact Hs].
Defined.

End SessionsExamples.

(* ================================================================== *)
(** * Properties of the chat history *)
(* ================================================================== *)

Section ApiChatFacts.
Context `{Builtins}.

(** The sliding window enforced by [saveApiHistory]. *)
Lemma push_message_id aiKey role content s :
  id (push_message aiKey role content s) = id s.
Proof. done. Qed.

Lemma push_message_history aiKey role content s :
  history (push_message aiKey role content s) aiKey
  = Some (let pushed := default [] (history s aiKey)
                        ++ [{| role := role; content := content |}] in
          if bool_decide (length pushed ≤ 12)%nat then pushed
          else drop (length pushed - 12) pushed).
Proof.
  unfold history, push_message. cbn. rewrite lookup_insert_eq. f_equal.
  assert (Hsame : default [] (default ∅ (apiChatHistory s) !! aiKey)
                  = default [] (apiChatHistory s ≫= λ h, h !! aiKey)).
  { by destruct (apiChatHistory s). }
  rewrite Hsame. unfold API_HISTORY_LIMIT.
  repeat case_bool_decide; try lia; done.
Qed.

Lemma push_message_history_ne aiKey role content s k :
  k ≠ aiKey → history (push_message aiKey role content s) k = history s k.
Proof.
  intros Hne. unfold history, push_message. cbn.
  rewrite lookup_insert_ne by done. by destruct (apiChatHistory s).
Qed.

Lemma find_by_id_update_found i f (l : list Session) s :
  (∀ s, id (f s) = id s) →
  find_by_id (Some i) l = Some s →
  find_by_id (Some i) (update_found i f l) = Some (f s).
Proof.
  intros Hf. cbn. induction l as [|x l IH]; [done|]. cbn.
  case_bool_decide as Hx; cbn.
  - intros [= ->]. by rewrite Hf, bool_decide_eq_true_2.
  - intros Hfind. rewrite bool_decide_eq_false_2 by done. by apply IH.
Qed.

Lemma update_found_lookup_ne i f (l : list Session) j s :
  l !! j = Some s → id s ≠ i → update_found i f l !! j = Some s.
Proof.
  revert j. induction l as [|x l IH]; intros j; [done|]. cbn.
  case_bool_decide as Hx.
  - destruct j; cbn; [|done]. intros [= ->]. done.
  - destruct j; cbn; [done|]. apply IH.
Qed.

Lemma find_by_id_map c g (l : list Session) :
  (∀ s, id (g s) = id s) →
  find_by_id c (map g l) = g <$> find_by_id c l.
Proof.
  intros Hg. destruct c as [i|]; [|done]. cbn.
  induction l as [|x l IH]; [done|]. cbn. rewrite Hg.
  by case_bool_decide.
Qed.

Lemma find_by_id_id c (l : list Session) s :
  find_by_id c l = Some s → c = Some (id s).
Proof. intros Hfind. by apply find_by_id_Some in Hfind as [_ ->]. Qed.

(** The write attempt leaves the in-memory store as it found it. *)
Lemma save_attempt_store (st : State) :
  let st1 := (save_attempt None st).2 in
  sessions st1 = sessions st ∧ currentSessionId st1 = currentSessionId st.
Proof.
  unfold save_attempt, write_sessions, call_onAfterSave. step.
  repeat (case_match; simplify_eq/=; step); done.
Qed.

(** What [saveSessionsToStorage()] does to the session list, by the
    outcome of its write attempt. *)
Lemma save_sessions_cases (st : State) :
  ∃ st', saveSessionsToStorage None st = (Normal tt, st')
    ∧ currentSessionId st' = currentSessionId st
    ∧ sessions st' =
        match (save_attempt None st).1 with
        | Throw e =>
            if is_quota_error e
            then map (trim_session DEFAULT_CONFIG_maxHistoryPerAI) (sessions st)
            else sessions st
        | Normal _ => sessions st
        end.
Proof.
  pose proof (save_attempt_store st) as [Hs Hc]. cbv zeta in *.
  unfold saveSessionsToStorage, try_catch.
  destruct (save_attempt None st) as [[[]|e] st1] eqn:Hattempt; cbn in *.
  - eauto.
  - destruct (is_quota_error e) eqn:Hq.
    + rewrite (save_recover_quota e st1 Hq). cbv zeta. eexists. split; [done|].
      rewrite <- Hs, <- Hc.
      destruct (existsb _ _); [destruct (setItem _ _ _)|]; done.
    + unfold save_recover. step. rewrite Hq. eexists. split; [done|].
      by rewrite <- Hs, <- Hc.
Qed.

Lemma saveApiHistory_found aiKey role content sessionId (st : State) s :
  find_by_id (or_else sessionId (currentSessionId st)) (sessions st) = Some s →
  saveApiHistory aiKey role content sessionId st
  = saveSessionsToStorage None
      (set_sessions
         (update_found (id s) (push_message aiKey role content) (sessions st)) st).
Proof. intros Hfind. unfold saveApiHistory. step. by rewrite Hfind. Qed.

Lemma last_drop_nonempty {A} (l : list A) n :
  (n < length l)%nat → last (drop n l) = last l.
Proof.
  intros Hlen. rewrite <- (take_drop n l) at 2.
  rewrite last_app. destruct (last (drop n l)) eqn:Hlast; [done|].
  apply last_None in Hlast. apply (f_equal length) in Hlast.
  rewrite length_drop in Hlast. cbn in Hlast. lia.
Qed.

(** C3 (amended): an append to the history of a (session, service) pair
    pushes the message and keeps the most recent 12 entries, in order;
    the list then goes through the write-through save.  Unless that save
    runs quota recovery the stored list is exactly this window; when the
    write is refused for quota, recovery shortens the window further to
    its most recent 6 entries.  In every case the stored list has at most
    12 entries and ends with the appended message. *)
Theorem saveApiHistory_sliding_window
    aiKey role content sessionId (st : State) (s : Session) :
  find_by_id (or_else sessionId (currentSessionId st)) (sessions st) = Some s →
  let message := {| role := role; content := content |} in
  let pushed := default [] (history s aiKey) ++ [message] in
  let windowed :=
    if bool_decide (length pushed ≤ 12)%nat then pushed
    else drop (length pushed - 12) pushed in
  let written :=
    set_sessions
      (update_found (id s) (push_message aiKey role content) (sessions st)) st in
  ∃ st' s' stored,
    saveApiHistory aiKey role content sessionId st = (Normal tt, st')
    ∧ find_by_id (or_else sessionId (currentSessionId st)) (sessions st') = Some s'
    ∧ id s' = id s
    ∧ history s' aiKey = Some stored
    ∧ (length stored ≤ 12)%nat
    ∧ last stored = Some message
    ∧ stored =
        match (save_attempt None written).1 with
        | Throw e =>
            if is_quota_error e
            then (if bool_decide (length windowed ≤ 6)%nat then windowed
                  else drop (length windowed - 6) windowed)
            else windowed
        | Normal _ => windowed
        end.
Proof.
  intros Hfind message pushed windowed written.
  assert (Hlen : (0 < length windowed ≤ 12)%nat).
  { subst windowed. assert (0 < length pushed)%nat.
    { subst pushed. rewrite length_app. cbn. lia. }
    case_bool_decide; [lia|]. rewrite length_drop. lia. }
  assert (Hlast : last windowed = Some message).
  { subst windowed. assert (last pushed = Some message).
    { subst pushed. by rewrite last_snoc. }
    case_bool_decide; [done|]. rewrite last_drop_nonempty; [done|lia]. }
  pose proof (find_by_id_id _ _ _ Hfind) as Htarget.
  rewrite (saveApiHistory_found _ _ _ _ _ _ Hfind). fold written.
  destruct (save_sessions_cases written) as (st' & Hrun & _ & Hs).
  assert (Hpushed : find_by_id (Some (id s)) (sessions written)
                    = Some (push_message aiKey role content s)).
  { apply find_by_id_update_found; [done|]. by rewrite <- Htarget. }
  rewrite Htarget.
  destruct (save_attempt None written).1 as [[]|e].
  - exists st', (push_message aiKey role content s), windowed.
    rewrite Hs. split_and!; try done; try lia.
    apply push_message_history.
  - destruct (is_quota_error e).
    + exists st', (trim_session DEFAULT_CONFIG_maxHistoryPerAI
                    (push_message aiKey role content s)),
        (trim_history DEFAULT_CONFIG_maxHistoryPerAI windowed).
      rewrite Hs.
      assert (Htrim : trim_history DEFAULT_CONFIG_maxHistoryPerAI windowed
                      = if bool_decide (length windowed ≤ 6)%nat then windowed
                        else drop (length windowed - 6) windowed).
      { case_bool_decide.
        - by apply trim_history_short.
        - apply trim_history_long. unfold DEFAULT_CONFIG_maxHistoryPerAI. lia. }
      split_and!; try done.
      * rewrite find_by_id_map by apply trim_session_id. by rewrite Hpushed.
      * rewrite trim_session_history, push_message_history. done.
      * rewrite Htrim. case_bool_decide; [lia|]. rewrite length_drop. lia.
      * rewrite Htrim. case_bool_decide; [done|].
        rewrite last_drop_nonempty; [done|lia].
    + exists st', (push_message aiKey role content s), windowed.
      rewrite Hs. split_and!; try done; try lia.
      apply push_message_history.
Qed.

(** *** Requests keep the session id captured at dispatch *)

Lemma or_else_truthy i b : i ≠ "" → or_else (Some i) b = Some i.
Proof.
  intros Hi. unfold or_else, truthy.
  by rewrite (proj2 (String.eqb_neq i "") Hi).
Qed.

Lemma trim_history_idem n h : trim_history n (trim_history n h) = trim_history n h.
Proof.
  destruct n as [|n].
  - unfold trim_history, slice_last. by repeat case_bool_decide.
  - destruct (decide (S n < length h)%nat) as [Hlong | Hshort].
    + rewrite (trim_history_long (S n) h) by lia.
      apply trim_history_short. rewrite length_drop. lia.
    + rewrite (trim_history_short (S n) h) by lia.
      apply trim_history_short. lia.
Qed.

Lemma trim_session_idem n s :
  trim_session n (trim_session n s) = trim_session n s.
Proof.
  unfold trim_session. destruct (apiChatHistory s) as [m|] eqn:Hm; cbn.
  - unfold set_apiChatHistory. cbn. do 2 f_equal.
    rewrite <- map_fmap_compose. apply map_fmap_ext.
    intros k h _. apply trim_history_idem.
  - by rewrite Hm.
Qed.

Lemma trim_history_last n h : (0 < n)%nat → last (trim_history n h) = last h.
Proof.
  intros Hn. unfold trim_history. case_bool_decide as Hlen; [|done].
  unfold slice_last. destruct n; [lia|]. apply last_drop_nonempty. lia.
Qed.

Lemma emit_sessions ev (st : State) : sessions (emit ev st) = sessions st.
Proof. done. Qed.

(** A store that accepts every write: the save changes no session. *)
Lemma save_accepting (st : State) :
  (∀ m k v, refuses (localStorage st) m k v = None) →
  ∃ st', saveSessionsToStorage None st = (Normal tt, st')
    ∧ sessions st' = sessions st
    ∧ (∀ m k v, refuses (localStorage st') m k v = None).
Proof.
  intros Hacc.
  unfold saveSessionsToStorage, save_attempt, save_recover, write_sessions,
    call_onAfterSave, trimAllApiHistory.
  step. unfold setItem.
  repeat (rewrite Hacc; cbn [localStorage set_localStorage emit refuses items]).
  repeat (case_match; simplify_eq/=; step); eauto.
Qed.

Lemma saveApiHistory_effect aiKey role content i (st : State) s :
  i ≠ "" → find_by_id (Some i) (sessions st) = Some s →
  let pushed := update_found i (push_message aiKey role content) (sessions st) in
  ∃ st', saveApiHistory aiKey role content (Some i) st = (Normal tt, st')
    ∧ currentSessionId st' = currentSessionId st
    ∧ (sessions st' = pushed
       ∨ sessions st' = map (trim_session DEFAULT_CONFIG_maxHistoryPerAI) pushed)
    ∧ ((∀ m k v, refuses (localStorage st) m k v = None) →
       sessions st' = pushed
       ∧ ∀ m k v, refuses (localStorage st') m k v = None).
Proof.
  intros Hi Hfind pushed.
  assert (Hfind' : find_by_id (or_else (Some i) (currentSessionId st)) (sessions st)
                   = Some s) by (by rewrite or_else_truthy).
  rewrite (saveApiHistory_found _ _ _ _ _ _ Hfind').
  assert (Hid : id s = i).
  { apply find_by_id_id in Hfind. by injection Hfind. }
  rewrite Hid. fold pushed.
  destruct (save_result (set_sessions pushed st)) as (st' & Hrun & Hc & _ & _ & Hs).
  exists st'. split_and!; try done.
  intros Hacc.
  destruct (save_accepting (set_sessions pushed st) Hacc) as (st'' & Hrun' & Hs' & Hacc').
  rewrite Hrun in Hrun'. by simplify_eq.
Qed.

Lemma twice_kept_or_trimmed n (l l1 l2 : list Session) :
  l1 = l ∨ l1 = map (trim_session n) l →
  l2 = l1 ∨ l2 = map (trim_session n) l1 →
  l2 = l ∨ l2 = map (trim_session n) l.
Proof.
  intros [-> | ->] [-> | ->]; auto. right.
  rewrite map_map. apply map_ext. intros s. apply trim_session_idem.
Qed.

(** After a push to the session with id [i] and a possible trim: the
    session found under [i] ends its history for [aiKey] with the pushed
    message, and keeps the last message of every other history. *)
Lemma pushed_session aiKey role content i (l l' : list Session) s :
  find_by_id (Some i) l = Some s →
  l' = update_found i (push_message aiKey role content) l
  ∨ l' = map (trim_session DEFAULT_CONFIG_maxHistoryPerAI)
           (update_found i (push_message aiKey role content) l) →
  ∃ s', find_by_id (Some i) l' = Some s'
    ∧ (∃ h, history s' aiKey = Some h
            ∧ last h = Some {| role := role; content := content |})
    ∧ (∀ k h m, k ≠ aiKey → history s k = Some h → last h = Some m →
         ∃ h', history s' k = Some h' ∧ last h' = Some m).
Proof.
  intros Hfind Hl'.
  pose proof (find_by_id_update_found i (push_message aiKey role content) l s
                (push_message_id aiKey role content) Hfind) as Hpushed.
  assert (Hlastw : ∀ s0, ∃ h, history (push_message aiKey role content s0) aiKey = Some h
                     ∧ last h = Some {| role := role; content := content |}).
  { intros s0. eexists. split; [apply push_message_history|]. cbv zeta.
    case_bool_decide.
    - by rewrite last_snoc.
    - rewrite last_drop_nonempty; [by rewrite last_snoc|].
      rewrite length_app. cbn. lia. }
  destruct Hl' as [-> | ->].
  - exists (push_message aiKey role content s). split_and!; [done|apply Hlastw|].
    intros k h m Hk Hh Hm. exists h. by rewrite push_message_history_ne.
  - exists (trim_session DEFAULT_CONFIG_maxHistoryPerAI
              (push_message aiKey role content s)). split_and!.
    + rewrite find_by_id_map by apply trim_session_id. by rewrite Hpushed.
    + destruct (Hlastw s) as (h & Hh & Hlast). eexists.
      rewrite trim_session_history, Hh. split; [done|].
      rewrite trim_history_last; [done|]. unfold DEFAULT_CONFIG_maxHistoryPerAI. lia.
    + intros k h m Hk Hh Hm. eexists.
      rewrite trim_session_history, push_message_history_ne, Hh by done.
      split; [done|].
      rewrite trim_history_last; [done|]. unfold DEFAULT_CONFIG_maxHistoryPerAI. lia.
Qed.

(** ... and every session with another id is where it was, as it was or
    trimmed. *)
Lemma pushed_others aiKey role content i (l l' : list Session) j s2 :
  l' = update_found i (push_message aiKey role content) l
  ∨ l' = map (trim_session DEFAULT_CONFIG_maxHistoryPerAI)
           (update_found i (push_message aiKey role content) l) →
  l !! j = Some s2 → id s2 ≠ i →
  l' !! j = Some s2
  ∨ l' !! j = Some (trim_session DEFAULT_CONFIG_maxHistoryPerAI s2).
Proof.
  intros [-> | ->] Hj Hne.
  - left. by apply update_found_lookup_ne.
  - right. rewrite list_lookup_fmap.
    by rewrite (update_found_lookup_ne _ _ _ _ _ Hj Hne).
Qed.

Lemma handleApiChat_settled_captured
    (r : Request) (st : State) i1 (s : Session) responseText :
  req_targetSessionId r = Some i1 → i1 ≠ "" →
  find_by_id (Some i1) (sessions st) = Some s →
  ∃ st', handleApiChat_settled r (inr responseText) st = (Normal tt, st')
    ∧ currentSessionId st' = currentSessionId st
    ∧ (∃ s' h, find_by_id (Some i1) (sessions st') = Some s'
         ∧ history s' (dataset_aiKey (req_panel r)) = Some h
         ∧ last h = Some {| role := "assistant"; content := responseText |})
    ∧ (∀ j s2, sessions st !! j = Some s2 → id s2 ≠ i1 →
         sessions st' !! j = Some s2
         ∨ sessions st' !! j = Some (trim_session DEFAULT_CONFIG_maxHistoryPerAI s2))
    ∧ ((∀ m k v, refuses (localStorage st) m k v = None) →
       ∀ j s2, sessions st !! j = Some s2 → id s2 ≠ i1 →
         sessions st' !! j = Some s2).
Proof.
  intros Htarget Hi Hfind.
  unfold handleApiChat_settled, appendApiMessage. rewrite Htarget.
  rewrite !or_else_truthy by done. step.
  set (st_a := emit _ (emit _ st)).
  destruct (saveApiHistory_effect (dataset_aiKey (req_panel r)) "assistant"
              responseText i1 st_a s Hi Hfind)
    as (st1 & Hrun1 & Hc1 & Hs1 & Hacc1).
  cbn [andb negb]. rewrite ?bool_decide_eq_false_2 by done. cbn [negb].
  rewrite !or_else_truthy by done. rewrite Hrun1.
  set (st_b := emit _ st1).
  destruct (save_result st_b) as (st2 & Hrun2 & Hc2 & _ & _ & Hs2).
  rewrite Hrun2. eexists. split; [reflexivity|]. cbn [currentSessionId sessions emit].
  pose proof (twice_kept_or_trimmed _ _ _ _ Hs1 Hs2) as Hshape.
  change (sessions st_a) with (sessions st) in Hshape.
  split_and!.
  - rewrite Hc2. subst st_b. cbn. by rewrite Hc1.
  - destruct (pushed_session _ _ _ _ _ _ _ Hfind Hshape) as (s' & Hs' & (h & Hh & Hl) & _).
    by exists s', h.
  - intros j s2 Hj Hne. by eapply pushed_others.
  - intros Hacc j s2 Hj Hne.
    destruct (Hacc1 Hacc) as [Hpushed Hacc'].
    destruct (save_accepting st_b Hacc') as (st2' & Hrun2' & Hs2' & _).
    rewrite Hrun2 in Hrun2'. simplify_eq.
    rewrite Hs2'. cbn. rewrite Hpushed. by apply update_found_lookup_ne.
Qed.

Lemma handleApiChat_start_run aiKey prompt panel i1 (st : State) :
  i1 ≠ "" →
  handleApiChat_start aiKey prompt panel (Some i1) st
  = (Normal {| req_aiKey := aiKey; req_prompt := prompt; req_panel := panel;
               req_targetSessionId := Some i1 |},
     emit (Call "appendBubble" [dataset_aiKey panel; "user"; prompt]) st).
Proof.
  intros Hi. unfold handleApiChat_start, appendApiMessage. step.
  by rewrite or_else_truthy.
Qed.

(** The [map] loop of [sendPromptToSelectedAIs] in API mode. *)
Lemma dispatch_loop prompt webviews i1 (keys : list string) (st : State) s :
  i1 ≠ "" → currentSessionId st = Some i1 →
  find_by_id (Some i1) (sessions st) = Some s →
  ∃ rs st1 s1,
    foldl (λ (acc : M (list Request)) aiKey,
             started ← acc;
             dispatch prompt (Some i1) true webviews started aiKey)
      (mret []) keys st
    = (Normal rs, st1)
    ∧ currentSessionId st1 = Some i1
    ∧ find_by_id (Some i1) (sessions st1) = Some s1
    ∧ req_aiKey <$> rs = filter (λ k, is_Some (webviews !! k)) keys
    ∧ ∀ r, r ∈ rs →
        req_targetSessionId r = Some i1
        ∧ req_prompt r = prompt
        ∧ webviews !! req_aiKey r = Some (req_panel r)
        ∧ ∃ h, history s1 (req_aiKey r) = Some h
               ∧ last h = Some {| role := "user"; content := prompt |}.
Proof.
  intros Hi Hcur Hfind.
  induction keys as [|k keys IH] using rev_ind.
  - exists [], st, s. split_and!; try done. by intros r Hr%elem_of_nil.
  - destruct IH as (rs & st1 & s1 & Hrun & Hc1 & Hf1 & Hkeys & Hrs).
    rewrite foldl_app. cbn [foldl].
    rewrite (bind_normal _ _ _ _ _ Hrun).
    rewrite filter_app. unfold dispatch.
    destruct (webviews !! k) as [webview|] eqn:Hk.
    + (* a panel exists: save the user message, start the request *)
      step. set (st_a := emit _ st1).
      destruct (saveApiHistory_effect k "user" prompt i1 st_a s1 Hi Hf1)
        as (st2 & Hrun2 & Hc2 & Hs2 & _).
      rewrite Hrun2. rewrite handleApiChat_start_run by done.
      destruct (pushed_session _ _ _ _ _ _ _ Hf1 Hs2)
        as (s2 & Hf2 & (h2 & Hh2 & Hl2) & Hkeep).
      eexists _, _, s2. split; [reflexivity|]. cbn [currentSessionId sessions emit].
      split_and!.
      * by rewrite Hc2.
      * done.
      * rewrite fmap_app, Hkeys. cbn. rewrite decide_True; [done|by rewrite Hk].
      * intros r [Hr | ->%list_elem_of_singleton]%elem_of_app.
        -- destruct (Hrs r Hr) as (Ht & Hp & Hw & h & Hh & Hl).
           split_and!; try done.
           destruct (decide (req_aiKey r = k)) as [-> | Hne].
           ++ by exists h2.
           ++ by apply (Hkeep _ h).
        -- cbn. split_and!; try done. by exists h2.
    + (* no panel for this service *)
      step. eexists rs, _, s1. split; [reflexivity|].
      cbn [currentSessionId sessions emit]. split_and!; try done.
      cbn. rewrite decide_False; [by rewrite app_nil_r|].
      rewrite Hk. by intros [? [=]].
Qed.

(** C4 (amended): a prompt sent from session S1 in API mode starts one
    request per selected service that has a panel; every request carries
    S1's id, and the user message is the last entry of S1's history for
    that service.  When the response of a request arrives -- in any later
    state in which S1 still exists, whichever session is current then --
    it becomes the last entry of S1's history for the panel's service and
    the current-session pointer is untouched.  No other session receives
    it: every session with another id stays in place and is either
    unchanged or, when a write-through save ran quota recovery, trimmed
    to the most recent 6 entries per history; with a store that accepts
    every write it is unchanged. *)
Theorem direct_call_writes_to_captured_session
    prompt selectedAIs webviews (st0 : State) i1 (s1 : Session) :
  currentSessionId st0 = Some i1 → i1 ≠ "" →
  find_by_id (Some i1) (sessions st0) = Some s1 →
  mode s1 = Some "api" → prompt ≠ "" → selectedAIs ≠ [] →
  ∃ requests st1 s1',
    sendPromptToSelectedAIs prompt selectedAIs webviews st0 = (Normal requests, st1)
    ∧ req_aiKey <$> requests = filter (λ k, is_Some (webviews !! k)) selectedAIs
    ∧ find_by_id (Some i1) (sessions st1) = Some s1'
    ∧ ∀ r, r ∈ requests →
        req_targetSessionId r = Some i1
        ∧ (∃ h, history s1' (req_aiKey r) = Some h
                ∧ last h = Some {| role := "user"; content := prompt |})
        ∧ ∀ (st : State) (s : Session) (responseText : string),
            find_by_id (Some i1) (sessions st) = Some s →
            ∃ st',
              handleApiChat_settled r (inr responseText) st = (Normal tt, st')
              ∧ currentSessionId st' = currentSessionId st
              ∧ (∃ s' h, find_by_id (Some i1) (sessions st') = Some s'
                   ∧ history s' (dataset_aiKey (req_panel r)) = Some h
                   ∧ last h = Some {| role := "assistant"; content := responseText |})
              ∧ (∀ j s2, sessions st !! j = Some s2 → id s2 ≠ i1 →
                   sessions st' !! j = Some s2
                   ∨ sessions st' !! j
                     = Some (trim_session DEFAULT_CONFIG_maxHistoryPerAI s2))
              ∧ ((∀ m k v, refuses (localStorage st) m k v = None) →
                 ∀ j s2, sessions st !! j = Some s2 → id s2 ≠ i1 →
                   sessions st' !! j = Some s2).
Proof.
  intros Hcur Hi Hfind Hmode Hprompt Hsel.
  unfold sendPromptToSelectedAIs.
  rewrite (proj2 (String.eqb_neq prompt "") Hprompt).
  rewrite bool_decide_eq_false_2 by done. cbn [orb].
  unfold getCurrentSession. step. rewrite Hcur, Hfind, Hmode.
  rewrite bool_decide_eq_true_2 by done.
  set (st_d := emit _ (emit _ st0)).
  destruct (dispatch_loop prompt webviews i1 selectedAIs st_d s1 Hi Hcur Hfind)
    as (rs & st1 & s1' & Hrun & _ & Hf1 & Hkeys & Hrs).
  exists rs, st1, s1'. split_and!; try done.
  intros r Hr. destruct (Hrs r Hr) as (Ht & _ & _ & Hh).
  split_and!; try done.
  intros st s responseText Hs.
  by apply (handleApiChat_settled_captured r st i1 s).
Qed.

End ApiChatFacts.

Section ApiChatExamples.

(** Fourteen appends with room in the store: the last twelve remain. *)
Lemma fourteen_appends_keep_twelve :
  let st := Demo.state [Demo.session "a" 1 ["x"] (Some "api") ∅]
              (Some "a") 1 (Demo.roomy ∅) in
  let st' := foldl (λ acc c, (saveApiHistory (H := Demo.host []) "x" "user" c None acc).2)
               st Demo.fourteen in
  (head (sessions st') ≫= λ s, history s "x")
  = Some (Demo.message "user" <$> drop 2 Demo.fourteen).
Proof. vm_compute. reflexivity. Qed.

(** C3, as stated, fails: with a store at its quota every write-through
    save runs quota recovery, and Demo.fourteen appends leave the most recent
    six messages, not the most recent twelve. *)
Lemma fourteen_appends_on_full_store_keep_six :
  let st := Demo.state [Demo.session "a" 1 ["x"] (Some "api") ∅]
              (Some "a") 1 (Demo.full ∅) in
  let st' := foldl (λ acc c, (saveApiHistory (H := Demo.host []) "x" "user" c None acc).2)
               st Demo.fourteen in
  let stored := head (sessions st') ≫= λ s, history s "x" in
  stored = Some (Demo.message "user" <$> drop 8 Demo.fourteen)
  ∧ stored ≠ Some (Demo.message "user" <$> drop 2 Demo.fourteen).
Proof. vm_compute. split; [reflexivity|discriminate]. Qed.

Lemma saveApiHistory_sliding_window_witness :
  let s := Demo.session "a" 1 ["x"] (Some "api")
             {[ "x" := Demo.message "user" <$> take 12 Demo.fourteen ]} in
  let st := Demo.state [s] (Some "a") 1 (Demo.roomy ∅) in
  find_by_id (or_else None (currentSessionId st)) (sessions st) = Some s
  ∧ ∃ st' s' stored,
      saveApiHistory (H := Demo.host []) "x" "assistant" "reply" None st
      = (Normal tt, st')
      ∧ find_by_id (Some "a") (sessions st') = Some s'
      ∧ history s' "x" = Some stored
      ∧ (length stored ≤ 12)%nat
      ∧ last stored = Some (Demo.message "assistant" "reply").
Proof.
  intros s st.
  assert (Hfind : find_by_id (or_else None (currentSessionId st)) (sessions st)
                  = Some s) by reflexivity.
  split; [exact Hfind|].
  destruct (saveApiHistory_sliding_window (H := Demo.host [])
              "x" "assistant" "reply" None st s Hfind)
    as (st' & s' & stored & Hrun & Hfound & _ & Hstored & Hlen & Hlast & _).
  exists st', s', stored. split_and!; assumption.
Defined.

(** C4, as stated, fails on its frame part.  The prompt is sent from
    session s1, the user switches to s2, and the response arrives when
    the store has no room for it: the write-through save runs quota
    recovery and cuts the history of s2 from 8 messages to 6.  The
    response itself still lands in s1. *)
Lemma response_on_tight_store_trims_other_session :
  let s1 := Demo.session "s1" 1 ["x"] (Some "api") ∅ in
  let s2 := Demo.session "s2" 2 ["x"] (Some "api")
              {[ "x" := Demo.message "user" <$> take 8 Demo.fourteen ]} in
  let panel := {| dataset_aiKey := "x"; closest_sessionId := Some "s1" |} in
  let r := {| req_aiKey := "x"; req_prompt := "question"; req_panel := panel;
              req_targetSessionId := Some "s1" |} in
  let answer := String.concat "" (replicate 40 "lorem ") in
  let st0 := Demo.state [s1; s2] (Some "s1") 2 (Demo.limited 400 ∅) in
  let sent := sendPromptToSelectedAIs (H := Demo.host []) "question" ["x"]
                {[ "x" := panel ]} st0 in
  let switched := (switchToSession (H := Demo.host []) (Some "") "s2" sent.2).2 in
  let resolved := (handleApiChat_settled (H := Demo.host []) r (inr answer)
                     switched).2 in
  sent.1 = Normal [r]
  ∧ currentSessionId switched = Some "s2"
  ∧ (sessions resolved !! 0%nat ≫= λ s, history s "x")
    = Some [Demo.message "user" "question"; Demo.message "assistant" answer]
  ∧ (sessions switched !! 1%nat ≫= λ s, history s "x")
    = Some (Demo.message "user" <$> take 8 Demo.fourteen)
  ∧ (sessions resolved !! 1%nat ≫= λ s, history s "x")
    = Some (Demo.message "user" <$> drop 2 (take 8 Demo.fourteen))
  ∧ (sessions resolved !! 1%nat ≫= λ s, history s "x")
    ≠ (sessions switched !! 1%nat ≫= λ s, history s "x").
Proof. vm_compute. split_and!; try reflexivity. discriminate. Qed.

Lemma direct_call_writes_to_captured_session_witness :
  let s1 := Demo.session "s1" 1 ["x"] (Some "api") ∅ in
  let s2 := Demo.session "s2" 2 ["x"] (Some "api") ∅ in
  let panel := {| dataset_aiKey := "x"; closest_sessionId := Some "s1" |} in
  let st0 := Demo.state [s1; s2] (Some "s1") 2 (Demo.roomy ∅) in
  currentSessionId st0 = Some "s1"
  ∧ "s1" ≠ ""
  ∧ find_by_id (Some "s1") (sessions st0) = Some s1
  ∧ mode s1 = Some "api"
  ∧ "question" ≠ ""
  ∧ ["x"] ≠ []
  ∧ ∃ requests st1,
      sendPromptToSelectedAIs (H := Demo.host []) "question" ["x"]
        {[ "x" := panel ]} st0 = (Normal requests, st1)
      ∧ ∀ r, r ∈ requests → req_targetSessionId r = Some "s1".
Proof.
  intros s1 s2 panel st0.
  assert (H1 : currentSessionId st0 = Some "s1") by reflexivity.
  assert (H2 : "s1" ≠ "") by discriminate.
  assert (H3 : find_by_id (Some "s1") (sessions st0) = Some s1) by reflexivity.
  assert (H4 : mode s1 = Some "api") by reflexivity.
  assert (H5 : "question" ≠ "") by discriminate.
  assert (H6 : ["x"] ≠ @nil string) by discriminate.
  split_and!; try assumption.
  destruct (direct_call_writes_to_captured_session (H := Demo.host [])
              "question" ["x"] {[ "x" := panel ]} st0 "s1" s1 H1 H2 H3 H4 H5 H6)
    as (requests & st1 & s1' & Hrun & _ & _ & Hrs).
  exists requests, st1. split; [exact Hrun|].
  intros r Hr. exact (proj1 (Hrs r Hr)).
Defined.

End ApiChatExamples.

(* ================================================================== *)
(** * Properties of the resizer *)
(* ================================================================== *)

Section ResizerFacts.
Import Resizer.
Local Open Scope Q_scope.

(** C6: for every drag of a divider -- between two adjacent panels in a
    linear layout, between column or row i and i+1 in the grid -- the two
    computed sizes add up to the sum of the pair at drag start.  When
    that sum is at least 300 neither computed size is below 150.  A
    candidate below 150 is replaced by 150 and the other side gets the
    rest of the pair's budget, sizeA + sizeB - 150; when no candidate is
    below 150 both are kept. *)
Theorem resize_conserves_and_clamps :
  (∀ (d : FlexDrag) (e : MouseEvent),
     let a := (startSizes d).1 in
     let b := (startSizes d).2 in
     let delta := if bool_decide (resizeDirection d = Some "vertical")
                  then clientY e - (startPos d).2
                  else clientX e - (startPos d).1 in
     let a' := (onResize_sizes d e).1 in
     let b' := (onResize_sizes d e).2 in
     a' + b' == a + b
     ∧ (300 <= a + b → 150 <= a' ∧ 150 <= b')
     ∧ (150 <= a + delta → 150 <= b - delta → a' = a + delta ∧ b' = b - delta)
     ∧ (a + delta < 150 → 300 <= a + b → a' = 150 ∧ b' = a + b - 150)
     ∧ (150 <= a + delta → b - delta < 150 → a' = a + b - 150 ∧ b' = 150))
  ∧ (∀ (g : GridDrag) (e : MouseEvent) (a b : Q),
       grid_startSizes g !! grid_index g = Some a →
       grid_startSizes g !! S (grid_index g) = Some b →
       let delta := if bool_decide (grid_type g = "column")
                    then clientX e - grid_startPos g
                    else clientY e - grid_startPos g in
       ∃ a' b',
         onGridResize_sizes g e
         = Some (<[S (grid_index g) := b']> (<[grid_index g := a']> (grid_startSizes g)))
         ∧ a' + b' == a + b
         ∧ (300 <= a + b → 150 <= a' ∧ 150 <= b')
         ∧ (150 <= a + delta → 150 <= b - delta → a' = a + delta ∧ b' = b - delta)
         ∧ (a + delta < 150 → 300 <= a + b → a' = 150 ∧ b' = a + b - 150)
         ∧ (150 <= a + delta → b - delta < 150 → a' = a + b - 150 ∧ b' = 150)).
Proof.
  split.
  - intros d e. cbv zeta. unfold onResize_sizes.
    destruct d as [? ? ? [x y] [a b] dir]. cbn [startSizes startPos resizeDirection fst snd].
    set (delta := if bool_decide (dir = Some "vertical") then _ else _).
    repeat destruct (Qlt_le_dec _ _); cbn [fst snd] in *;
      split_and!; intros; try split; try reflexivity; lra.
  - intros g e a b Ha Hb. cbv zeta. unfold onGridResize_sizes. rewrite Ha, Hb.
    set (delta := if bool_decide (grid_type g = "column") then _ else _).
    repeat destruct (Qlt_le_dec _ _); cbn [fst snd] in *;
      eexists _, _; (split; [reflexivity|]);
      split_and!; intros; try split; try reflexivity; lra.
Qed.

Lemma resize_conserves_and_clamps_witness :
  let g := {| grid_isResizing := true; grid_type := "column"; grid_index := 0;
              grid_startPos := 400; grid_startSizes := [400; 300; 200] |} in
  let e := {| clientX := 100; clientY := 0 |} in
  grid_startSizes g !! grid_index g = Some 400
  ∧ grid_startSizes g !! S (grid_index g) = Some 300
  ∧ ∃ a' b', onGridResize_sizes g e = Some [a'; b'; 200]
             ∧ a' + b' == 400 + 300 ∧ 150 <= a' ∧ 150 <= b'.
Proof.
  intros g e.
  assert (Ha : grid_startSizes g !! grid_index g = Some 400) by reflexivity.
  assert (Hb : grid_startSizes g !! S (grid_index g) = Some 300) by reflexivity.
  split; [exact Ha|]. split; [exact Hb|].
  destruct (proj2 resize_conserves_and_clamps g e 400 300 Ha Hb)
    as (a' & b' & Hrun & Hsum & Hmin & _).
  exists a', b'. split; [exact Hrun|]. split; [exact Hsum|].
  apply Hmin. vm_compute. discriminate.
Defined.

(** *** Switching the layout mode *)

Section WithFormats.
Context `{Formats}.

Lemma getCurrentLayoutMode_grid (st st' : State) :
  (classList <$> webviewGrid st') = (classList <$> webviewGrid st) →
  getCurrentLayoutMode st' = getCurrentLayoutMode st.
Proof.
  unfold getCurrentLayoutMode.
  destruct (webviewGrid st') as [g'|], (webviewGrid st) as [g|]; cbn;
    intros Heq; simplify_eq; [|done].
  by match goal with Hc : classList _ = classList _ |- _ => rewrite Hc end.
Qed.

Lemma update_at_styles i b (ws : list Wrapper) :
  styles <$> update_at i (set_resizer b) ws = styles <$> ws.
Proof.
  unfold update_at. destruct (ws !! i) as [w|] eqn:Hw; [|done].
  rewrite list_fmap_insert. apply list_insert_id.
  by rewrite list_lookup_fmap, Hw.
Qed.

Lemma createResizer_frame i (st : State) :
  webviewGrid (createResizer i st) = webviewGrid st
  ∧ localStorage (createResizer i st) = localStorage st
  ∧ styles <$> wrappers (createResizer i st) = styles <$> wrappers st.
Proof.
  unfold createResizer. repeat case_match; cbn; by rewrite ?update_at_styles.
Qed.

Lemma createResizers_frame (l : list (nat * Wrapper)) (st : State) :
  let st' := foldl (λ acc iw, createResizer iw.1 acc) st l in
  webviewGrid st' = webviewGrid st
  ∧ localStorage st' = localStorage st
  ∧ styles <$> wrappers st' = styles <$> wrappers st.
Proof.
  revert st. induction l as [|iw l IH]; intros st; [done|]. cbn.
  destruct (IH (createResizer iw.1 st)) as (Hg & Hl & Hw).
  destruct (createResizer_frame iw.1 st) as (Hg' & Hl' & Hw').
  cbv zeta in *. by rewrite Hg, Hl, Hw.
Qed.

(** With no record under the active key, [initResizers] restores nothing. *)
Lemma initResizers_nothing_stored (st : State) :
  getItem (getStorageKey st) (localStorage st) = None →
  webviewGrid (initResizers st) = webviewGrid st
  ∧ localStorage (initResizers st) = localStorage st
  ∧ styles <$> wrappers (initResizers st) = styles <$> wrappers st.
Proof.
  intros Hnone. unfold initResizers, restoreSizes, restoreGridSizes.
  destruct (bool_decide (getCurrentLayoutMode st = "grid")) eqn:Hmode.
  - assert (Hm : getCurrentLayoutMode (setTimeout "createGridResizers; setupGridResizeObserver" 50 st)
                 = getCurrentLayoutMode st) by (by apply getCurrentLayoutMode_grid).
    rewrite Hm, Hmode.
    assert (Hk : getStorageKey (setTimeout "createGridResizers; setupGridResizeObserver" 50 st)
                 = getStorageKey st) by (unfold getStorageKey; by rewrite Hm).
    rewrite Hk. cbn [localStorage setTimeout]. by rewrite Hnone.
  - set (st1 := set_gridResizeObserver false _).
    destruct (createResizers_frame (getVisibleWrappers st) st) as (Hg & Hl & Hw).
    cbv zeta in *.
    assert (Hm : getCurrentLayoutMode st1 = getCurrentLayoutMode st).
    { apply getCurrentLayoutMode_grid. subst st1. cbn. by rewrite Hg. }
    rewrite Hm, Hmode.
    assert (Hk : getStorageKey st1 = getStorageKey st)
      by (unfold getStorageKey; by rewrite Hm).
    rewrite Hk. subst st1. cbn [localStorage set_gridResizeObserver].
    rewrite Hl, Hnone. cbn. by rewrite Hg, Hl, Hw.
Qed.

Lemma onLayoutModeChange_styles (st : State) :
  styles <$> wrappers (onLayoutModeChange st)
  = (λ w, if visible w then (aiKey w, display w, None, "", "")
          else styles w) <$> wrappers st.
Proof.
  unfold onLayoutModeChange, clearSizes, forEach_visible. cbn.
  rewrite <- !list_fmap_compose. apply list_fmap_ext.
  intros i w _. unfold compose, visible, styles. cbn.
  by destruct (negb (String.eqb (display w) "none")).
Qed.

(** C2 (amended): a change of layout mode removes the persisted size
    record of the newly active mode and leaves the records of the other
    modes (every other key) unchanged.  It clears the flex and minimum
    size styles of every visible wrapper and the grid templates, and the
    re-initialisation that follows restores nothing: the newly active
    mode starts from equal distribution whether or not a record existed. *)
Theorem onLayoutModeChange_resets_active_mode (st : State) :
  let changed := onLayoutModeChange_timeout (onLayoutModeChange st) in
  getItem (getStorageKey st) (localStorage changed) = None
  ∧ (∀ k, k ≠ getStorageKey st →
       getItem k (localStorage changed) = getItem k (localStorage st))
  ∧ (∀ w, w ∈ wrappers changed → visible w = true →
       flex w = None ∧ minWidth w = "" ∧ minHeight w = "")
  ∧ (∀ grid, webviewGrid changed = Some grid →
       gridTemplateColumns grid = "" ∧ gridTemplateRows grid = "").
Proof.
  cbv zeta. unfold onLayoutModeChange_timeout, onLayoutModeChange.
  set (st3 := set_wrappers _ (set_webviewGrid _ (set_gridResizeObserver false st))).
  set (st4 := setTimeout "initResizers" 50 (clearSizes st3)).
  assert (Hmode3 : getCurrentLayoutMode st3 = getCurrentLayoutMode st).
  { apply getCurrentLayoutMode_grid. subst st3. cbn.
    by destruct (webviewGrid st). }
  assert (Hkey3 : getStorageKey st3 = getStorageKey st)
    by (unfold getStorageKey; by rewrite Hmode3).
  assert (Hmode4 : getCurrentLayoutMode st4 = getCurrentLayoutMode st).
  { rewrite <- Hmode3. apply getCurrentLayoutMode_grid. subst st4 st3. cbn.
    by destruct (webviewGrid st). }
  assert (Hkey4 : getStorageKey st4 = getStorageKey st)
    by (unfold getStorageKey; by rewrite Hmode4).
  assert (Hls4 : localStorage st4 = removeItem (getStorageKey st) (localStorage st)).
  { subst st4. cbn. by rewrite Hkey3. }
  assert (Hnone : getItem (getStorageKey st4) (localStorage st4) = None).
  { rewrite Hkey4, Hls4. unfold getItem, removeItem. cbn. apply lookup_delete_eq. }
  destruct (initResizers_nothing_stored st4 Hnone) as (Hg & Hl & Hw).
  cbn [localStorage wrappers webviewGrid logger_log]. rewrite Hl, Hg.
  split_and!.
  - by rewrite <- Hkey4.
  - intros k Hk. rewrite Hls4. unfold getItem, removeItem. cbn.
    by apply lookup_delete_ne.
  - intros w Hin Hvis.
    apply (list_elem_of_fmap_2 styles) in Hin. rewrite Hw in Hin.
    change st4 with (onLayoutModeChange st) in Hin.
    rewrite onLayoutModeChange_styles in Hin.
    apply list_elem_of_fmap in Hin as (w0 & Hstyles & _).
    unfold styles, visible in *.
    destruct (negb (String.eqb (display w0) "none")) eqn:Hv0;
      simplify_eq; [done|].
    congruence.
  - intros grid Hgrid. subst st4 st3. cbn in Hgrid.
    destruct (webviewGrid st); cbn in Hgrid; by simplify_eq.
Qed.

End WithFormats.

(** C2, as stated, fails: the user switches to the grid layout, for
    which a size record is stored.  The switch deletes that record and
    leaves the grid templates empty, whereas a plain re-initialisation of
    the same state restores the templates from the record. *)
Lemma layout_switch_discards_stored_record :
  let key := "oneprompt-wrapper-sizes-grid" in
  let record := "{columns:1.500fr 0.500fr,rows:1.000fr}" in
  let st := Demo.panels_in ["webview-grid"; "layout-grid"]
              {[ key := record;
                 "oneprompt-wrapper-sizes-horizontal" := "{chatgpt:2,claude:1}" ]} in
  let changed := onLayoutModeChange_timeout (H := Demo.formats)
                   (onLayoutModeChange st) in
  getStorageKey st = key
  ∧ getItem key (localStorage st) = Some record
  ∧ getItem key (localStorage changed) = None
  ∧ (gridTemplateColumns <$> webviewGrid changed) = Some ""
  ∧ (gridTemplateColumns <$> webviewGrid (initResizers (H := Demo.formats) st))
    = Some "1.500fr 0.500fr"
  ∧ getItem "oneprompt-wrapper-sizes-horizontal" (localStorage changed)
    = Some "{chatgpt:2,claude:1}".
Proof. vm_compute. by split_and!. Qed.

End ResizerFacts.

(* ================================================================== *)
(** * Properties of the panel cache *)
(* ================================================================== *)

Section PanelsFacts.
Import Panels.

Lemma matches_pair a b s k (w : Wrapper) :
  matches a b w = true → matches s k w = true → a = s ∧ b = k.
Proof.
  unfold matches. rewrite !andb_true_iff, !bool_decide_eq_true.
  intros [<- <-] [<- <-]. done.
Qed.

Lemma matches_not_other a b s k (w : Wrapper) :
  (a, b) ≠ (s, k) → matches s k w = true → matches a b w = false.
Proof.
  intros Hne Hw. destruct (matches a b w) eqn:Hab; [|done].
  destruct (matches_pair _ _ _ _ _ Hab Hw). congruence.
Qed.

Lemma query_matches a b (ws : list Wrapper) w :
  querySelector a b ws = Some w → matches a b w = true.
Proof. intros Hq. by apply find_some in Hq as [_ ?]. Qed.

Lemma query_update_same s k f (ws : list Wrapper) :
  (∀ w, matches s k w = true → matches s k (f w) = true) →
  querySelector s k (update_selected s k f ws) = f <$> querySelector s k ws.
Proof.
  intros Hf. unfold querySelector.
  induction ws as [|x ws IH]; [done|]. cbn.
  destruct (matches s k x) eqn:Hx; cbn.
  - by rewrite (Hf x Hx).
  - by rewrite Hx.
Qed.

Lemma query_update_other a b s k f (ws : list Wrapper) :
  (a, b) ≠ (s, k) →
  (∀ w, matches s k w = true → matches s k (f w) = true) →
  querySelector a b (update_selected s k f ws) = querySelector a b ws.
Proof.
  intros Hne Hf. unfold querySelector.
  induction ws as [|x ws IH]; [done|]. cbn.
  destruct (matches s k x) eqn:Hx; cbn.
  - by rewrite (matches_not_other a b s k (f x) Hne (Hf x Hx)),
      (matches_not_other a b s k x Hne Hx).
  - by rewrite IH.
Qed.

Lemma query_app a b (ws : list Wrapper) w :
  querySelector a b (ws ++ [w])
  = match querySelector a b ws with
    | Some x => Some x
    | None => if matches a b w then Some w else None
    end.
Proof.
  unfold querySelector. induction ws as [|x ws IH]; cbn; [done|].
  by destruct (matches a b x).
Qed.

Lemma cached_cache s k i (st : State) a b :
  cached (cache s k i st) a b
  = if decide (a = s ∧ b = k) then Some i else cached st a b.
Proof.
  unfold cached, cache. cbn.
  destruct (decide (a = s)) as [-> | Hs].
  - rewrite lookup_insert_eq. cbn.
    destruct (decide (b = k)) as [-> | Hk].
    + rewrite lookup_insert_eq. by rewrite decide_True.
    + rewrite lookup_insert_ne by done.
      rewrite decide_False by (by intros [_ ?]).
      by destruct (webviewInstances st !! s).
  - rewrite lookup_insert_ne by done.
    by rewrite decide_False by (by intros [? _]).
Qed.

Lemma cached_set_wrappers ws (st : State) a b :
  cached (set_wrappers ws st) a b = cached st a b.
Proof. done. Qed.

Lemma cached_set_constructed n (st : State) a b :
  cached (set_constructed n st) a b = cached st a b.
Proof. done. Qed.

(** *** Children of a wrapper *)

Lemma contents_show_container d (l : list Node) :
  contents (show_container d l) = contents l.
Proof.
  unfold contents. induction l as [|n l IH]; [done|].
  destruct n; cbn; [done| |done]. by rewrite IH.
Qed.

Lemma contents_app_container d (l : list Node) :
  contents (l ++ [ResponseContainer d]) = contents l.
Proof. unfold contents. rewrite omap_app. cbn. by rewrite app_nil_r. Qed.

Lemma contents_insert_after_header i (l : list Node) :
  contents l = [] → contents (insert_after_header (Content i) l) = [i].
Proof.
  unfold contents. induction l as [|n l IH]; [done|].
  destruct n; cbn; intros Hl; [by rewrite Hl|done|by apply IH].
Qed.

Lemma contents_remove_first_kind k i (l : list Node) :
  contents l = [i] → kind i = k →
  contents (remove_first (is_content k) l) = [].
Proof.
  unfold contents. intros Hl Hk.
  induction l as [|n l IH]; [done|].
  destruct n as [|j|d]; cbn in *.
  - by apply IH.
  - simplify_eq. by rewrite bool_decide_eq_true_2.
  - by apply IH.
Qed.

Lemma contents_remove_first_none k (l : list Node) :
  contents l = [] → contents (remove_first (is_content k) l) = [].
Proof.
  unfold contents. induction l as [|n l IH]; [done|].
  destruct n as [|j|d]; cbn; [apply IH|done|apply IH].
Qed.

Lemma find_content_none k (l : list Node) :
  contents l = [] → List.find (is_content k) l = None.
Proof.
  unfold contents. induction l as [|n l IH]; [done|].
  destruct n as [|j|d]; cbn; [apply IH|done|apply IH].
Qed.

Lemma existing_single k (w : Wrapper) i :
  contents (children w) = [i] →
  (existing k w = None ↔ kind i ≠ k).
Proof.
  unfold existing. generalize (children w). intros l.
  induction l as [|n l IH]; [done|].
  destruct n as [|j|d]; [apply IH| |apply IH].
  unfold contents. cbn. intros [= -> Hl].
  case_bool_decide as Hk.
  - split; [done|]. intros Hne. done.
  - rewrite (find_content_none k l Hl). done.
Qed.

(** *** One step of the loop *)

Lemma renderOne_frame aiKey index (st : State) :
  let st' := renderOne aiKey index st in
  currentSessionId st' = currentSessionId st
  ∧ mode st' = mode st
  ∧ aiConfigs st' = aiConfigs st
  ∧ (constructed st ≤ constructed st')%nat.
Proof.
  unfold renderOne, recreate, construct, cache.
  repeat (case_match; simplify_eq/=); split_and!; try done; lia.
Qed.

Lemma sessionKey_renderOne aiKey index (st : State) :
  sessionKey (renderOne aiKey index st) = sessionKey st.
Proof.
  unfold sessionKey. by rewrite (proj1 (renderOne_frame aiKey index st)).
Qed.

(** The step leaves every other pair alone. *)
Lemma renderOne_other aiKey index (st : State) a b :
  (a, b) ≠ (sessionKey st, aiKey) →
  panelNodes (renderOne aiKey index st) a b = panelNodes st a b
  ∧ cached (renderOne aiKey index st) a b = cached st a b.
Proof.
  intros Hne.
  assert (Hd : ¬ (a = sessionKey st ∧ b = aiKey)) by (intros [-> ->]; done).
  unfold renderOne, panelNodes.
  destruct (querySelector (sessionKey st) aiKey (wrappers st)) as [w|] eqn:Hq.
  - (* the wrapper exists *)
    pose proof (query_matches _ _ _ _ Hq) as Hw.
    assert (Hkeep : ∀ kids st1,
              querySelector a b
                (update_selected (sessionKey st) aiKey
                   (λ _, set_children kids (set_order index (set_display "flex" w)))
                   (wrappers st1))
              = querySelector a b (wrappers st1)).
    { intros kids st1. by apply query_update_other. }
    unfold recreate, construct.
    repeat (case_match; simplify_eq/=);
      rewrite ?Hkeep, ?cached_set_wrappers, ?cached_cache,
        ?cached_set_constructed, ?decide_False by done; done.
  - (* a wrapper is created *)
    assert (Hm : ∀ nodes,
              matches a b
                {| dataset_sessionId := sessionKey st; dataset_aiKey := aiKey;
                   display := ""; order := index; children := nodes |} = false).
    { intros nodes. by apply (matches_not_other a b (sessionKey st) aiKey);
        [|unfold matches; cbn; rewrite !bool_decide_eq_true_2]. }
    unfold construct.
    repeat (case_match; simplify_eq/=);
      rewrite ?query_app, ?Hm, ?cached_set_wrappers, ?cached_cache,
        ?cached_set_constructed, ?decide_False by done;
      (split; [by case_match|done]).
Qed.

Lemma contents_responseContainer m (kids : list Node) :
  contents (responseContainer m kids) = contents kids.
Proof.
  unfold responseContainer. repeat case_match;
    by rewrite ?contents_show_container, ?contents_app_container.
Qed.

Lemma wanted_api m : wanted m = Some ApiPanel ↔ m = Some "api".
Proof. unfold wanted. repeat case_bool_decide; naive_solver. Qed.

Lemma wanted_web m : wanted m = Some Webview ↔ m = Some "web".
Proof. unfold wanted. repeat case_bool_decide; naive_solver. Qed.

(** The mode check keeps an element of the wanted kind ... *)
Lemma recreate_keep aiKey (shown : Wrapper) (st : State) i :
  contents (children shown) = [i] →
  (∀ kd, wanted (mode st) = Some kd → kind i = kd) →
  recreate aiKey shown st = (children shown, st).
Proof.
  intros Hc Hkind. unfold recreate.
  destruct (bool_decide (mode st = Some "api")) eqn:Hapi; cbn [andb].
  - apply bool_decide_eq_true in Hapi.
    rewrite bool_decide_eq_false_2.
    + cbn [andb]. rewrite (bool_decide_eq_false_2 (mode st = Some "web")); [done|].
      rewrite Hapi. done.
    + rewrite (existing_single ApiPanel shown i Hc).
      intros Hne. apply Hne, Hkind. by apply wanted_api.
  - destruct (bool_decide (mode st = Some "web")) eqn:Hweb; cbn [andb]; [|done].
    apply bool_decide_eq_true in Hweb.
    rewrite bool_decide_eq_false_2; [done|].
    rewrite (existing_single Webview shown i Hc).
    intros Hne. apply Hne, Hkind. by apply wanted_web.
Qed.

(** ... and replaces an element of the other kind by a new one. *)
Lemma recreate_new aiKey (shown : Wrapper) (st : State) i kd :
  contents (children shown) = [i] →
  wanted (mode st) = Some kd → kind i ≠ kd →
  let new := {| serial := constructed st; kind := kd; service := aiKey |} in
  ∃ kids,
    recreate aiKey shown st
    = (kids, cache (sessionKey st) aiKey new
               (set_constructed (S (constructed st)) st))
    ∧ contents kids = [new].
Proof.
  intros Hc Hwant Hkind new. unfold recreate, construct.
  destruct kd.
  - (* an API panel is wanted, a webview is attached *)
    apply wanted_api in Hwant.
    rewrite (bool_decide_eq_true_2 _ Hwant).
    rewrite bool_decide_eq_true_2 by (by apply (existing_single ApiPanel shown i Hc)).
    cbn [andb]. eexists. split; [reflexivity|].
    apply contents_insert_after_header. rewrite contents_show_container.
    apply (contents_remove_first_kind Webview i); [done|].
    by destruct (kind i).
  - (* a webview is wanted, an API panel is attached *)
    apply wanted_web in Hwant.
    rewrite (bool_decide_eq_false_2 (mode st = Some "api")) by (by rewrite Hwant).
    cbn [andb]. rewrite (bool_decide_eq_true_2 _ Hwant).
    rewrite bool_decide_eq_true_2 by (by apply (existing_single Webview shown i Hc)).
    cbn [andb]. eexists. split; [reflexivity|].
    apply contents_insert_after_header.
    apply (contents_remove_first_kind ApiPanel i); [done|].
    by destruct (kind i).
Qed.

(** *** What one step does to its own pair *)

Lemma renderOne_reuse aiKey index (st : State) i :
  holds st (sessionKey st) aiKey i →
  (∀ kd, wanted (mode st) = Some kd → kind i = kd) →
  holds (renderOne aiKey index st) (sessionKey st) aiKey i
  ∧ constructed (renderOne aiKey index st) = constructed st.
Proof.
  intros (nodes & Hn & Hc & Hcache & Hser) Hkind.
  unfold panelNodes in Hn.
  destruct (querySelector (sessionKey st) aiKey (wrappers st)) as [w|] eqn:Hq;
    [|done].
  cbn in Hn. simplify_eq.
  unfold renderOne. rewrite Hq.
  rewrite (recreate_keep aiKey (set_order index (set_display "flex" w)) st i) by done.
  split; [|done].
  eexists. unfold panelNodes. cbn [wrappers set_wrappers].
  rewrite query_update_same by (intros ? _; by apply (query_matches _ _ _ _ Hq)).
  rewrite Hq. cbn. split_and!; try done.
  by rewrite contents_responseContainer.
Qed.

Lemma renderOne_recreate aiKey index (st : State) i kd :
  holds st (sessionKey st) aiKey i →
  wanted (mode st) = Some kd → kind i ≠ kd →
  let new := {| serial := constructed st; kind := kd; service := aiKey |} in
  holds (renderOne aiKey index st) (sessionKey st) aiKey new
  ∧ constructed (renderOne aiKey index st) = S (constructed st).
Proof.
  intros (nodes & Hn & Hc & Hcache & Hser) Hwant Hkind new.
  unfold panelNodes in Hn.
  destruct (querySelector (sessionKey st) aiKey (wrappers st)) as [w|] eqn:Hq;
    [|done].
  cbn in Hn. simplify_eq.
  unfold renderOne. rewrite Hq.
  destruct (recreate_new aiKey (set_order index (set_display "flex" w)) st i kd
              Hc Hwant Hkind) as (kids & -> & Hkids).
  split; [|done].
  eexists. unfold panelNodes. cbn [wrappers set_wrappers cache set_webviewInstances
    set_constructed].
  rewrite query_update_same by (intros ? _; by apply (query_matches _ _ _ _ Hq)).
  rewrite Hq. cbn [fmap option_fmap option_map children set_children].
  split_and!; try done.
  - by rewrite contents_responseContainer.
  - rewrite cached_set_wrappers, cached_cache. by rewrite decide_True.
  - cbn. lia.
Qed.

Lemma renderOne_create aiKey index (st : State) :
  panelNodes st (sessionKey st) aiKey = None →
  cached st (sessionKey st) aiKey = None →
  let new := {| serial := constructed st;
                kind := if bool_decide (mode st = Some "api")
                        then ApiPanel else Webview;
                service := aiKey |} in
  holds (renderOne aiKey index st) (sessionKey st) aiKey new
  ∧ constructed (renderOne aiKey index st) = S (constructed st).
Proof.
  intros Hn Hcache new. unfold panelNodes in Hn.
  destruct (querySelector (sessionKey st) aiKey (wrappers st)) as [w|] eqn:Hq;
    [done|].
  unfold renderOne. rewrite Hq, Hcache. unfold construct.
  assert (Hshape : ∀ st1 nodes,
            panelNodes
              (set_wrappers
                 (wrappers st
                  ++ [{| dataset_sessionId := sessionKey st; dataset_aiKey := aiKey;
                         display := ""; order := index; children := nodes |}]) st1)
              (sessionKey st) aiKey = Some nodes).
  { intros st1 nodes. unfold panelNodes. cbn [wrappers set_wrappers].
    rewrite query_app, Hq. unfold matches. cbn.
    by rewrite !bool_decide_eq_true_2. }
  destruct (bool_decide (mode st = Some "api")) eqn:Hapi;
    cbn [wrappers cache set_constructed set_webviewInstances].
  all: split; [|done].
  all: eexists; split; [apply Hshape|].
  all: split_and!; [by destruct (bool_decide (mode st = Some "web"))
                   | by rewrite cached_set_wrappers, cached_cache, decide_True
                   | cbn; lia].
Qed.

(** *** The loop *)

Lemma holds_coherent (st : State) a b i : holds st a b i → coherent st a b.
Proof.
  intros (nodes & Hn & Hc & Hcache & Hser). unfold coherent. rewrite Hn. eauto.
Qed.

Lemma coherent_cases (st : State) a b :
  coherent st a b →
  (panelNodes st a b = None ∧ cached st a b = None) ∨ ∃ i, holds st a b i.
Proof.
  unfold coherent, holds. destruct (panelNodes st a b) as [nodes|]; [|by left].
  intros (i & Hc & Hcache & Hser). right. exists i, nodes. done.
Qed.

Lemma wanted_cases m (i : Instance) :
  (∀ kd, wanted m = Some kd → kind i = kd)
  ∨ ∃ kd, wanted m = Some kd ∧ kind i ≠ kd.
Proof.
  destruct (wanted m) as [kd|]; [|by left].
  destruct (decide (kind i = kd)) as [-> | Hne].
  - left. by intros ? [= <-].
  - right. by exists kd.
Qed.

Lemma holds_other aiKey index (st : State) a b i :
  (a, b) ≠ (sessionKey st, aiKey) →
  holds st a b i → holds (renderOne aiKey index st) a b i.
Proof.
  intros Hne (nodes & Hn & Hc & Hcache & Hser).
  destruct (renderOne_other aiKey index st a b Hne) as [Hn' Hcache'].
  pose proof (renderOne_frame aiKey index st) as (_ & _ & _ & Hmono).
  exists nodes. rewrite Hn', Hcache'. split_and!; try done. cbv zeta in Hmono. lia.
Qed.

(** One step keeps the invariant of every pair. *)
Lemma renderOne_coherent aiKey index (st : State) :
  (∀ a b, coherent st a b) → ∀ a b, coherent (renderOne aiKey index st) a b.
Proof.
  intros Hall a b.
  destruct (decide ((a, b) = (sessionKey st, aiKey))) as [[= -> ->] | Hne].
  - destruct (coherent_cases _ _ _ (Hall (sessionKey st) aiKey))
      as [[Hn Hc] | [i Hi]].
    + eapply holds_coherent, renderOne_create; done.
    + destruct (wanted_cases (mode st) i) as [Hok | (kd & Hwant & Hkind)].
      * eapply holds_coherent, renderOne_reuse; done.
      * eapply holds_coherent, renderOne_recreate; done.
  - destruct (coherent_cases _ _ _ (Hall a b)) as [[Hn Hc] | [i Hi]].
    + destruct (renderOne_other aiKey index st a b Hne) as [Hn' Hcache'].
      unfold coherent. by rewrite Hn', Hn, Hcache'.
    + eapply holds_coherent, holds_other; done.
Qed.

Lemma renderStep_frame (acc : State * nat) aiKey :
  let acc' := renderStep acc aiKey in
  sessionKey acc'.1 = sessionKey acc.1
  ∧ mode acc'.1 = mode acc.1
  ∧ aiConfigs acc'.1 = aiConfigs acc.1
  ∧ (constructed acc.1 ≤ constructed acc'.1)%nat.
Proof.
  unfold renderStep. case_bool_decide; cbn; [|done].
  pose proof (renderOne_frame aiKey acc.2 acc.1) as (Hc & Hm & Ha & Hmono).
  unfold sessionKey. cbv zeta in *. by rewrite Hc.
Qed.

Lemma loop_frame (keys : list string) (acc : State * nat) :
  let acc' := foldl renderStep acc keys in
  sessionKey acc'.1 = sessionKey acc.1
  ∧ mode acc'.1 = mode acc.1
  ∧ aiConfigs acc'.1 = aiConfigs acc.1
  ∧ (constructed acc.1 ≤ constructed acc'.1)%nat.
Proof.
  revert acc. induction keys as [|k keys IH]; intros acc; [done|]. cbn.
  destruct (IH (renderStep acc k)) as (Hs & Hm & Ha & Hc).
  destruct (renderStep_frame acc k) as (Hs' & Hm' & Ha' & Hc').
  cbv zeta in *. rewrite Hs, Hm, Ha. split_and!; try done. lia.
Qed.

Lemma loop_coherent (keys : list string) (acc : State * nat) :
  (∀ a b, coherent acc.1 a b) →
  ∀ a b, coherent (foldl renderStep acc keys).1 a b.
Proof.
  revert acc. induction keys as [|k keys IH]; intros acc Hall; [done|]. cbn.
  apply IH. unfold renderStep. case_bool_decide; [|done].
  by apply renderOne_coherent.
Qed.

(** A pair that holds an element of the wanted kind keeps it through the
    whole loop. *)
Lemma loop_stable a b i (keys : list string) (acc : State * nat) :
  a = sessionKey acc.1 →
  holds acc.1 a b i →
  (∀ kd, wanted (mode acc.1) = Some kd → kind i = kd) →
  holds (foldl renderStep acc keys).1 a b i.
Proof.
  revert acc. induction keys as [|k keys IH]; intros acc -> Hi Hkind; [done|].
  cbn. destruct (renderStep_frame acc k) as (Hs & Hm & _).
  cbv zeta in *. apply IH; [done| |by rewrite Hm].
  unfold renderStep. case_bool_decide; [|done]. cbn.
  destruct (decide (b = k)) as [-> | Hne].
  - by apply renderOne_reuse.
  - apply holds_other; [|done]. by intros [= ?].
Qed.

(** A selected, configured service comes out of the loop with an
    element of the wanted kind: the one it had if that was suitable, a
    newly built one otherwise. *)
Lemma loop_reach b (keys : list string) (acc : State * nat) :
  coherent acc.1 (sessionKey acc.1) b →
  b ∈ keys → b ∈ aiConfigs acc.1 →
  ∃ i,
    holds (foldl renderStep acc keys).1 (sessionKey acc.1) b i
    ∧ (∀ kd, wanted (mode acc.1) = Some kd → kind i = kd)
    ∧ (∀ i0, cached acc.1 (sessionKey acc.1) b = Some i0 →
         (∀ kd, wanted (mode acc.1) = Some kd → kind i0 = kd) → i = i0)
    ∧ (∀ i0 kd, cached acc.1 (sessionKey acc.1) b = Some i0 →
         wanted (mode acc.1) = Some kd → kind i0 ≠ kd →
         (constructed acc.1 ≤ serial i)%nat).
Proof.
  revert acc. induction keys as [|k keys IH]; intros acc Hcoh Hin Hconf.
  { by apply elem_of_nil in Hin. }
  cbn [foldl].
  destruct (renderStep_frame acc k) as (Hs & Hm & Ha & Hmono). cbv zeta in *.
  destruct (decide (b = k)) as [<- | Hne].
  - (* this iteration handles the service *)
    unfold renderStep in *. rewrite bool_decide_eq_true_2 in * by done.
    cbn [fst snd] in *.
    assert (Hstep : ∃ i,
              holds (renderOne b acc.2 acc.1) (sessionKey acc.1) b i
              ∧ (∀ kd, wanted (mode acc.1) = Some kd → kind i = kd)
              ∧ (∀ i0, cached acc.1 (sessionKey acc.1) b = Some i0 →
                   (∀ kd, wanted (mode acc.1) = Some kd → kind i0 = kd) → i = i0)
              ∧ (∀ i0 kd, cached acc.1 (sessionKey acc.1) b = Some i0 →
                   wanted (mode acc.1) = Some kd → kind i0 ≠ kd →
                   (constructed acc.1 ≤ serial i)%nat)).
    { destruct (coherent_cases _ _ _ Hcoh) as [[Hn Hc] | [i Hi]].
      - eexists. split; [by apply renderOne_create|]. cbn. split_and!.
        + intros kd Hwant. case_bool_decide as Hapi.
          * apply wanted_api in Hapi. congruence.
          * destruct kd; [by apply wanted_api in Hwant|done].
        + intros i0. by rewrite Hc.
        + intros i0 kd. by rewrite Hc.
      - assert (Hcache : cached acc.1 (sessionKey acc.1) b = Some i)
          by (by destruct Hi as (? & _ & _ & ? & _)).
        destruct (wanted_cases (mode acc.1) i) as [Hok | (kd & Hwant & Hkind)].
        + exists i. split; [by apply renderOne_reuse|]. split_and!; try done.
          * intros i0. rewrite Hcache. by intros [= ->].
          * intros i0 kd. rewrite Hcache. intros [= <-] Hwant Hkind.
            by specialize (Hok kd Hwant).
        + eexists. split; [by eapply renderOne_recreate|]. cbn. split_and!.
          * intros kd'. rewrite Hwant. by intros [= ->].
          * intros i0. rewrite Hcache. intros [= <-] Hok.
            by specialize (Hok kd Hwant).
          * done. }
    destruct Hstep as (i & Hi & Hkind & Hsame & Hnew).
    exists i. split_and!; try done.
    apply loop_stable; cbn [fst snd]; [by rewrite Hs|done|by rewrite Hm].
  - (* another service: the pair is left alone *)
    assert (Hin' : b ∈ keys).
    { apply elem_of_cons in Hin as [?|?]; [done|done]. }
    assert (Hother : panelNodes (renderStep acc k).1 (sessionKey acc.1) b
                     = panelNodes acc.1 (sessionKey acc.1) b
                     ∧ cached (renderStep acc k).1 (sessionKey acc.1) b
                       = cached acc.1 (sessionKey acc.1) b).
    { unfold renderStep. case_bool_decide; [|done]. cbn.
      apply renderOne_other. by intros [= ?]. }
    destruct Hother as [Hn Hc].
    assert (Hcoh' : coherent (renderStep acc k).1 (sessionKey (renderStep acc k).1) b).
    { rewrite Hs. unfold coherent in *. rewrite Hn, Hc.
      destruct (panelNodes acc.1 (sessionKey acc.1) b); [|done].
      destruct Hcoh as (i & ? & ? & ?). exists i. split_and!; try done. lia. }
    destruct (IH (renderStep acc k) Hcoh' Hin') as (i & Hi & Hkind & Hsame & Hnew).
    { by rewrite Ha. }
    rewrite Hs, Hm, Hc in *.
    exists i. split_and!; try done.
    intros i0 kd H0 Hwant Hk. specialize (Hnew i0 kd H0 Hwant Hk). lia.
Qed.

(** When every selected service already holds an element of the wanted
    kind, the loop builds nothing. *)
Lemma loop_quiet (keys : list string) (acc : State * nat) :
  (∀ b, b ∈ keys → b ∈ aiConfigs acc.1 →
     ∃ i, holds acc.1 (sessionKey acc.1) b i
          ∧ ∀ kd, wanted (mode acc.1) = Some kd → kind i = kd) →
  constructed (foldl renderStep acc keys).1 = constructed acc.1.
Proof.
  revert acc. induction keys as [|k keys IH]; intros acc Hall; [done|].
  cbn [foldl].
  destruct (renderStep_frame acc k) as (Hs & Hm & Ha & _). cbv zeta in *.
  rewrite IH.
  - unfold renderStep. case_bool_decide as Hk; [|done]. cbn.
    destruct (Hall k) as (i & Hi & Hkind); [left|done|].
    by apply (renderOne_reuse k acc.2 acc.1 i).
  - intros b Hb Hconf. rewrite Hs, Hm. rewrite Ha in Hconf.
    destruct (Hall b) as (i & Hi & Hkind); [by right|done|].
    exists i. split; [|done].
    unfold renderStep. case_bool_decide as Hk; [|done]. cbn.
    destruct (decide (b = k)) as [-> | Hne].
    + by apply renderOne_reuse.
    + apply holds_other; [|done]. by intros [= ?].
Qed.

(** *** Before the loop: hiding changes no content *)

Lemma query_set_display a b s k d (ws : list Wrapper) :
  children <$> querySelector a b (update_selected s k (set_display d) ws)
  = children <$> querySelector a b ws.
Proof.
  destruct (decide ((a, b) = (s, k))) as [[= -> ->] | Hne].
  - rewrite query_update_same by done. by destruct (querySelector s k ws).
  - by rewrite query_update_other.
Qed.

Lemma hideAll_nodes (st : State) a b :
  panelNodes (hideAll st) a b = panelNodes st a b.
Proof.
  unfold panelNodes, hideAll. cbn [wrappers set_wrappers].
  induction (map_to_list (webviewInstances st)) as [|sm l IH]; [done|].
  cbn [foldr]. rewrite <- IH.
  induction (map_to_list sm.2) as [|ki l' IH']; [done|].
  cbn [foldr]. by rewrite query_set_display.
Qed.

Lemma cached_getSessionWebviews s (st : State) a b :
  cached (getSessionWebviews s st) a b = cached st a b.
Proof.
  unfold getSessionWebviews.
  destruct (webviewInstances st !! s) as [m|] eqn:Hs; [done|].
  unfold cached. cbn. destruct (decide (a = s)) as [-> | Hne].
  - by rewrite lookup_insert_eq, Hs.
  - by rewrite lookup_insert_ne.
Qed.

(** [renderWebviews] with a selection is the loop run on a state that
    differs from the given one in visibility only. *)
Lemma renderWebviews_loop (st : State) :
  selectedAIs st ≠ [] →
  ∃ st3,
    renderWebviews st = (foldl renderStep (st3, O) (selectedAIs st)).1
    ∧ (∀ a b, panelNodes st3 a b = panelNodes st a b)
    ∧ (∀ a b, cached st3 a b = cached st a b)
    ∧ constructed st3 = constructed st
    ∧ mode st3 = mode st
    ∧ sessionKey st3 = sessionKey st
    ∧ aiConfigs st3 = aiConfigs st.
Proof.
  intros Hsel. unfold renderWebviews, renderSelected.
  destruct (selectedAIs st) as [|k keys] eqn:Hkeys; [done|].
  set (st1 := match placeholder st with Some _ => _ | None => st end).
  assert (H1 : wrappers st1 = wrappers st ∧ webviewInstances st1 = webviewInstances st
               ∧ constructed st1 = constructed st ∧ mode st1 = mode st
               ∧ currentSessionId st1 = currentSessionId st
               ∧ aiConfigs st1 = aiConfigs st ∧ selectedAIs st1 = selectedAIs st).
  { subst st1. by destruct (placeholder st). }
  destruct H1 as (Hw1 & Hc1 & Hn1 & Hm1 & Hs1 & Ha1 & Hsel1).
  set (st2 := hideAll st1).
  set (st3 := getSessionWebviews (sessionKey st2) st2).
  assert (Hsel3 : selectedAIs st3 = k :: keys).
  { subst st3 st2. unfold getSessionWebviews. case_match; cbn; congruence. }
  exists st3. rewrite Hsel3. split; [done|].
  assert (Hnodes : ∀ a b, panelNodes st3 a b = panelNodes st a b).
  { intros a b. transitivity (panelNodes st2 a b).
    - subst st3. unfold getSessionWebviews. by case_match.
    - subst st2. rewrite hideAll_nodes. unfold panelNodes. by rewrite Hw1. }
  assert (Hcached : ∀ a b, cached st3 a b = cached st a b).
  { intros a b. subst st3. rewrite cached_getSessionWebviews.
    subst st2. unfold cached, hideAll. cbn. by rewrite Hc1. }
  split_and!; try done.
  - subst st3 st2. unfold getSessionWebviews. case_match; cbn; congruence.
  - subst st3 st2. unfold getSessionWebviews. case_match; cbn; congruence.
  - unfold sessionKey. f_equal.
    transitivity (currentSessionId st2); [|by subst st2; cbn].
    subst st3. generalize (sessionKey st2). intros s.
    unfold getSessionWebviews. by case_match.
  - subst st3 st2. unfold getSessionWebviews. case_match; cbn; congruence.
Qed.

Lemma holds_transfer (st st' : State) a b i :
  (∀ a b, panelNodes st' a b = panelNodes st a b) →
  (∀ a b, cached st' a b = cached st a b) →
  constructed st' = constructed st →
  holds st a b i → holds st' a b i.
Proof.
  intros Hn Hc Hk (nodes & ? & ? & ? & ?). exists nodes.
  by rewrite Hn, Hc, Hk.
Qed.

Lemma coherent_transfer (st st' : State) a b :
  (∀ a b, panelNodes st' a b = panelNodes st a b) →
  (∀ a b, cached st' a b = cached st a b) →
  constructed st' = constructed st →
  coherent st a b → coherent st' a b.
Proof. intros Hn Hc Hk. unfold coherent. by rewrite Hn, Hc, Hk. Qed.

(** The invariant holds at start-up and is kept by every render. *)
Lemma initial_coherent current selected configs m a b :
  coherent (initial current selected configs m) a b.
Proof. done. Qed.

Lemma renderWebviews_coherent (st : State) :
  (∀ a b, coherent st a b) → ∀ a b, coherent (renderWebviews st) a b.
Proof.
  intros Hall a b.
  destruct (decide (selectedAIs st = [])) as [Hnil | Hsel].
  - unfold renderWebviews. rewrite Hnil.
    apply (coherent_transfer st); [|done|done|done].
    intros a' b'. apply (hideAll_nodes st a' b').
  - destruct (renderWebviews_loop st Hsel) as (st3 & -> & Hn & Hc & Hk & _).
    apply loop_coherent. intros a' b'. cbn.
    by apply (coherent_transfer st).
Qed.

Lemma set_mode_coherent m (st : State) a b :
  coherent st a b → coherent (set_mode m st) a b.
Proof. done. Qed.

(** *** A whole render *)

Lemma selectedAIs_renderOne aiKey index (st : State) :
  selectedAIs (renderOne aiKey index st) = selectedAIs st.
Proof.
  unfold renderOne, recreate, construct, cache.
  by repeat (case_match; simplify_eq/=).
Qed.

Lemma selectedAIs_loop (keys : list string) (acc : State * nat) :
  selectedAIs (foldl renderStep acc keys).1 = selectedAIs acc.1.
Proof.
  revert acc. induction keys as [|k keys IH]; intros acc; [done|]. cbn.
  rewrite IH. unfold renderStep. case_bool_decide; [|done].
  apply selectedAIs_renderOne.
Qed.

Lemma renderWebviews_frame (st : State) :
  selectedAIs st ≠ [] →
  let st' := renderWebviews st in
  sessionKey st' = sessionKey st
  ∧ mode st' = mode st
  ∧ aiConfigs st' = aiConfigs st
  ∧ selectedAIs st' = selectedAIs st.
Proof.
  intros Hsel. cbv zeta.
  assert (Hkeys : selectedAIs (renderWebviews st) = selectedAIs st).
  { unfold renderWebviews, renderSelected.
    destruct (selectedAIs st) as [|k keys] eqn:Hk; [done|].
    rewrite selectedAIs_loop. cbn [fst].
    unfold getSessionWebviews. case_match; cbn; by destruct (placeholder st). }
  destruct (renderWebviews_loop st Hsel) as (st3 & Heq & _ & _ & _ & Hm & Hs & Ha).
  destruct (loop_frame (selectedAIs st) (st3, O)) as (Hs' & Hm' & Ha' & _).
  rewrite Heq in *. cbn [fst] in *. by rewrite Hs', Hm', Ha', Hs, Hm, Ha.
Qed.

(** A selected, configured service comes out of a render with an element
    of the wanted kind in its wrapper and in the cache: the cached one if
    it was suitable, otherwise one built during this render. *)
Lemma renderWebviews_reach (st : State) (k : string) :
  (∀ a b, coherent st a b) → k ∈ selectedAIs st → k ∈ aiConfigs st →
  ∃ i,
    holds (renderWebviews st) (sessionKey st) k i
    ∧ (∀ kd, wanted (mode st) = Some kd → kind i = kd)
    ∧ (∀ i0, cached st (sessionKey st) k = Some i0 →
         (∀ kd, wanted (mode st) = Some kd → kind i0 = kd) → i = i0)
    ∧ (∀ i0 kd, cached st (sessionKey st) k = Some i0 →
         wanted (mode st) = Some kd → kind i0 ≠ kd →
         (constructed st ≤ serial i)%nat).
Proof.
  intros Hall Hin Hconf.
  assert (Hsel : selectedAIs st ≠ []) by (intros E; rewrite E in Hin; by apply elem_of_nil in Hin).
  destruct (renderWebviews_loop st Hsel) as (st3 & -> & Hn & Hc & Hk & Hm & Hs & Ha).
  destruct (loop_reach k (selectedAIs st) (st3, O)) as (i & Hi & Hkind & Hsame & Hnew);
    cbn [fst].
  - by apply (coherent_transfer st).
  - done.
  - by rewrite Ha.
  - cbn [fst] in *. rewrite Hs, Hm, Hc, Hk in *. by exists i.
Qed.

(** A render over a selection whose every configured service already
    holds an element of the wanted kind builds nothing. *)
Lemma renderWebviews_quiet (st : State) :
  selectedAIs st ≠ [] →
  (∀ b, b ∈ selectedAIs st → b ∈ aiConfigs st →
     ∃ i, holds st (sessionKey st) b i
          ∧ ∀ kd, wanted (mode st) = Some kd → kind i = kd) →
  constructed (renderWebviews st) = constructed st.
Proof.
  intros Hsel Hall.
  destruct (renderWebviews_loop st Hsel) as (st3 & -> & Hn & Hc & Hk & Hm & Hs & Ha).
  rewrite loop_quiet; cbn [fst]; [done|].
  intros b Hb Hconf. rewrite Ha in Hconf.
  destruct (Hall b Hb Hconf) as (i & Hi & Hkind).
  exists i. rewrite Hs, Hm. split; [|done]. by apply (holds_transfer st).
Qed.

(** C7: for a selected, configured service of the current session, in a
    renderer whose cache and wrappers agree, a render leaves in the cache
    and in the wrapper one element of the kind the session's mode asks
    for; a second render under the same mode keeps that very element and
    constructs nothing at all, while a render after the mode has changed
    between 'web' and 'api' leaves a different element there, of the
    kind of the new mode, constructed during that render, and the earlier
    element is no longer in the wrapper or the cache. *)
Theorem renderWebviews_reuses_until_mode_changes (st : State) (k : string) :
  (∀ a b, coherent st a b) → k ∈ selectedAIs st → k ∈ aiConfigs st →
  let sid := sessionKey st in
  let st1 := renderWebviews st in
  ∃ i1,
    holds st1 sid k i1
    ∧ (∀ kd, wanted (mode st) = Some kd → kind i1 = kd)
    ∧ (let st2 := renderWebviews st1 in
       holds st2 sid k i1 ∧ constructed st2 = constructed st1)
    ∧ (∀ m2 kd1 kd2,
         wanted (mode st) = Some kd1 → wanted m2 = Some kd2 → kd1 ≠ kd2 →
         let st2 := renderWebviews (set_mode m2 st1) in
         ∃ i2, holds st2 sid k i2
               ∧ i2 ≠ i1
               ∧ kind i2 = kd2
               ∧ (constructed st1 ≤ serial i2)%nat
               ∧ (serial i1 < constructed st1)%nat).
Proof.
  intros Hall Hin Hconf. cbv zeta.
  assert (Hsel : selectedAIs st ≠ []) by (intros E; rewrite E in Hin; by apply elem_of_nil in Hin).
  destruct (renderWebviews_frame st Hsel) as (Hs & Hm & Ha & Hkeys). cbv zeta in *.
  pose proof (renderWebviews_coherent st Hall) as Hall1.
  destruct (renderWebviews_reach st k Hall Hin Hconf) as (i1 & Hi1 & Hkind1 & _ & _).
  assert (Hcache1 : cached (renderWebviews st) (sessionKey st) k = Some i1)
    by (by destruct Hi1 as (? & _ & _ & ? & _)).
  assert (Hser1 : (serial i1 < constructed (renderWebviews st))%nat)
    by (by destruct Hi1 as (? & _ & _ & _ & ?)).
  exists i1. do 2 (split; [done|]). split.
  - (* same mode *)
    split.
    + destruct (renderWebviews_reach (renderWebviews st) k) as (i & Hi & _ & Hsame & _);
        [done|by rewrite Hkeys|by rewrite Ha|].
      rewrite Hs, Hm in *. by rewrite <- (Hsame i1 Hcache1 Hkind1).
    + apply renderWebviews_quiet; [by rewrite Hkeys|].
      intros b Hb Hb'. rewrite Hkeys in Hb. rewrite Ha in Hb'. rewrite Hs, Hm.
      destruct (renderWebviews_reach st b Hall Hb Hb') as (i & Hi & Hkind & _).
      by exists i.
  - (* changed mode *)
    intros m2 kd1 kd2 Hw1 Hw2 Hne.
    destruct (renderWebviews_reach (set_mode m2 (renderWebviews st)) k)
      as (i2 & Hi2 & Hkind2 & _ & Hnew).
    + intros a b. apply set_mode_coherent, Hall1.
    + cbn. by rewrite Hkeys.
    + cbn. by rewrite Ha.
    + change (sessionKey (set_mode m2 (renderWebviews st)))
        with (sessionKey (renderWebviews st)) in *.
      change (cached (set_mode m2 (renderWebviews st)))
        with (cached (renderWebviews st)) in *.
      cbn [mode set_mode constructed] in *. rewrite Hs in *.
      specialize (Hkind1 kd1 Hw1). specialize (Hkind2 kd2 Hw2).
      exists i2. split_and!; try done.
      * intros ->. congruence.
      * apply (Hnew i1 kd2 Hcache1 Hw2). congruence.
Qed.

(** The start-up renderer of session s1 with one selected service in web
    mode. *)
Lemma renderWebviews_reuses_until_mode_changes_witness :
  let st := initial (Some "s1") ["chatgpt"] {["chatgpt"]} (Some "web") in
  let st1 := renderWebviews st in
  ∃ i1,
    holds st1 "s1" "chatgpt" i1
    ∧ (∀ kd, wanted (Some "web") = Some kd → kind i1 = kd)
    ∧ (let st2 := renderWebviews st1 in
       holds st2 "s1" "chatgpt" i1 ∧ constructed st2 = constructed st1)
    ∧ (∀ m2 kd1 kd2,
         wanted (Some "web") = Some kd1 → wanted m2 = Some kd2 → kd1 ≠ kd2 →
         let st2 := renderWebviews (set_mode m2 st1) in
         ∃ i2, holds st2 "s1" "chatgpt" i2
               ∧ i2 ≠ i1
               ∧ kind i2 = kd2
               ∧ (constructed st1 ≤ serial i2)%nat
               ∧ (serial i1 < constructed st1)%nat).
Proof.
  apply (renderWebviews_reuses_until_mode_changes
           (initial (Some "s1") ["chatgpt"] {["chatgpt"]} (Some "web")) "chatgpt").
  - intros a b. apply initial_coherent.
  - cbn. left.
  - cbn. apply elem_of_singleton. reflexivity.
Defined.

(** The same scenario computed: the first render builds webview 0, the
    second builds nothing, the render after the switch to api mode builds
    API panel 1 and puts it in place of the webview. *)
Example render_web_web_api :
  let st1 := renderWebviews (initial (Some "s1") ["chatgpt"] {["chatgpt"]} (Some "web")) in
  let st2 := renderWebviews st1 in
  let st3 := renderWebviews (set_mode (Some "api") st1) in
  cached st1 "s1" "chatgpt" = Some {| serial := 0; kind := Webview; service := "chatgpt" |}
  ∧ cached st2 "s1" "chatgpt" = cached st1 "s1" "chatgpt"
  ∧ constructed st1 = 1%nat ∧ constructed st2 = 1%nat
  ∧ cached st3 "s1" "chatgpt" = Some {| serial := 1; kind := ApiPanel; service := "chatgpt" |}
  ∧ (contents <$> panelNodes st3 "s1" "chatgpt")
    = Some [{| serial := 1; kind := ApiPanel; service := "chatgpt" |}]
  ∧ constructed st3 = 2%nat.
Proof. vm_compute. repeat split. Qed.

End PanelsFacts.

(* ================================================================== *)
(** * Further properties of the session store and the tab strip *)
(* ================================================================== *)

Section SessionsApiFacts.
Import SessionsApi.

(** The session [getCurrentSession()] returns. *)
Lemma getCurrentSession_run (st : State) :
  getCurrentSession st
  = (Normal (match find_by_id (currentSessionId st) (sessions st) with
             | Some s => Some s
             | None => head (sessions st)
             end), st).
Proof. done. Qed.

Lemma find_by_id_cons_same c (s s' : Session) (l : list Session) :
  id s' = id s → find_by_id c (s :: l) = None → find_by_id c (s' :: l) = None.
Proof.
  destruct c as [i|]; [|done]. cbn. intros ->.
  by case_bool_decide.
Qed.

(** After an in-place update that keeps the id, [getCurrentSession()]
    returns the updated object. *)
Lemma current_update_current (f : Session → Session) (st : State) :
  (∀ s, id (f s) = id s) →
  (getCurrentSession (update_current f st)).1
  = Normal (f <$> match find_by_id (currentSessionId st) (sessions st) with
                  | Some s => Some s
                  | None => head (sessions st)
                  end).
Proof.
  intros Hid. rewrite getCurrentSession_run. cbn [fst]. f_equal.
  unfold update_current.
  destruct (find_by_id (currentSessionId st) (sessions st)) as [s|] eqn:Hfind.
  - pose proof (find_by_id_id _ _ _ Hfind) as Hc. cbn [sessions currentSessionId set_sessions].
    rewrite Hc in *. by rewrite (find_by_id_update_found _ _ _ s Hid Hfind).
  - destruct (sessions st) as [|first rest] eqn:Hl.
    + rewrite Hl. by destruct (currentSessionId st).
    + cbn [sessions currentSessionId set_sessions].
      by rewrite (find_by_id_cons_same _ first (f first) rest (Hid first) Hfind).
Qed.


Lemma getApiChatHistory_run aiKey (st : State) :
  getApiChatHistory aiKey st
  = (Normal (default []
               (match find_by_id (currentSessionId st) (sessions st) with
                | Some s => Some s
                | None => head (sessions st)
                end ≫= λ s, history s aiKey)), st).
Proof. done. Qed.

Lemma getApiChatHistory_update aiKey f (st : State) :
  (∀ s, id (f s) = id s) →
  (getApiChatHistory aiKey (update_current f st)).1
  = Normal (default []
              (match find_by_id (currentSessionId st) (sessions st) with
               | Some s => Some s
               | None => head (sessions st)
               end ≫= λ s, history (f s) aiKey)).
Proof.
  intros Hid. pose proof (current_update_current f st Hid) as Hcur.
  rewrite getCurrentSession_run in Hcur. cbn [fst] in Hcur.
  injection Hcur as Hcur.
  rewrite getApiChatHistory_run. cbn [fst]. rewrite Hcur.
  by destruct (match find_by_id (currentSessionId st) (sessions st) with
               | Some s => Some s | None => head (sessions st) end).
Qed.

Lemma add_message_history aiKey r c s :
  history (add_message aiKey r c s) aiKey
  = Some (default [] (history s aiKey) ++ [{| role := r; content := c |}]).
Proof.
  unfold history, add_message. cbn. rewrite lookup_insert_eq.
  by destruct (apiChatHistory s).
Qed.

Lemma add_message_history_ne aiKey r c s k :
  k ≠ aiKey → history (add_message aiKey r c s) k = history s k.
Proof.
  intros Hne. unfold history, add_message. cbn. rewrite lookup_insert_ne by done.
  by destruct (apiChatHistory s).
Qed.

Lemma current_exists (st : State) :
  sessions st ≠ [] →
  ∃ s, match find_by_id (currentSessionId st) (sessions st) with
       | Some s => Some s
       | None => head (sessions st)
       end = Some s.
Proof.
  intros Hne. destruct (find_by_id _ _) as [s|]; [by exists s|].
  destruct (sessions st) as [|s l]; [done|]. by exists s.
Qed.

Lemma update_current_length f (st : State) :
  length (sessions (update_current f st)) = length (sessions st).
Proof.
  unfold update_current.
  destruct (find_by_id _ _) as [s|].
  - cbn. generalize (id s). intros i.
    induction (sessions st) as [|x l IH]; [done|]. cbn.
    case_bool_decide; cbn; by rewrite ?IH.
  - by destruct (sessions st) eqn:E; rewrite ?E.
Qed.

(** X1: [addApiChatMessage] appends to the history that
    [getApiChatHistory] returns for the same service, whatever its
    length: after any number of calls the history is the earlier one
    followed by all the messages, in order -- the accessor applies no
    sliding window -- and the histories of the other services are as
    before. *)
Theorem addApiChatMessage_appends_without_limit
    aiKey (msgs : list Message) (st : State) :
  sessions st ≠ [] →
  let st' :=
    foldl (λ acc m, (addApiChatMessage aiKey (role m) (content m) acc).2) st msgs in
  ∃ before,
    getApiChatHistory aiKey st = (Normal before, st)
    ∧ getApiChatHistory aiKey st' = (Normal (before ++ msgs), st')
    ∧ ∀ k, k ≠ aiKey → (getApiChatHistory k st').1 = (getApiChatHistory k st).1.
Proof.
  revert st. induction msgs as [|m msgs IH]; intros st Hne; cbv zeta.
  { eexists. split; [apply getApiChatHistory_run|]. cbn [foldl].
    rewrite app_nil_r. split; [apply getApiChatHistory_run|done]. }
  cbn [foldl].
  set (st1 := (addApiChatMessage aiKey (role m) (content m) st).2).
  assert (Hst1 : st1 = update_current (add_message aiKey (role m) (content m)) st) by done.
  assert (Hne1 : sessions st1 ≠ []).
  { intros E. apply (f_equal length) in E. rewrite Hst1, update_current_length in E.
    by destruct (sessions st). }
  destruct (IH st1 Hne1) as (before1 & Hb1 & Hafter & Hothers). cbv zeta in *.
  destruct (current_exists st Hne) as [s Hs].
  assert (Hid : ∀ s, id (add_message aiKey (role m) (content m) s) = id s) by done.
  eexists. split; [apply getApiChatHistory_run|].
  rewrite Hs. cbn [mbind option_bind].
  split.
  - rewrite Hafter. f_equal. f_equal.
    assert (Hb : (getApiChatHistory aiKey st1).1 = Normal before1) by (by rewrite Hb1).
    rewrite Hst1, (getApiChatHistory_update _ _ _ Hid), Hs in Hb.
    cbn [mbind option_bind] in Hb. rewrite add_message_history in Hb.
    injection Hb as <-. cbn [default]. rewrite <- app_assoc. by destruct m.
  - intros k Hk. rewrite (Hothers k Hk).
    rewrite Hst1, (getApiChatHistory_update _ _ _ Hid), Hs.
    cbn [mbind option_bind]. rewrite add_message_history_ne by done.
    rewrite getApiChatHistory_run, Hs. done.
Qed.


Lemma addApiChatMessage_appends_without_limit_witness :
  let st := Demo.state [Demo.session "a" 1 ["x"] (Some "api") ∅]
              (Some "a") 1 (Demo.roomy ∅) in
  let msgs := (λ n, Demo.message "user" (pretty n)) <$> seq 1 14 in
  let st' :=
    foldl (λ acc m, (addApiChatMessage "x" (role m) (content m) acc).2) st msgs in
  sessions st ≠ []
  ∧ ∃ before,
      getApiChatHistory "x" st = (Normal before, st)
      ∧ getApiChatHistory "x" st' = (Normal (before ++ msgs), st')
      ∧ ∀ k, k ≠ "x" → (getApiChatHistory k st').1 = (getApiChatHistory k st).1.
Proof.
  split; [done|].
  apply (addApiChatMessage_appends_without_limit "x"
           ((λ n, Demo.message "user" (pretty n)) <$> seq 1 14)
           (Demo.state [Demo.session "a" 1 ["x"] (Some "api") ∅]
              (Some "a") 1 (Demo.roomy ∅))).
  done.
Defined.

(** X2: after [clearApiChatHistory(aiKey)] the history read back for that
    service is empty and the histories of the other services are as
    before; after [clearAllApiChatHistory()] every service reads back an
    empty history.  Both hold in every state, also without a session or
    without a history container. *)
Theorem clearApiChatHistory_empties aiKey (st : State) :
  let st' := (clearApiChatHistory aiKey st).2 in
  let st'' := (clearAllApiChatHistory st).2 in
  (getApiChatHistory aiKey st').1 = Normal []
  ∧ (∀ k, k ≠ aiKey → (getApiChatHistory k st').1 = (getApiChatHistory k st).1)
  ∧ ∀ k, (getApiChatHistory k st'').1 = Normal [].
Proof.
  cbv zeta. unfold clearApiChatHistory, clearAllApiChatHistory, with_current, modify.
  cbn [snd]. split_and!.
  - rewrite getApiChatHistory_update
      by (intros s; by destruct (apiChatHistory s)).
    f_equal.
    destruct (match find_by_id _ _ with Some s => Some s | None => _ end) as [s|];
      [|done].
    cbn [mbind option_bind]. unfold history.
    destruct (apiChatHistory s) as [h|] eqn:Hh; cbn; rewrite ?Hh; cbn; [|done].
    by rewrite lookup_insert_eq.
  - intros k Hk.
    rewrite getApiChatHistory_update
      by (intros s; by destruct (apiChatHistory s)).
    rewrite getApiChatHistory_run. cbn [fst]. f_equal.
    destruct (match find_by_id _ _ with Some s => Some s | None => _ end) as [s|];
      [|done].
    cbn [mbind option_bind]. unfold history.
    destruct (apiChatHistory s) as [h|] eqn:Hh; cbn; rewrite ?Hh; cbn; [|done].
    by rewrite lookup_insert_ne.
  - intros k. rewrite getApiChatHistory_update by done. f_equal.
    by destruct (match find_by_id _ _ with Some s => Some s | None => _ end).
Qed.

Lemma getSessionChatUrl_run aiKey (st : State) :
  getSessionChatUrl aiKey st
  = (Normal (or_null
               (match find_by_id (currentSessionId st) (sessions st) with
                | Some s => Some s
                | None => head (sessions st)
                end ≫= λ s, chatUrls s ≫= λ u, u !! aiKey)), st).
Proof. done. Qed.

(** X3: a chat URL stored with [updateSessionChatUrl] is read back by
    [getSessionChatUrl] for the same service, except that an empty URL
    reads back as [null]; the URLs of the other services are as before. *)
Theorem updateSessionChatUrl_round_trip aiKey url (st : State) :
  sessions st ≠ [] →
  let st' := (updateSessionChatUrl aiKey url st).2 in
  (getSessionChatUrl aiKey st').1
  = Normal (if String.eqb url "" then None else Some url)
  ∧ ∀ k, k ≠ aiKey → (getSessionChatUrl k st').1 = (getSessionChatUrl k st).1.
Proof.
  intros Hne. cbv zeta.
  unfold updateSessionChatUrl, with_current, modify. cbn [snd].
  set (f := λ s, set_chatUrls (Some (<[aiKey := url]> (default ∅ (chatUrls s)))) s).
  assert (Hid : ∀ s, id (f s) = id s) by done.
  pose proof (current_update_current f st Hid) as Hcur.
  rewrite getCurrentSession_run in Hcur. cbn [fst] in Hcur. injection Hcur as Hcur.
  destruct (current_exists st Hne) as [s Hs].
  split.
  - rewrite getSessionChatUrl_run. cbn [fst]. rewrite Hcur, Hs. cbn.
    rewrite lookup_insert_eq. unfold or_null, truthy. by destruct (String.eqb url "").
  - intros k Hk. rewrite !getSessionChatUrl_run. cbn [fst]. rewrite Hcur, Hs. cbn.
    rewrite lookup_insert_ne by done. by destruct (chatUrls s).
Qed.

Lemma updateSessionChatUrl_round_trip_witness :
  let st := Demo.state [Demo.session "a" 1 ["x"] (Some "web") ∅]
              (Some "gone") 1 (Demo.roomy ∅) in
  let st' := (updateSessionChatUrl "x" "https://chat.example/c/1" st).2 in
  sessions st ≠ []
  ∧ (getSessionChatUrl "x" st').1 = Normal (Some "https://chat.example/c/1")
  ∧ ∀ k, k ≠ "x" → (getSessionChatUrl k st').1 = (getSessionChatUrl k st).1.
Proof.
  split; [done|].
  apply (updateSessionChatUrl_round_trip "x" "https://chat.example/c/1"
           (Demo.state [Demo.session "a" 1 ["x"] (Some "web") ∅]
              (Some "gone") 1 (Demo.roomy ∅))).
  done.
Defined.

End SessionsApiFacts.

Section StoreFacts.
Context `{Builtins}.

Lemma trim_history_zero (h : list Message) : trim_history 0 h = h.
Proof. unfold trim_history, slice_last. by case_bool_decide. Qed.

Lemma trim_session_zero (s : Session) : trim_session 0 s = s.
Proof.
  unfold trim_session. destruct s as [? ? ? ? ? ? [h|] ? ?]; cbn; [|done].
  unfold set_apiChatHistory; cbn. do 2 f_equal.
  rewrite <- (map_fmap_id h) at 2. apply map_fmap_ext.
  intros ? ? _. apply trim_history_zero.
Qed.

Lemma trim_history_bound n (h : list Message) :
  (0 < n)%nat → (length (trim_history n h) ≤ n)%nat.
Proof.
  intros Hn. unfold trim_history, slice_last. case_bool_decide; [|lia].
  destruct n; [lia|]. rewrite length_drop. lia.
Qed.

Lemma existsb_session_frees n (l : list Session) :
  existsb (session_frees n) l = true
  ↔ ∃ s k h, s ∈ l ∧ history s k = Some h ∧ (n < length h)%nat.
Proof.
  rewrite existsb_exists. split.
  - intros (s & Hin & Hs). apply session_frees_spec in Hs as (k & h & ? & ?).
    exists s, k, h. by rewrite list_elem_of_In.
  - intros (s & k & h & Hin & ? & ?). exists s. rewrite <- list_elem_of_In.
    split; [done|]. apply session_frees_spec. eauto.
Qed.

(** X4: for a positive bound, [trimAllApiHistory(n)] reports [true]
    exactly when some history is longer than [n]; afterwards no history
    of any session is longer than [n], and calling it again reports
    [false] and changes nothing. *)
Theorem trimAllApiHistory_idempotent n (st : State) :
  (0 < n)%nat →
  ∃ freed st',
    trimAllApiHistory n st = (Normal freed, st')
    ∧ (freed = true
       ↔ ∃ s k h, s ∈ sessions st ∧ history s k = Some h ∧ (n < length h)%nat)
    ∧ (∀ s k h, s ∈ sessions st' → history s k = Some h → (length h ≤ n)%nat)
    ∧ trimAllApiHistory n st' = (Normal false, st').
Proof.
  intros Hn. eexists _, _. split; [reflexivity|]. cbn [sessions set_sessions].
  assert (Hbound : ∀ s k h, s ∈ map (trim_session n) (sessions st) →
                     history s k = Some h → (length h ≤ n)%nat).
  { intros s k h Hs Hh. apply list_elem_of_fmap in Hs as (s0 & -> & _).
    rewrite trim_session_history in Hh.
    destruct (history s0 k) as [h0|]; [|done]. injection Hh as <-.
    by apply trim_history_bound. }
  split_and!.
  - apply existsb_session_frees.
  - done.
  - unfold trimAllApiHistory. step. cbn [sessions set_sessions]. f_equal.
    + f_equal. apply not_true_is_false. rewrite existsb_session_frees.
      intros (s & k & h & Hs & Hh & Hlen). specialize (Hbound s k h Hs Hh). lia.
    + unfold set_sessions. cbn. f_equal.
      rewrite <- list_fmap_compose. apply list_fmap_ext. intros ? s _. cbn.
      apply trim_session_idem.
Qed.

Lemma trimAllApiHistory_idempotent_witness :
  let h := {[ "x" := (λ n, Demo.message "user" (pretty n)) <$> seq 1 8 ]} in
  let st := Demo.state [Demo.session "a" 1 ["x"] (Some "api") h]
              (Some "a") 1 (Demo.roomy ∅) in
  (0 < 6)%nat
  ∧ ∃ freed st',
      trimAllApiHistory 6 st = (Normal freed, st')
      ∧ (freed = true
         ↔ ∃ s k h, s ∈ sessions st ∧ history s k = Some h ∧ (6 < length h)%nat)
      ∧ (∀ s k h, s ∈ sessions st' → history s k = Some h → (length h ≤ 6)%nat)
      ∧ trimAllApiHistory 6 st' = (Normal false, st').
Proof.
  split; [lia|].
  apply (trimAllApiHistory_idempotent 6
           (Demo.state
              [Demo.session "a" 1 ["x"] (Some "api")
                 {[ "x" := (λ n, Demo.message "user" (pretty n)) <$> seq 1 8 ]}]
              (Some "a") 1 (Demo.roomy ∅))).
  lia.
Defined.

(** X5: with the bound 0 the test [history.length > 0] fires for every
    non-empty history, but [slice(-0)] keeps the whole array:
    [trimAllApiHistory(0)] reports that it freed space exactly when some
    history is non-empty, and leaves every session as it was. *)
Theorem trimAllApiHistory_zero_trims_nothing (st : State) :
  ∃ freed,
    trimAllApiHistory 0 st = (Normal freed, st)
    ∧ (freed = true ↔ ∃ s k h, s ∈ sessions st ∧ history s k = Some h ∧ h ≠ []).
Proof.
  eexists. split.
  - unfold trimAllApiHistory. step. f_equal.
    rewrite (List.map_ext (trim_session 0) Datatypes.id)
      by (intros; apply trim_session_zero).
    rewrite List.map_id. by destruct st.
  - rewrite existsb_session_frees. split.
    + intros (s & k & h & ? & ? & Hlen). exists s, k, h. split_and!; try done.
      intros ->. cbn in Hlen. lia.
    + intros (s & k & h & ? & ? & Hh). exists s, k, h. split_and!; try done.
      destruct h; [done|]. cbn. lia.
Qed.

(** X6: [removeSession(id)] returns [false] and changes nothing when no
    session carries the id; otherwise it returns [true] and removes the
    first session carrying it, keeping all the others in their order. *)
Theorem removeSession_removes_first_match sessionId (st : State) :
  ((∀ s, s ∈ sessions st → id s ≠ sessionId) →
     removeSession sessionId st = (Normal false, st))
  ∧ (∀ l1 s l2,
       sessions st = l1 ++ s :: l2 → id s = sessionId →
       (∀ x, x ∈ l1 → id x ≠ sessionId) →
       removeSession sessionId st = (Normal true, set_sessions (l1 ++ l2) st)).
Proof.
  unfold removeSession. step. split.
  - intros Hnone.
    assert (remove_first_by_id sessionId (sessions st) = None) as ->; [|done].
    induction (sessions st) as [|x l IH]; [done|]. cbn.
    rewrite bool_decide_eq_false_2 by (apply Hnone; left).
    rewrite IH; [done|]. intros s Hs. apply Hnone. by right.
  - intros l1 s l2 Hl Hs Hl1.
    assert (remove_first_by_id sessionId (sessions st) = Some (l1 ++ l2)) as ->; [|done].
    rewrite Hl. clear Hl. induction l1 as [|x l1 IH]; cbn.
    + by rewrite bool_decide_eq_true_2.
    + rewrite bool_decide_eq_false_2 by (apply Hl1; left).
      rewrite IH; [done|]. intros y Hy. apply Hl1. by right.
Qed.

End StoreFacts.

Section PersistenceFacts.
Context `{Builtins}.

Lemma save_accepting_items (st : State) :
  (∀ m k v, refuses (localStorage st) m k v = None) →
  ∃ st', saveSessionsToStorage None st = (Normal tt, st')
    ∧ sessions st' = sessions st
    ∧ currentSessionId st' = currentSessionId st
    ∧ sessionCounter st' = sessionCounter st
    ∧ items (localStorage st')
      = <[STORAGE_KEYS_SESSION_COUNTER := toString (sessionCounter st)]>
          (<[STORAGE_KEYS_CURRENT_SESSION := String_of (currentSessionId st)]>
             (<[STORAGE_KEYS_SESSIONS := JSON_stringify (sessions st)]>
                (items (localStorage st)))).
Proof.
  intros Hacc.
  unfold saveSessionsToStorage, save_attempt, save_recover, write_sessions,
    call_onAfterSave, trimAllApiHistory.
  step. unfold setItem.
  repeat (rewrite Hacc; cbn [localStorage set_localStorage emit refuses items]).
  repeat (case_match; simplify_eq/=; step); eauto 10.
Qed.

(** X7: on a store that accepts every write, [saveSessionsToStorage()]
    returns normally -- also when the after-save hook throws -- leaves the
    session list, the pointer and the counter as they are, and writes
    exactly three items: the serialised list, the pointer (the text
    "null" for a null pointer) and the counter; every other item of
    localStorage is untouched. *)
Theorem saveSessionsToStorage_writes_three_items (st : State) :
  (∀ m k v, refuses (localStorage st) m k v = None) →
  ∃ st',
    saveSessionsToStorage None st = (Normal tt, st')
    ∧ sessions st' = sessions st
    ∧ currentSessionId st' = currentSessionId st
    ∧ sessionCounter st' = sessionCounter st
    ∧ getItem "oneprompt-sessions" (localStorage st')
      = Some (JSON_stringify (sessions st))
    ∧ getItem "oneprompt-current-session" (localStorage st')
      = Some (default "null" (currentSessionId st))
    ∧ getItem "oneprompt-session-counter" (localStorage st')
      = Some (toString (sessionCounter st))
    ∧ ∀ k, k ∉ ["oneprompt-sessions"; "oneprompt-current-session";
                "oneprompt-session-counter"] →
        getItem k (localStorage st') = getItem k (localStorage st).
Proof.
  intros Hacc.
  destruct (save_accepting_items st Hacc) as (st' & Hrun & Hs & Hc & Hn & Hitems).
  exists st'. unfold getItem. rewrite Hitems.
  unfold STORAGE_KEYS_SESSION_COUNTER, STORAGE_KEYS_CURRENT_SESSION,
    STORAGE_KEYS_SESSIONS.
  split_and!; try done.
  - by rewrite !lookup_insert_ne, lookup_insert_eq by done.
  - by rewrite lookup_insert_ne, lookup_insert_eq by done.
  - by rewrite lookup_insert_eq.
  - intros k Hk. rewrite !not_elem_of_cons in Hk. destruct Hk as (? & ? & ? & _).
    by rewrite !lookup_insert_ne.
Qed.


Lemma pretty_N_go_nonempty x s : s ≠ "" → pretty_N_go x s ≠ "".
Proof.
  revert s. induction (N.lt_wf_0 x) as [x _ IH]; intros s Hs.
  assert (x = 0 ∨ 0 < x)%N as [->|?] by lia; [done|].
  rewrite pretty_N_go_step by done. apply IH; [by apply N.div_lt|done].
Qed.

Lemma pretty_N_nonempty (x : N) : pretty x ≠ "".
Proof.
  unfold pretty, pretty_N. case_decide; [done|].
  rewrite pretty_N_go_step by lia. by apply pretty_N_go_nonempty.
Qed.

Lemma toString_nonempty (n : JsNumber) : toString n ≠ "".
Proof.
  destruct n as [[|p|p]|]; try done.
  - apply (pretty_N_nonempty (Npos p)).
Qed.

Lemma truthy_Some s : s ≠ "" → truthy (Some s) = true.
Proof.
  intros Hs. unfold truthy. destruct (String.eqb_spec s ""); done.
Qed.

(** X8: what [saveSessionsToStorage] wrote is what
    [loadSessionsFromStorage] reads: for a store whose sessions are
    numbered and whose pointer names one of them, saved to a localStorage
    that accepts the writes, a later load -- from any module state that
    sees this localStorage -- returns and installs the same session list,
    pointer and counter.  [JSON.parse] is assumed to invert
    [JSON.stringify] on the list, and [parseInt] the counter text. *)
Theorem save_then_load_restores_store
    ticks options (st st0 : State) (current : string) :
  (∀ m k v, refuses (localStorage st) m k v = None) →
  JSON_stringify (sessions st) ≠ "" →
  JSON_parse (JSON_stringify (sessions st)) = SessionArray (sessions st) →
  parseInt (toString (sessionCounter st)) = sessionCounter st →
  (∀ s, s ∈ sessions st → lacks_number s = false) →
  currentSessionId st = Some current →
  current ∈ id <$> sessions st →
  localStorage st0 = localStorage (saveSessionsToStorage None st).2 →
  ∃ st',
    loadSessionsFromStorage ticks options st0
    = (Normal (sessions st, currentSessionId st, sessionCounter st), st')
    ∧ sessions st' = sessions st
    ∧ currentSessionId st' = currentSessionId st
    ∧ sessionCounter st' = sessionCounter st.
Proof.
  intros Hacc Htext Hparse Hint Hnum Hcur Hin Hls.
  destruct (save_accepting_items st Hacc) as (st1 & Hrun & _ & _ & _ & Hitems).
  rewrite Hrun in Hls. cbn [snd] in Hls.
  assert (Hget : ∀ k, getItem k (localStorage st0) = items (localStorage st1) !! k)
    by (intros k; by rewrite Hls).
  rewrite Hitems in Hget.
  unfold STORAGE_KEYS_SESSION_COUNTER, STORAGE_KEYS_CURRENT_SESSION,
    STORAGE_KEYS_SESSIONS in Hget.
  assert (Hfind : ∃ s, find_by_id (Some current) (sessions st) = Some s).
  { apply list_elem_of_fmap in Hin as (s & -> & Hs).
    cbn. destruct (List.find _ _) as [s'|] eqn:Hf; [by exists s'|].
    apply list_elem_of_In in Hs. apply (find_none _ _ Hf s) in Hs.
    by rewrite bool_decide_eq_true_2 in Hs. }
  destruct Hfind as [s Hfind].
  assert (Hne : ∃ first rest, sessions st = first :: rest).
  { destruct (sessions st) as [|a l]; [|by eauto].
    by apply elem_of_nil in Hin. }
  destruct Hne as (first & rest & Hl).
  unfold loadSessionsFromStorage, read_stored. step.
  rewrite !Hget.
  unfold STORAGE_KEYS_SESSION_COUNTER, STORAGE_KEYS_CURRENT_SESSION,
    STORAGE_KEYS_SESSIONS.
  rewrite !lookup_insert_ne, lookup_insert_eq by done.
  rewrite (truthy_Some _ Htext). cbn [default from_option Datatypes.id]. rewrite Hparse. step.
  cbn [localStorage set_sessions set_currentSessionId set_sessionCounter emit].
  rewrite !Hget.
  rewrite !lookup_insert_eq.
  rewrite lookup_insert_ne, lookup_insert_eq by done.
  rewrite (truthy_Some _ (toString_nonempty _)). cbn [default from_option Datatypes.id]. rewrite Hint.
  cbn [sessions currentSessionId sessionCounter set_sessions set_currentSessionId
       set_sessionCounter emit].
  rewrite Hcur. cbn [String_of default from_option Datatypes.id]. rewrite Hl in *. rewrite Hfind. step.
  cbn [sessions currentSessionId sessionCounter set_sessions set_currentSessionId
       set_sessionCounter emit].
  rewrite (number_missing_fixed _ Hnum).
  eexists. split; [reflexivity|]. done.
Qed.


(** X9: histories are trimmed on quota errors only.  If localStorage
    never refuses a write with a quota error -- it may refuse with any
    other error -- [saveSessionsToStorage()] returns normally and leaves
    the session list, the pointer and the counter exactly as they were,
    whatever the after-save hook does. *)
Theorem saveSessionsToStorage_trims_only_on_quota (st : State) :
  (∀ m k v e, refuses (localStorage st) m k v = Some e → is_quota_error e = false) →
  ∃ st',
    saveSessionsToStorage None st = (Normal tt, st')
    ∧ sessions st' = sessions st
    ∧ currentSessionId st' = currentSessionId st
    ∧ sessionCounter st' = sessionCounter st.
Proof.
  intros Hother.
  unfold saveSessionsToStorage, save_attempt, save_recover, write_sessions,
    call_onAfterSave.
  step. unfold setItem.
  cbn [localStorage set_localStorage emit refuses items sessions currentSessionId
       sessionCounter].
  destruct (refuses (localStorage st) (items (localStorage st)) _ _) as [e1|] eqn:H1.
  { step. rewrite (Hother _ _ _ _ H1). step. eauto. }
  step. cbn [localStorage set_localStorage emit refuses items sessions
             currentSessionId sessionCounter].
  destruct (refuses (localStorage st) _ STORAGE_KEYS_CURRENT_SESSION _) as [e2|] eqn:H2.
  { step. rewrite (Hother _ _ _ _ H2). step. eauto. }
  step. cbn [localStorage set_localStorage emit refuses items sessions
             currentSessionId sessionCounter].
  destruct (refuses (localStorage st) _ STORAGE_KEYS_SESSION_COUNTER _) as [e3|] eqn:H3.
  { step. rewrite (Hother _ _ _ _ H3). step. eauto. }
  step. cbn [localStorage set_localStorage emit refuses items sessions
             currentSessionId sessionCounter onAfterSave].
  destruct (onAfterSave st) as [[|e]|]; step; eauto.
Qed.

(** X10: when the write of the session list itself is refused with a
    quota error, the call writes nothing but the session list: the
    pointer and the counter are not part of the retry, so every item of
    localStorage other than the session list -- among them the stored
    pointer and counter -- is what it was before the call, whether or not
    the retry succeeds. *)
Theorem quota_recovery_writes_only_the_session_list (st : State) (e : JsError) :
  refuses (localStorage st) (items (localStorage st))
    STORAGE_KEYS_SESSIONS (JSON_stringify (sessions st)) = Some e →
  is_quota_error e = true →
  ∃ st',
    saveSessionsToStorage None st = (Normal tt, st')
    ∧ ∀ k, k ≠ "oneprompt-sessions" →
        getItem k (localStorage st') = getItem k (localStorage st).
Proof.
  intros Hrefused Hquota.
  unfold saveSessionsToStorage, save_attempt, write_sessions.
  step. unfold setItem at 1. rewrite Hrefused. step.
  rewrite (save_recover_quota e _ Hquota). cbv zeta.
  eexists. split; [reflexivity|]. intros k Hk.
  cbn [localStorage set_localStorage emit refuses items sessions set_sessions].
  destruct (existsb _ _); [|done].
  destruct (setItem _ _ _) as [retryError|ls] eqn:Hset; cbn; [done|].
  unfold setItem in Hset. case_match; simplify_eq.
  unfold getItem. cbn. by rewrite lookup_insert_ne.
Qed.

End PersistenceFacts.

Section PersistenceExamples.

Lemma saveSessionsToStorage_writes_three_items_witness :
  let st := Demo.state [Demo.session "a" 1 ["x"] (Some "web") ∅] None 1 (Demo.roomy ∅) in
  (∀ m k v, refuses (localStorage st) m k v = None)
  ∧ ∃ st',
      saveSessionsToStorage (H := Demo.host []) None st = (Normal tt, st')
      ∧ sessions st' = sessions st
      ∧ currentSessionId st' = currentSessionId st
      ∧ sessionCounter st' = sessionCounter st
      ∧ getItem "oneprompt-sessions" (localStorage st')
        = Some (Demo.stringify (sessions st))
      ∧ getItem "oneprompt-current-session" (localStorage st') = Some "null"
      ∧ getItem "oneprompt-session-counter" (localStorage st') = Some "1"
      ∧ ∀ k, k ∉ ["oneprompt-sessions"; "oneprompt-current-session";
                  "oneprompt-session-counter"] →
          getItem k (localStorage st') = getItem k (localStorage st).
Proof.
  split; [done|].
  apply (saveSessionsToStorage_writes_three_items (H := Demo.host [])
           (Demo.state [Demo.session "a" 1 ["x"] (Some "web") ∅] None 1 (Demo.roomy ∅))).
  done.
Defined.


Lemma save_then_load_restores_store_witness :
  let l := [Demo.session "a" 1 ["x"] (Some "web") ∅; Demo.session "b" 2 [] None ∅] in
  let host := Demo.host [(Demo.stringify l, l)] in
  let st := Demo.state l (Some "b") 2 (Demo.roomy ∅) in
  let st0 := Demo.state [] None 0
               (localStorage (saveSessionsToStorage (H := host) None st).2) in
  JSON_parse (Builtins := host) (JSON_stringify (Builtins := host) l) = SessionArray l
  ∧ parseInt (Builtins := host) "2" = JNum 2
  ∧ ∃ st',
      loadSessionsFromStorage (H := host) (9, 9)
        {| defaultServices := None; defaultMode := None |} st0
      = (Normal (l, Some "b", JNum 2), st')
      ∧ sessions st' = l
      ∧ currentSessionId st' = Some "b"
      ∧ sessionCounter st' = JNum 2.
Proof.
  split; [reflexivity|]. split; [reflexivity|].
  apply (save_then_load_restores_store
           (H := Demo.host
                   [(Demo.stringify
                       [Demo.session "a" 1 ["x"] (Some "web") ∅;
                        Demo.session "b" 2 [] None ∅],
                     [Demo.session "a" 1 ["x"] (Some "web") ∅;
                      Demo.session "b" 2 [] None ∅])])
           (9, 9) {| defaultServices := None; defaultMode := None |}
           (Demo.state [Demo.session "a" 1 ["x"] (Some "web") ∅;
                        Demo.session "b" 2 [] None ∅]
              (Some "b") 2 (Demo.roomy ∅))
           _ "b").
  - done.
  - done.
  - reflexivity.
  - reflexivity.
  - intros s Hs. cbn in Hs.
    repeat (apply elem_of_cons in Hs as [->|Hs]; [done|]).
    by apply elem_of_nil in Hs.
  - reflexivity.
  - cbn. right. left.
  - reflexivity.
Defined.

Lemma saveSessionsToStorage_trims_only_on_quota_witness :
  let denied := {| err_name := "SecurityError"; err_message := "access is denied" |} in
  let h := {[ "x" := (λ n, Demo.message "user" (pretty n)) <$> seq 1 8 ]} in
  let st := Demo.state [Demo.session "a" 1 ["x"] (Some "api") h] (Some "a") 1
              {| items := ∅; refuses := λ _ _ _, Some denied |} in
  (∀ m k v e, refuses (localStorage st) m k v = Some e → is_quota_error e = false)
  ∧ ∃ st',
      saveSessionsToStorage (H := Demo.host []) None st = (Normal tt, st')
      ∧ sessions st' = sessions st
      ∧ currentSessionId st' = currentSessionId st
      ∧ sessionCounter st' = sessionCounter st.
Proof.
  split; [by intros m k v e [= <-]|].
  apply (saveSessionsToStorage_trims_only_on_quota (H := Demo.host [])
           (Demo.state
              [Demo.session "a" 1 ["x"] (Some "api")
                 {[ "x" := (λ n, Demo.message "user" (pretty n)) <$> seq 1 8 ]}]
              (Some "a") 1
              {| items := ∅;
                 refuses := λ _ _ _,
                   Some {| err_name := "SecurityError";
                           err_message := "access is denied" |} |})).
  by intros m k v e [= <-].
Defined.

Lemma quota_recovery_writes_only_the_session_list_witness :
  let h := {[ "x" := (λ n, Demo.message "user" (pretty n)) <$> seq 1 8 ]} in
  let st := Demo.state [Demo.session "a" 1 ["x"] (Some "api") h] (Some "a") 7
              (Demo.limited 140 {[ "oneprompt-current-session" := "old";
                                   "oneprompt-session-counter" := "3" ]}) in
  is_quota_error Demo.QuotaExceededError = true
  ∧ ∃ st',
      saveSessionsToStorage (H := Demo.host []) None st = (Normal tt, st')
      ∧ ∀ k, k ≠ "oneprompt-sessions" →
          getItem k (localStorage st') = getItem k (localStorage st).
Proof.
  split; [reflexivity|].
  apply (quota_recovery_writes_only_the_session_list (H := Demo.host [])
           (Demo.state
              [Demo.session "a" 1 ["x"] (Some "api")
                 {[ "x" := (λ n, Demo.message "user" (pretty n)) <$> seq 1 8 ]}]
              (Some "a") 7
              (Demo.limited 140 {[ "oneprompt-current-session" := "old";
                                   "oneprompt-session-counter" := "3" ]}))
           Demo.QuotaExceededError).
  - vm_compute. reflexivity.
  - reflexivity.
Defined.

End PersistenceExamples.

Section TabsFacts.
Context `{Builtins}.
Import TabsEvents.

(** The first session carrying an id splits the list. *)
Lemma first_with_id i (l : list Session) :
  i ∈ id <$> l →
  ∃ l1 s l2, l = l1 ++ s :: l2 ∧ id s = i ∧ ∀ x, x ∈ l1 → id x ≠ i.
Proof.
  induction l as [|x l IH]; [by intros ?%elem_of_nil|].
  destruct (decide (id x = i)) as [Hx|Hx].
  - intros _. exists [], x, l. split_and!; [done|done|]. by intros ? ?%elem_of_nil.
  - intros [?|Hin]%elem_of_cons; [done|].
    destruct (IH Hin) as (l1 & s & l2 & -> & Hs & Hl1).
    exists (x :: l1), s, l2. split_and!; [done|done|].
    intros y [->|Hy]%elem_of_cons; [done|by apply Hl1].
Qed.

Lemma list_find_first i (l1 l2 : list Session) s :
  id s = i → (∀ x, x ∈ l1 → id x ≠ i) →
  list_find (λ s, id s = i) (l1 ++ s :: l2) = Some (length l1, s).
Proof.
  intros Hs Hl1. apply list_find_Some. split_and!.
  - by rewrite lookup_app_r, Nat.sub_diag by lia.
  - done.
  - intros j y Hj Hlt. rewrite lookup_app_l in Hj by done.
    apply Hl1. by eapply list_elem_of_lookup_2.
Qed.

Lemma remove_first_by_id_first i (l1 l2 : list Session) s :
  id s = i → (∀ x, x ∈ l1 → id x ≠ i) →
  remove_first_by_id i (l1 ++ s :: l2) = Some (l1 ++ l2).
Proof.
  intros Hs Hl1. induction l1 as [|x l1 IH]; cbn.
  - by rewrite bool_decide_eq_true_2.
  - rewrite bool_decide_eq_false_2 by (apply Hl1; left).
    rewrite IH; [done|]. intros y Hy. apply Hl1. by right.
Qed.

Lemma find_by_id_elem i (l : list Session) :
  i ∈ id <$> l ↔ is_Some (find_by_id (Some i) l).
Proof.
  split.
  - intros (s & -> & Hs)%list_elem_of_fmap. cbn.
    destruct (List.find _ _) as [s'|] eqn:Hf; [done|].
    apply list_elem_of_In in Hs. apply (find_none _ _ Hf s) in Hs.
    by rewrite bool_decide_eq_true_2 in Hs.
  - intros [s Hs]. apply find_by_id_Some in Hs as [Hin [= ->]].
    by apply list_elem_of_fmap_2.
Qed.

Lemma trim_ids n (l : list Session) : id <$> map (trim_session n) l = id <$> l.
Proof.
  induction l as [|x l IH]; [done|]. cbn. by rewrite trim_session_id, IH.
Qed.

(** What the closing sequence [saveSessionsToStorage(); renderTabs(); ...]
    can do to the store. *)
Lemma save_ids (st : State) :
  ∃ st', saveSessionsToStorage None st = (Normal tt, st')
    ∧ currentSessionId st' = currentSessionId st
    ∧ id <$> sessions st' = id <$> sessions st
    ∧ promptDraft <$> sessions st' = promptDraft <$> sessions st.
Proof.
  destruct (save_result st) as (st' & Hsave & Hcur & _ & _ & Hs).
  exists st'. split_and!; [done|done| |].
  - destruct Hs as [-> | ->]; [done|apply trim_ids].
  - destruct Hs as [-> | ->]; [done|].
    induction (sessions st) as [|x l IH]; [done|]. cbn. rewrite IH. f_equal.
    unfold trim_session. by destruct (apiChatHistory x).
Qed.

(** X11: closing a tab keeps the store usable.  When [closeSession] is
    given the id of a session and the pointer names a session, it returns
    normally, the list is one shorter but never empty (closing the last
    tab opens a new one), and the pointer still names a session of the
    list. *)
Theorem closeSession_keeps_a_current_session ticks sessionId (st : State) :
  sessionId ∈ id <$> sessions st →
  (∃ c, currentSessionId st = Some c ∧ c ∈ id <$> sessions st) →
  ∃ st',
    closeSession ticks sessionId st = (Normal tt, st')
    ∧ length (sessions st') = Nat.max 1 (length (sessions st) - 1)
    ∧ ∃ c', currentSessionId st' = Some c' ∧ c' ∈ id <$> sessions st'.
Proof.
  intros Hin (c & Hc & Hcin).
  destruct (first_with_id _ _ Hin) as (l1 & s & l2 & Hl & Hs & Hl1).
  unfold closeSession, removeSession. step.
  rewrite Hl, (list_find_first _ _ _ _ Hs Hl1).
  cbn [sessions emit]. rewrite Hl, (remove_first_by_id_first _ _ _ _ Hs Hl1).
  step. cbn [sessions currentSessionId set_sessions emit].
  destruct (l1 ++ l2) as [|y rest] eqn:Hrest.
  - (* the last tab was closed *)
    step. rewrite createSession_run. step.
    set (s0 := Build_Session _ _ _ _ _ _ _ _ _).
    set (st2 := emit _ _).
    assert (Hs2 : sessions st2 = [s0]) by done.
    assert (Hc2 : currentSessionId st2 = Some (id s0)) by done.
    destruct (save_ids st2) as (st3 & Hsave & Hcur3 & Hids3 & _).
    rewrite Hsave. step. eexists. split; [reflexivity|].
    cbn [sessions currentSessionId emit].
    apply (f_equal length) in Hids3 as Hlen. rewrite !length_fmap in Hlen.
    rewrite Hlen, Hcur3, Hids3, Hs2, Hc2.
    apply app_eq_nil in Hrest as [-> ->]. split; [done|].
    eexists. split; [reflexivity|]. cbn. left.
  - (* other tabs remain *)
    assert (Hlen : length (l1 ++ s :: l2) = S (length (y :: rest))).
    { rewrite <- Hrest, !length_app. cbn. lia. }
    assert (Hgoal : ∀ st2 : State,
              sessions st2 = y :: rest →
              (∃ c', currentSessionId st2 = Some c' ∧ c' ∈ id <$> sessions st2) →
              ∃ st',
                (let (c0, st'0) := saveSessionsToStorage None st2 in
                 match c0 with
                 | Normal _ =>
                     (Normal tt,
                      emit (Call "updateCrossCheckVisibility" [])
                        (emit (Call "updateCopyButton" [])
                           (emit (Call "renderWebviews" [])
                              (emit (Call "renderSidebar" [])
                                 (emit (Call "renderTabs" []) st'0)))))
                 | Throw e => (Throw e, st'0)
                 end) = (Normal tt, st')
                ∧ length (sessions st') = Nat.max 1 (length (l1 ++ s :: l2) - 1)
                ∧ ∃ c', currentSessionId st' = Some c' ∧ c' ∈ id <$> sessions st').
    { intros st2 Hs2 Hvalid.
      destruct (save_ids st2) as (st3 & Hsave & Hcur3 & Hids3 & _).
      rewrite Hsave. eexists. split; [reflexivity|].
      cbn [sessions currentSessionId emit].
      apply (f_equal length) in Hids3 as Hlen3. rewrite !length_fmap in Hlen3.
      rewrite Hlen3, Hcur3, Hids3, Hs2, Hlen. split; [cbn; lia|].
      by rewrite Hs2 in Hvalid. }
    case_bool_decide as Hcurrent.
    + destruct ((y :: rest) !! (length l1 - 1)%nat) as [n|] eqn:Hn.
      * step. apply Hgoal; [done|].
        cbn [sessions currentSessionId set_currentSessionId emit set_sessions].
        exists (id n). split; [done|].
        apply list_elem_of_fmap_2. by eapply list_elem_of_lookup_2.
      * step. apply lookup_ge_None in Hn.
        apply (f_equal length) in Hrest. rewrite length_app in Hrest.
        cbn in Hrest, Hn. lia.
    + step. apply Hgoal; [done|].
      cbn [sessions currentSessionId set_currentSessionId emit set_sessions].
      exists c. split; [done|].
      assert (c ≠ sessionId) by congruence.
      rewrite Hl in Hcin. rewrite <- Hrest.
      rewrite fmap_app in *. cbn in Hcin.
      rewrite elem_of_app, elem_of_cons in Hcin. rewrite elem_of_app.
      destruct Hcin as [?|[?|?]]; [by left|congruence|by right].
Qed.


(** X12: which tab becomes current.  Closing the current tab selects
    its left neighbour, or the tab that followed it when it was the
    first; closing any other tab leaves the pointer alone.  In both
    cases the remaining sessions keep their order. *)
Theorem closeSession_selects_left_neighbour ticks (st : State) l1 s l2 :
  sessions st = l1 ++ s :: l2 →
  (∀ x, x ∈ l1 → id x ≠ id s) →
  l1 ++ l2 ≠ [] →
  ∃ st',
    closeSession ticks (id s) st = (Normal tt, st')
    ∧ id <$> sessions st' = id <$> (l1 ++ l2)
    ∧ currentSessionId st' =
        if bool_decide (currentSessionId st = Some (id s))
        then id <$> (match last l1 with Some x => Some x | None => head l2 end)
        else currentSessionId st.
Proof.
  intros Hl Hl1 Hrest.
  unfold closeSession, removeSession. step.
  rewrite Hl, (list_find_first _ _ _ _ eq_refl Hl1).
  cbn [sessions emit]. rewrite Hl, (remove_first_by_id_first _ _ _ _ eq_refl Hl1).
  step. cbn [sessions currentSessionId set_sessions emit].
  destruct (l1 ++ l2) as [|y rest] eqn:Hrest'; [done|].
  assert (Hgoal : ∀ (st2 : State) c,
            sessions st2 = y :: rest → currentSessionId st2 = c →
            ∃ st',
              (let (c0, st'0) := saveSessionsToStorage None st2 in
               match c0 with
               | Normal _ =>
                   (Normal tt,
                    emit (Call "updateCrossCheckVisibility" [])
                      (emit (Call "updateCopyButton" [])
                         (emit (Call "renderWebviews" [])
                            (emit (Call "renderSidebar" [])
                               (emit (Call "renderTabs" []) st'0)))))
               | Throw e => (Throw e, st'0)
               end) = (Normal tt, st')
              ∧ id <$> sessions st' = id <$> (y :: rest)
              ∧ currentSessionId st' = c).
  { intros st2 c Hs2 Hc2.
    destruct (save_ids st2) as (st3 & Hsave & Hcur3 & Hids3 & _).
    rewrite Hsave. eexists. split; [reflexivity|].
    cbn [sessions currentSessionId emit]. by rewrite Hids3, Hcur3, Hs2. }
  assert (Hidx : (y :: rest) !! (length l1 - 1)%nat
                 = match last l1 with Some x => Some x | None => head l2 end).
  { rewrite <- Hrest'. destruct l1 as [|a l1] using rev_ind.
    - cbn. by destruct l2.
    - rewrite last_snoc, length_app. cbn.
      rewrite <- app_assoc. cbn.
      rewrite lookup_app_r by lia.
      by replace (length l1 + 1 - 1 - length l1)%nat with 0%nat by lia. }
  rewrite Hidx.
  case_bool_decide as Hcurrent.
  - rewrite bool_decide_eq_true_2 by done.
    destruct (match last l1 with Some x => Some x | None => head l2 end) as [n|] eqn:Hn.
    + step. by apply Hgoal.
    + exfalso. apply lookup_ge_None in Hidx.
      apply (f_equal length) in Hrest'. rewrite length_app in Hrest'.
      cbn in Hrest', Hidx. lia.
  - rewrite bool_decide_eq_false_2 by congruence. step. by apply Hgoal.
Qed.

Lemma find_draft_ext c (l l' : list Session) :
  id <$> l' = id <$> l → promptDraft <$> l' = promptDraft <$> l →
  promptDraft <$> find_by_id c l' = promptDraft <$> find_by_id c l.
Proof.
  destruct c as [i|]; [|done]. cbn.
  revert l'. induction l as [|x l IH]; intros [|x' l']; try done.
  cbn. intros [= Hid Hids] [= Hd Hds]. rewrite Hid.
  case_bool_decide; cbn; [by rewrite Hd|by apply IH].
Qed.

Lemma update_found_ids i f (l : list Session) :
  (∀ s, id (f s) = id s) → id <$> update_found i f l = id <$> l.
Proof.
  intros Hid. induction l as [|x l IH]; [done|]. cbn.
  case_bool_decide; cbn; by rewrite ?Hid, ?IH.
Qed.

Lemma find_by_id_update_found_ne i j f (l : list Session) :
  (∀ s, id (f s) = id s) → i ≠ j →
  find_by_id (Some j) (update_found i f l) = find_by_id (Some j) l.
Proof.
  intros Hid Hne. induction l as [|x l IH]; [done|]. cbn in *.
  case_bool_decide as Hx; cbn.
  - rewrite Hid. rewrite !bool_decide_eq_false_2 by congruence. done.
  - case_bool_decide; [done|]. apply IH.
Qed.

(** One switch: the typed text becomes the draft of the tab that is
    left, and the prompt box is refilled with the draft of the tab that
    is entered. *)
Lemma switchToSession_run typed a b (st : State) sa sb :
  currentSessionId st = Some a → a ≠ b →
  find_by_id (Some a) (sessions st) = Some sa →
  find_by_id (Some b) (sessions st) = Some sb →
  ∃ st1 earlier,
    switchToSession (Some typed) b st = (Normal tt, st1)
    ∧ currentSessionId st1 = Some b
    ∧ id <$> sessions st1 = id <$> sessions st
    ∧ promptDraft <$> find_by_id (Some a) (sessions st1) = Some typed
    ∧ (∀ i, i ≠ a →
         promptDraft <$> find_by_id (Some i) (sessions st1)
         = promptDraft <$> find_by_id (Some i) (sessions st))
    ∧ trace st1 = earlier ++ [Call "promptInput.restore" [promptDraft sb];
                              Call "updatePromptButtons" []].
Proof.
  intros Hcur Hne Ha Hb.
  unfold switchToSession. step. rewrite Hcur.
  rewrite bool_decide_eq_false_2 by congruence. step.
  set (st0 := update_current (set_promptDraft typed) st).
  assert (Hs0 : sessions st0 = update_found a (set_promptDraft typed) (sessions st)).
  { subst st0. unfold update_current. rewrite Hcur, Ha. cbn.
    pose proof (find_by_id_id _ _ _ Ha) as Hida. by simplify_eq. }
  assert (Hc0 : currentSessionId st0 = Some a).
  { subst st0. unfold update_current. rewrite Hcur, Ha. done. }
  destruct (save_ids st0) as (st1 & Hsave1 & Hcur1 & Hids1 & Hdr1).
  rewrite Hsave1. step.
  unfold getCurrentSession. step.
  cbn [sessions currentSessionId set_currentSessionId].
  assert (Hb1 : promptDraft <$> find_by_id (Some b) (sessions st1) = Some (promptDraft sb)).
  { rewrite (find_draft_ext _ _ _ Hids1 Hdr1), Hs0.
    rewrite find_by_id_update_found_ne by done. by rewrite Hb. }
  destruct (find_by_id (Some b) (sessions st1)) as [sb1|] eqn:Hfb; [|done].
  injection Hb1 as Hb1. step.
  set (st2 := emit _ (set_currentSessionId _ _)).
  destruct (save_ids st2) as (st3 & Hsave3 & Hcur3 & Hids3 & Hdr3).
  rewrite Hsave3. step. eexists _, _. split; [reflexivity|].
  cbn [sessions currentSessionId emit trace].
  assert (Hids : id <$> sessions st3 = id <$> sessions st).
  { rewrite Hids3. subst st2. cbn. rewrite Hids1, Hs0.
    by apply update_found_ids. }
  assert (Hdrafts : ∀ c, promptDraft <$> find_by_id c (sessions st3)
                        = promptDraft <$> find_by_id c
                            (update_found a (set_promptDraft typed) (sessions st))).
  { intros c. rewrite (find_draft_ext _ _ _ Hids3 Hdr3). subst st2. cbn.
    rewrite (find_draft_ext _ _ _ Hids1 Hdr1). by rewrite Hs0. }
  split_and!.
  - by rewrite Hcur3.
  - done.
  - rewrite Hdrafts.
    by rewrite (find_by_id_update_found _ _ _ sa) by done.
  - intros i Hi. rewrite Hdrafts. by rewrite find_by_id_update_found_ne.
  - rewrite Hb1. symmetry. apply (app_assoc _ [_] [_]).
Qed.

(** X13: drafts survive a round trip between tabs.  Leaving tab [a]
    for tab [b] with [typed] in the prompt box and coming back later
    refills the box with [typed]; what was typed meanwhile in [b] is kept
    as the draft of [b]. *)
Theorem switchToSession_restores_draft typed typed' a b (st : State) sa sb :
  currentSessionId st = Some a → a ≠ b →
  find_by_id (Some a) (sessions st) = Some sa →
  find_by_id (Some b) (sessions st) = Some sb →
  ∃ st1 st2 earlier,
    switchToSession (Some typed) b st = (Normal tt, st1)
    ∧ switchToSession (Some typed') a st1 = (Normal tt, st2)
    ∧ currentSessionId st2 = Some a
    ∧ trace st2 = earlier ++ [Call "promptInput.restore" [typed];
                              Call "updatePromptButtons" []]
    ∧ promptDraft <$> find_by_id (Some b) (sessions st2) = Some typed'.
Proof.
  intros Hcur Hne Ha Hb.
  destruct (switchToSession_run typed a b st sa sb Hcur Hne Ha Hb)
    as (st1 & e1 & Hrun1 & Hcur1 & Hids1 & Hda & Hothers & _).
  destruct (find_by_id (Some a) (sessions st1)) as [sa1|] eqn:Ha1; [|done].
  assert (Hb1 : is_Some (find_by_id (Some b) (sessions st1))).
  { apply find_by_id_elem. rewrite Hids1. apply find_by_id_elem. by rewrite Hb. }
  destruct Hb1 as [sb1 Hb1].
  destruct (switchToSession_run typed' b a st1 sb1 sa1 Hcur1 (not_eq_sym Hne) Hb1 Ha1)
    as (st2 & e2 & Hrun2 & Hcur2 & _ & Hdb & _ & Htrace).
  injection Hda as Hda. rewrite Hda in Htrace.
  by exists st1, st2, e2.
Qed.


(** *** Reordering tabs by drag and drop *)

Lemma splice_insert_Permutation {A} t (x : A) (l : list A) :
  splice_insert t x l ≡ₚ x :: l.
Proof.
  unfold splice_insert. rewrite <- Permutation_middle.
  by rewrite take_drop.
Qed.

Lemma splice_insert_lookup {A} t (x : A) (l : list A) :
  (t ≤ length l)%nat → splice_insert t x l !! t = Some x.
Proof.
  intros Ht. unfold splice_insert.
  rewrite lookup_app_r by (rewrite length_take; lia).
  by rewrite length_take, Nat.min_l, Nat.sub_diag by lia.
Qed.

Lemma splice_insert_delete {A} t (x : A) (l : list A) :
  (t ≤ length l)%nat → delete t (splice_insert t x l) = l.
Proof.
  intros Ht. unfold splice_insert. rewrite delete_take_drop.
  rewrite take_app_length' by (rewrite length_take; lia).
  rewrite (cons_middle x), (assoc_L (++)).
  rewrite drop_app_length' by (rewrite length_app, length_take; cbn; lia).
  apply take_drop.
Qed.

Lemma findIndex_Some i (l : list Session) n :
  findIndex i l = Some n → ∃ s, l !! n = Some s ∧ id s = i.
Proof.
  unfold findIndex. destruct (list_find _ l) as [[n' s]|] eqn:Hf; [|done].
  intros [= <-]. apply list_find_Some in Hf as (? & ? & _). by exists s.
Qed.

(** X14: dropping the tab of session [dragged] on the tab of session
    [target] moves the dragged session to the position the target had
    before the drop; the list stays a rearrangement of the same sessions,
    all the others keep their relative order, and the pointer is not
    changed. *)
Theorem onDrop_moves_tab_to_target_position target dragged (st : State) d t :
  dragged ≠ target →
  findIndex dragged (sessions st) = Some d →
  findIndex target (sessions st) = Some t →
  ∃ st',
    onDrop target dragged st = (Normal tt, st')
    ∧ (id <$> sessions st') ≡ₚ (id <$> sessions st)
    ∧ (id <$> sessions st') !! t = Some dragged
    ∧ delete t (id <$> sessions st') = delete d (id <$> sessions st)
    ∧ currentSessionId st' = currentSessionId st.
Proof.
  intros Hne Hd Ht.
  destruct (findIndex_Some _ _ _ Hd) as (s & Hs & Hids).
  destruct (findIndex_Some _ _ _ Ht) as (s' & Hs' & _).
  apply lookup_lt_Some in Hs' as Hlt.
  unfold onDrop. rewrite bool_decide_eq_false_2 by done. step.
  rewrite Hd, Ht, Hs. step.
  set (moved := splice_insert t s (delete d (sessions st))).
  set (st1 := set_sessions moved st).
  destruct (save_ids st1) as (st2 & Hsave & Hcur2 & Hids2 & _).
  rewrite Hsave. eexists. split; [reflexivity|].
  cbn [sessions currentSessionId emit]. rewrite Hids2, Hcur2.
  subst st1. cbn [sessions currentSessionId set_sessions].
  assert (Hlen : (t ≤ length (delete d (sessions st)))%nat).
  { rewrite length_delete by (by eexists). lia. }
  split_and!; [| | |done].
  - subst moved. rewrite splice_insert_Permutation.
    by rewrite <- (delete_Permutation _ _ _ Hs).
  - rewrite list_lookup_fmap. subst moved.
    by rewrite splice_insert_lookup, <- Hids.
  - rewrite <- !list_fmap_delete. subst moved.
    by rewrite splice_insert_delete.
Qed.

End TabsFacts.

Section TabsExamples.
Import TabsEvents.

Lemma closeSession_keeps_a_current_session_witness :
  let st := Demo.state [Demo.session "a" 1 [] None ∅] (Some "a") 1 (Demo.roomy ∅) in
  "a" ∈ id <$> sessions st
  ∧ ∃ st',
      closeSession (H := Demo.host []) (5, 5) "a" st = (Normal tt, st')
      ∧ length (sessions st') = 1%nat
      ∧ ∃ c', currentSessionId st' = Some c' ∧ c' ∈ id <$> sessions st'.
Proof.
  split; [cbn; left|].
  apply (closeSession_keeps_a_current_session (H := Demo.host []) (5, 5) "a"
           (Demo.state [Demo.session "a" 1 [] None ∅] (Some "a") 1 (Demo.roomy ∅))).
  - cbn. left.
  - exists "a". split; [reflexivity|]. cbn. left.
Defined.

Lemma closeSession_selects_left_neighbour_witness :
  let a := Demo.session "a" 1 [] None ∅ in
  let b := Demo.session "b" 2 [] None ∅ in
  let c := Demo.session "c" 3 [] None ∅ in
  let st := Demo.state [a; b; c] (Some "b") 3 (Demo.roomy ∅) in
  ∃ st',
    closeSession (H := Demo.host []) (5, 5) "b" st = (Normal tt, st')
    ∧ id <$> sessions st' = ["a"; "c"]
    ∧ currentSessionId st' = Some "a".
Proof.
  apply (closeSession_selects_left_neighbour (H := Demo.host []) (5, 5)
           (Demo.state [Demo.session "a" 1 [] None ∅; Demo.session "b" 2 [] None ∅;
                        Demo.session "c" 3 [] None ∅] (Some "b") 3 (Demo.roomy ∅))
           [Demo.session "a" 1 [] None ∅] (Demo.session "b" 2 [] None ∅)
           [Demo.session "c" 3 [] None ∅]).
  - reflexivity.
  - intros x Hx. apply list_elem_of_singleton in Hx as ->. done.
  - done.
Defined.

Lemma switchToSession_restores_draft_witness :
  let a := Demo.session "a" 1 [] None ∅ in
  let b := Demo.session "b" 2 [] None ∅ in
  let st := Demo.state [a; b] (Some "a") 2 (Demo.roomy ∅) in
  ∃ st1 st2 earlier,
    switchToSession (H := Demo.host []) (Some "half a question") "b" st = (Normal tt, st1)
    ∧ switchToSession (H := Demo.host []) (Some "other text") "a" st1 = (Normal tt, st2)
    ∧ currentSessionId st2 = Some "a"
    ∧ trace st2 = earlier ++ [Call "promptInput.restore" ["half a question"];
                              Call "updatePromptButtons" []]
    ∧ promptDraft <$> find_by_id (Some "b") (sessions st2) = Some "other text".
Proof.
  apply (switchToSession_restores_draft (H := Demo.host [])
           "half a question" "other text" "a" "b"
           (Demo.state [Demo.session "a" 1 [] None ∅; Demo.session "b" 2 [] None ∅]
              (Some "a") 2 (Demo.roomy ∅))
           (Demo.session "a" 1 [] None ∅) (Demo.session "b" 2 [] None ∅)).
  - reflexivity.
  - done.
  - reflexivity.
  - reflexivity.
Defined.

Lemma onDrop_moves_tab_to_target_position_witness :
  let a := Demo.session "a" 1 [] None ∅ in
  let b := Demo.session "b" 2 [] None ∅ in
  let c := Demo.session "c" 3 [] None ∅ in
  let st := Demo.state [a; b; c] (Some "a") 3 (Demo.roomy ∅) in
  ∃ st',
    onDrop (H := Demo.host []) "c" "a" st = (Normal tt, st')
    ∧ (id <$> sessions st') ≡ₚ ["a"; "b"; "c"]
    ∧ (id <$> sessions st') !! 2%nat = Some "a"
    ∧ delete 2%nat (id <$> sessions st') = ["b"; "c"]
    ∧ currentSessionId st' = Some "a".
Proof.
  apply (onDrop_moves_tab_to_target_position (H := Demo.host []) "c" "a"
           (Demo.state [Demo.session "a" 1 [] None ∅; Demo.session "b" 2 [] None ∅;
                        Demo.session "c" 3 [] None ∅] (Some "a") 3 (Demo.roomy ∅))
           0%nat 2%nat).
  - done.
  - reflexivity.
  - reflexivity.
Defined.

End TabsExamples.

Section SettingsFacts.
Import Settings.

Lemma filter_le_length (used : list Z) (n : Z) :
  n ∈ used →
  (length (filter (λ x, (n + 1 ≤ x)%Z) used) < length (filter (λ x, (n ≤ x)%Z) used))%nat.
Proof.
  induction used as [|x used IH]; [by intros ?%elem_of_nil|].
  intros Hin. rewrite !filter_cons.
  assert (Hmono : (length (filter (λ x, (n + 1 ≤ x)%Z) used)
                   ≤ length (filter (λ x, (n ≤ x)%Z) used))%nat).
  { clear. induction used as [|y used IH]; [done|]. rewrite !filter_cons.
    repeat case_decide; cbn; lia. }
  apply elem_of_cons in Hin as [<-|Hin].
  - rewrite decide_False, decide_True by lia. cbn. lia.
  - specialize (IH Hin). repeat case_decide; cbn; lia.
Qed.

(** With as many rounds as there are used numbers at or above the
    candidate, the loop leaves through its exit test: the number it
    returns is unused, and every number it stepped over is used. *)
Lemma gap_from_spec rounds (used : list Z) (n : Z) :
  (length (filter (λ x, (n ≤ x)%Z) used) ≤ rounds)%nat →
  let m := gap_from rounds used n in
  n ≤ m ∧ (m ∉ used) ∧ ∀ k, (n ≤ k < m) → k ∈ used.
Proof.
  revert n. induction rounds as [|rounds IH]; intros n Hlen; cbn.
  - split; [lia|]. split; [|lia].
    intros Hin. destruct (filter (λ x, (n ≤ x)%Z) used) as [|] eqn:Hf; [|cbn in Hlen; lia].
    assert (n ∈ filter (λ x, (n ≤ x)%Z) used) by (apply list_elem_of_filter; split; [lia|done]).
    rewrite Hf in *. by eapply elem_of_nil.
  - case_bool_decide as Hin.
    + pose proof (filter_le_length used n Hin).
      destruct (IH (n + 1)) as (Hle & Hout & Hbelow); [lia|].
      split; [lia|]. split; [done|].
      intros k Hk. destruct (decide (k = n)) as [->|]; [done|]. apply Hbelow. lia.
    + split; [lia|]. split; [done|lia].
Qed.

Lemma gap_from_exits (used : list Z) :
  let n := lowestFree used in
  0 < n ∧ (n ∉ used) ∧ ∀ k, (0 < k < n) → k ∈ used.
Proof.
  cbv zeta. unfold lowestFree.
  destruct (gap_from_spec (length used) used 1) as (Hle & Hout & Hbelow).
  { apply length_filter. }
  split; [lia|]. split; [done|]. intros k Hk. apply Hbelow. lia.
Qed.

(** X15: the state module's [createNewSession] numbers the new session
    with the smallest positive integer that no session of the list
    carries: the number is positive, no session has it, and every smaller
    positive number is taken.  The loop that finds it always ends.  Apart
    from the counter, the module state is left as it was. *)
Theorem createNewSession_fills_lowest_gap
    ticks name selectedAIsSet mode (st : State) :
  ∃ s st' n,
    createNewSession ticks name selectedAIsSet mode st = (Normal s, st')
    ∧ sessionNumber s = Some n
    ∧ 0 < n
    ∧ (∀ x, x ∈ sessions st → sessionNumber x ≠ Some n)
    ∧ (∀ k, (0 < k < n) → ∃ x, x ∈ sessions st ∧ sessionNumber x = Some k)
    ∧ sessions st' = sessions st
    ∧ sessionCounter st' = incr (sessionCounter st).
Proof.
  unfold createNewSession. step.
  destruct (gap_from_exits (usedNumbers (sessions st))) as (Hpos & Hout & Hbelow).
  cbv zeta in *.
  assert (Hused : ∀ k, k ∈ usedNumbers (sessions st)
                       ↔ ∃ x, x ∈ sessions st ∧ sessionNumber x = Some k).
  { intros k. unfold usedNumbers. rewrite list_elem_of_omap. naive_solver. }
  destruct (truthy mode); step; eexists _, _, _; (split; [reflexivity|]);
    cbn [sessionNumber sessions set_sessionCounter sessionCounter];
    (split_and!; [done|done| |by intros k Hk; apply Hused, Hbelow|done|done]);
    intros x Hx Hn; apply Hout, Hused; eauto.
Qed.

End SettingsFacts.


(* ================================================================== *)
(** * Further properties of the API chat *)
(* ================================================================== *)

Section ApiChatMore.
Context `{Builtins}.

(** X16: the chat bubbles of role [system] -- the notice of a missing
    key, the report of a failed request, any other message appended with
    that role -- are shown and never recorded: the session list and
    localStorage are exactly as before. *)
Theorem system_messages_are_not_recorded (r : Request) (st : State) :
  (∀ error, ∃ st',
      handleApiChat_settled r (inl error) st = (Normal tt, st')
      ∧ sessions st' = sessions st
      ∧ localStorage st' = localStorage st)
  ∧ (∃ st',
       handleApiChat_checked r false st = (Normal None, st')
       ∧ sessions st' = sessions st
       ∧ localStorage st' = localStorage st)
  ∧ (∀ panel text save sessionId, ∃ st',
       appendApiMessage panel "system" text save sessionId st = (Normal tt, st')
       ∧ sessions st' = sessions st
       ∧ localStorage st' = localStorage st).
Proof.
  split_and!.
  - intros error. unfold handleApiChat_settled, appendApiMessage.
    destruct (isApiKeyError (err_message error)); step; by eexists.
  - unfold handleApiChat_checked, appendApiMessage. step. by eexists.
  - intros panel text save sessionId. unfold appendApiMessage.
    rewrite bool_decide_eq_true_2 by done. rewrite andb_false_r. step. by eexists.
Qed.

Lemma slice_last_length {A} n (l : list A) :
  (0 < n)%nat → (length (slice_last n l) ≤ n)%nat.
Proof.
  intros Hn. unfold slice_last. destruct n; [lia|]. rewrite length_drop. lia.
Qed.

Lemma slice_last_last {A} n (l : list A) :
  (0 < n)%nat → last (slice_last n l) = last l.
Proof.
  intros Hn. unfold slice_last. destruct n; [lia|].
  destruct l as [|a l]; [done|].
  apply last_drop_nonempty. cbn. lia.
Qed.

Lemma slice_last_elem {A} n (l : list A) x : x ∈ slice_last n l → x ∈ l.
Proof.
  unfold slice_last. destruct n; [done|].
  intros Hx. rewrite <- (take_drop (length l - S n) l). apply elem_of_app. by right.
Qed.

Lemma last_filter {A} (P : A → Prop) `{∀ x, Decision (P x)} (l : list A) m :
  last l = Some m → P m → last (filter P l) = Some m.
Proof.
  intros Hlast Hm. apply last_Some in Hlast as [l' ->].
  rewrite filter_app, filter_cons, decide_True by done.
  by rewrite filter_nil, last_snoc.
Qed.

(** The messages handed to [makeAIRequest], as a function of the store. *)
Lemma handleApiChat_checked_run (r : Request) (st : State) :
  ∃ st',
    handleApiChat_checked r true st
    = (Normal (Some (slice_last API_HISTORY_LIMIT
                       (filter (λ msg, role msg = "user" ∨ role msg = "assistant")
                          (default []
                             (find_by_id (req_targetSessionId r) (sessions st)
                                ≫= λ s, history s (req_aiKey r)))))), st')
    ∧ sessions st' = sessions st.
Proof. unfold handleApiChat_checked. step. by eexists. Qed.

(** X17: what a request carries.  For every request that
    [sendPromptToSelectedAIs] starts in API mode, the messages handed to
    the service when the request goes ahead are at most 12, have the roles
    [user] and [assistant] only, and end with the prompt that was just
    sent; building them changes no session. *)
Theorem request_ends_with_the_prompt
    prompt selectedAIs webviews (st0 : State) i1 (s1 : Session) :
  currentSessionId st0 = Some i1 → i1 ≠ "" →
  find_by_id (Some i1) (sessions st0) = Some s1 →
  mode s1 = Some "api" → prompt ≠ "" → selectedAIs ≠ [] →
  ∃ requests st1,
    sendPromptToSelectedAIs prompt selectedAIs webviews st0 = (Normal requests, st1)
    ∧ ∀ r, r ∈ requests →
        ∃ messages st2,
          handleApiChat_checked r true st1 = (Normal (Some messages), st2)
          ∧ sessions st2 = sessions st1
          ∧ (length messages ≤ 12)%nat
          ∧ (∀ m, m ∈ messages → role m = "user" ∨ role m = "assistant")
          ∧ last messages = Some {| role := "user"; content := prompt |}.
Proof.
  intros Hcur Hi Hfind Hmode Hprompt Hsel.
  unfold sendPromptToSelectedAIs.
  rewrite (proj2 (String.eqb_neq prompt "") Hprompt).
  rewrite bool_decide_eq_false_2 by done. cbn [orb].
  unfold getCurrentSession. step. rewrite Hcur, Hfind, Hmode.
  rewrite bool_decide_eq_true_2 by done.
  set (st_d := emit _ (emit _ st0)).
  destruct (dispatch_loop prompt webviews i1 selectedAIs st_d s1 Hi Hcur Hfind)
    as (rs & st1 & s1' & Hrun & _ & Hf1 & _ & Hrs).
  exists rs, st1. split; [done|].
  intros r Hr. destruct (Hrs r Hr) as (Ht & _ & _ & h & Hh & Hlast).
  destruct (handleApiChat_checked_run r st1) as (st2 & Hchecked & Hs2).
  eexists _, st2. split; [exact Hchecked|]. rewrite Ht, Hf1. cbn [mbind option_bind].
  rewrite Hh. cbn [default from_option Datatypes.id].
  split_and!.
  - done.
  - apply slice_last_length. unfold API_HISTORY_LIMIT. lia.
  - intros m Hm%slice_last_elem. by apply list_elem_of_filter in Hm as [? _].
  - rewrite slice_last_last by (unfold API_HISTORY_LIMIT; lia).
    apply last_filter; [done|]. by left.
Qed.

Lemma dispatch_web prompt captured webviews started aiKey (st : State) :
  ∃ st', dispatch prompt captured false webviews started aiKey st = (Normal started, st')
    ∧ sessions st' = sessions st
    ∧ currentSessionId st' = currentSessionId st
    ∧ localStorage st' = localStorage st.
Proof.
  unfold dispatch. destruct (webviews !! aiKey); step; by eexists.
Qed.

(** X18: outside API mode sending is a no-op for the store.  When the
    current session is not in API mode (or there is no session),
    [sendPromptToSelectedAIs] starts no request and leaves the session
    list, the pointer and localStorage as they were, whatever the prompt
    and the selection. *)
Theorem sendPrompt_outside_api_mode_records_nothing
    prompt selectedAIs webviews (st : State) :
  (∀ s, (getCurrentSession st).1 = Normal (Some s) → mode s ≠ Some "api") →
  ∃ st',
    sendPromptToSelectedAIs prompt selectedAIs webviews st = (Normal [], st')
    ∧ sessions st' = sessions st
    ∧ currentSessionId st' = currentSessionId st
    ∧ localStorage st' = localStorage st.
Proof.
  intros Hweb. unfold sendPromptToSelectedAIs.
  destruct (String.eqb prompt "" || bool_decide (selectedAIs = [])).
  { step. by eexists. }
  step. rewrite getCurrentSession_run. cbn [fst snd].
  rewrite getCurrentSession_run in Hweb. cbn [fst] in Hweb.
  assert (Hmode : match
                    match find_by_id (currentSessionId st) (sessions st) with
                    | Some s => Some s
                    | None => head (sessions st)
                    end
                  with
                  | Some s => bool_decide (mode s = Some "api")
                  | None => false
                  end = false).
  { destruct (match find_by_id _ _ with Some s => Some s | None => _ end) as [s|];
      [|done].
    apply bool_decide_eq_false_2, Hweb. done. }
  rewrite Hmode.
  set (st_d := emit _ (emit _ st)).
  assert (Hloop : ∀ (keys : list string) (acc : M (list Request)) (stA : State),
            (∃ stB, acc stA = (Normal [], stB)
               ∧ sessions stB = sessions st
               ∧ currentSessionId stB = currentSessionId st
               ∧ localStorage stB = localStorage st) →
            ∃ st',
              foldl (λ (acc : M (list Request)) aiKey,
                       started ← acc;
                       dispatch prompt (currentSessionId st) false webviews started aiKey)
                acc keys stA = (Normal [], st')
              ∧ sessions st' = sessions st
              ∧ currentSessionId st' = currentSessionId st
              ∧ localStorage st' = localStorage st).
  { induction keys as [|k keys IH]; intros acc stA Hacc; [done|].
    cbn [foldl]. apply IH.
    destruct Hacc as (stB & Hrun & Hs & Hc & Hl).
    destruct (dispatch_web prompt (currentSessionId st) webviews [] k stB)
      as (stC & HrunC & HsC & HcC & HlC).
    exists stC. unfold mbind, M_bind. rewrite Hrun, HrunC.
    split_and!; congruence. }
  apply Hloop. by exists st_d.
Qed.

End ApiChatMore.

Section ApiChatMoreExamples.

Lemma request_ends_with_the_prompt_witness :
  let panel := {| dataset_aiKey := "x"; closest_sessionId := Some "a" |} in
  let st0 := Demo.state [Demo.session "a" 1 ["x"] (Some "api") ∅]
               (Some "a") 1 (Demo.roomy ∅) in
  ∃ requests st1,
    sendPromptToSelectedAIs (H := Demo.host []) "why?" ["x"] {[ "x" := panel ]} st0
    = (Normal requests, st1)
    ∧ ∀ r, r ∈ requests →
        ∃ messages st2,
          handleApiChat_checked (H := Demo.host []) r true st1 = (Normal (Some messages), st2)
          ∧ sessions st2 = sessions st1
          ∧ (length messages ≤ 12)%nat
          ∧ (∀ m, m ∈ messages → role m = "user" ∨ role m = "assistant")
          ∧ last messages = Some {| role := "user"; content := "why?" |}.
Proof.
  apply (request_ends_with_the_prompt (H := Demo.host []) "why?" ["x"]
           {[ "x" := {| dataset_aiKey := "x"; closest_sessionId := Some "a" |} ]}
           (Demo.state [Demo.session "a" 1 ["x"] (Some "api") ∅]
              (Some "a") 1 (Demo.roomy ∅))
           "a" (Demo.session "a" 1 ["x"] (Some "api") ∅)); done.
Defined.

Lemma sendPrompt_outside_api_mode_records_nothing_witness :
  let panel := {| dataset_aiKey := "x"; closest_sessionId := Some "a" |} in
  let st := Demo.state [Demo.session "a" 1 ["x"] (Some "web") ∅]
              (Some "a") 1 (Demo.roomy ∅) in
  ∃ st',
    sendPromptToSelectedAIs (H := Demo.host []) "why?" ["x"] {[ "x" := panel ]} st
    = (Normal [], st')
    ∧ sessions st' = sessions st
    ∧ currentSessionId st' = currentSessionId st
    ∧ localStorage st' = localStorage st.
Proof.
  apply (sendPrompt_outside_api_mode_records_nothing (H := Demo.host []) "why?" ["x"]
           {[ "x" := {| dataset_aiKey := "x"; closest_sessionId := Some "a" |} ]}
           (Demo.state [Demo.session "a" 1 ["x"] (Some "web") ∅]
              (Some "a") 1 (Demo.roomy ∅))).
  intros s [= <-]. done.
Defined.

End ApiChatMoreExamples.

(* ================================================================== *)
(** * Further properties of the resizer and the layout module *)
(* ================================================================== *)

Section ResizerMore.
Import Resizer.
Local Open Scope Q_scope.

Lemma update_at_lookup_eq i f (ws : list Wrapper) w :
  ws !! i = Some w → update_at i f ws !! i = Some (f w).
Proof.
  intros Hw. unfold update_at. rewrite Hw.
  apply list_lookup_insert_eq. by eapply lookup_lt_Some.
Qed.

Lemma update_at_lookup_ne i j f (ws : list Wrapper) :
  i ≠ j → update_at i f ws !! j = ws !! j.
Proof.
  intros Hne. unfold update_at. destruct (ws !! i); [|done].
  by apply list_lookup_insert_ne.
Qed.

Lemma Qeq_bool_false (x y : Q) : ¬ x == y → Qeq_bool x y = false.
Proof.
  intros Hne. destruct (Qeq_bool x y) eqn:E; [|done].
  by apply Qeq_bool_iff in E.
Qed.

Lemma onResize_sizes_sum (d : FlexDrag) (e : MouseEvent) :
  (onResize_sizes d e).1 + (onResize_sizes d e).2
  == (startSizes d).1 + (startSizes d).2.
Proof.
  unfold onResize_sizes.
  destruct d as [? ? ? [x y] [a b] dir]. cbn [startSizes startPos resizeDirection fst snd].
  set (delta := if bool_decide (dir = Some "vertical") then _ else _).
  repeat destruct (Qlt_le_dec _ _); cbn [fst snd]; lra.
Qed.


(** *** The visible wrappers in display order *)

Lemma insert_by_order_Permutation x (l : list (nat * Wrapper)) :
  insert_by_order x l ≡ₚ x :: l.
Proof.
  induction l as [|y l IH]; [done|]. cbn.
  destruct (order x.2 <? order y.2)%Z; [done|].
  by rewrite IH, Permutation_swap.
Qed.

Lemma insert_by_order_sorted x (l : list (nat * Wrapper)) :
  StronglySorted (λ a b, (order a.2 ≤ order b.2)%Z) l →
  StronglySorted (λ a b, (order a.2 ≤ order b.2)%Z) (insert_by_order x l).
Proof.
  induction 1 as [|y l Hsorted IH Hall]; cbn.
  - by repeat constructor.
  - destruct (Z.ltb_spec (order x.2) (order y.2)) as [Hlt|Hge].
    + constructor; [by constructor|].
      constructor; [lia|].
      eapply Forall_impl; [exact Hall|]. cbn. intros. lia.
    + constructor; [done|].
      rewrite insert_by_order_Permutation. by constructor.
Qed.

Lemma sort_by_order_Permutation (l : list (nat * Wrapper)) :
  foldr insert_by_order [] l ≡ₚ l.
Proof.
  induction l as [|x l IH]; [done|]. cbn.
  by rewrite insert_by_order_Permutation, IH.
Qed.

Lemma sort_by_order_sorted (l : list (nat * Wrapper)) :
  StronglySorted (λ a b, (order a.2 ≤ order b.2)%Z) (foldr insert_by_order [] l).
Proof.
  induction l as [|x l IH]; cbn; [constructor|].
  by apply insert_by_order_sorted.
Qed.

Lemma imap_pair_fst {A} (l : list A) n :
  (imap (λ i w, (n + i, w)%nat) l).*1 = seq n (length l).
Proof.
  revert n. induction l as [|x l IH]; intros n; [done|]. cbn.
  rewrite Nat.add_0_r. f_equal.
  rewrite <- (IH (S n)). f_equal. apply imap_ext. intros. cbn. f_equal. lia.
Qed.


End ResizerMore.

Section ResizerMoreExamples.
Import Resizer.
Local Open Scope Q_scope.


End ResizerMoreExamples.

Section LayoutFacts.
Import Resizer Layout.

Lemma truthy_Some_iff s : truthy (Some s) = true ↔ s ≠ "".
Proof.
  unfold truthy. destruct (String.eqb_spec s ""); split; done.
Qed.

Lemma elem_of_classList_add c name (cl : list string) :
  c ∈ classList_add name cl ↔ c = name ∨ c ∈ cl.
Proof.
  unfold classList_add. case_bool_decide.
  - split; [by right|]. by intros [->|?].
  - rewrite elem_of_app, list_elem_of_singleton. tauto.
Qed.

Lemma elem_of_classList_remove c names (cl : list string) :
  c ∈ classList_remove names cl ↔ c ∈ cl ∧ c ∉ names.
Proof. unfold classList_remove. rewrite list_elem_of_filter. tauto. Qed.

Lemma classes_after_apply (m c : string) (cl : list string) :
  m ∈ LAYOUT_MODES →
  c ∈ ["layout-horizontal"; "layout-vertical"; "layout-grid"] →
  c ∈ classList_add ("layout-" +:+ m)
        (classList_remove ["layout-horizontal"; "layout-vertical"; "layout-grid"] cl)
  ↔ c = "layout-" +:+ m.
Proof.
  intros Hm Hc. rewrite elem_of_classList_add, elem_of_classList_remove.
  split; [|by left]. intros [?|[_ ?]]; done.
Qed.

Lemma getCurrentLayoutMode_classes (st : State) grid m :
  webviewGrid st = Some grid → m ∈ LAYOUT_MODES →
  (∀ c, c ∈ ["layout-horizontal"; "layout-vertical"; "layout-grid"] →
        c ∈ classList grid ↔ c = "layout-" +:+ m) →
  getCurrentLayoutMode st = m.
Proof.
  intros Hgrid Hm Hcl. unfold getCurrentLayoutMode. rewrite Hgrid.
  assert (Hv := Hcl "layout-vertical"). assert (Hg := Hcl "layout-grid").
  unfold LAYOUT_MODES in Hm.
  repeat (apply elem_of_cons in Hm as [->|Hm]); [| | |by apply elem_of_nil in Hm].
  - rewrite bool_decide_eq_false_2, bool_decide_eq_false_2; [done| |].
    + intros E. apply Hg in E; [done|]. rewrite !elem_of_cons. tauto.
    + intros E. apply Hv in E; [done|]. rewrite !elem_of_cons. tauto.
  - rewrite bool_decide_eq_true_2; [done|].
    apply Hv; [rewrite !elem_of_cons; tauto|done].
  - rewrite bool_decide_eq_false_2, bool_decide_eq_true_2; [done| |].
    + apply Hg; [rewrite !elem_of_cons; tauto|done].
    + intros E. apply Hv in E; [done|]. rewrite !elem_of_cons. tauto.
Qed.

Lemma onLayoutModeChange_keeps_mode (st : State) k :
  k ≠ getStorageKey st →
  classList <$> webviewGrid (onLayoutModeChange st) = classList <$> webviewGrid st
  ∧ getItem k (localStorage (onLayoutModeChange st)) = getItem k (localStorage st).
Proof.
  intros Hk. unfold onLayoutModeChange, clearSizes, forEach_visible. cbn.
  split.
  - by destruct (webviewGrid st).
  - unfold getItem, removeItem. cbn.
    rewrite lookup_delete_ne; [done|].
    intros E. apply Hk. rewrite <- E. unfold getStorageKey, getCurrentLayoutMode.
    cbn. by destruct (webviewGrid st).
Qed.

(** X21: the stored layout mode and the grid element stay in step.
    With the grid element in place and a localStorage that accepts the
    write, [setLayoutMode(mode)] -- with or without the resizer loaded --
    applies the mode itself when it is one of the three layout modes and
    ['horizontal'] otherwise; afterwards [getLayoutMode()] returns the
    applied mode, the resizer's [getCurrentLayoutMode()] reads the same
    mode from the grid element, and of the three [layout-*] classes the
    grid carries exactly the one of the applied mode. *)
Theorem setLayoutMode_keeps_store_and_grid_in_step
    (resizer : bool) (mode : string) (st : State) (grid : Grid) :
  webviewGrid st = Some grid →
  (∀ m k v, refuses (localStorage st) m k v = None) →
  let applied := if bool_decide (mode ∈ LAYOUT_MODES) then mode else "horizontal" in
  ∃ st' grid',
    setLayoutMode resizer mode st = (None, st')
    ∧ getLayoutMode st' = applied
    ∧ getCurrentLayoutMode st' = applied
    ∧ webviewGrid st' = Some grid'
    ∧ ∀ c, c ∈ ["layout-horizontal"; "layout-vertical"; "layout-grid"] →
           c ∈ classList grid' ↔ c = "layout-" +:+ applied.
Proof.
  intros Hgrid Hacc. cbv zeta.
  set (applied := if bool_decide (mode ∈ LAYOUT_MODES) then mode else "horizontal").
  assert (Happlied : applied ∈ LAYOUT_MODES).
  { subst applied. case_bool_decide; [done|]. unfold LAYOUT_MODES. left. }
  assert (Hnonempty : applied ≠ "").
  { intros E. rewrite E in Happlied. unfold LAYOUT_MODES in Happlied.
    rewrite !elem_of_cons, elem_of_nil in Happlied. by intuition. }
  unfold setLayoutMode.
  set (st1 := if bool_decide (mode ∈ LAYOUT_MODES) then st
              else logger_log "[Layout] Invalid mode, using default" st).
  assert (Hpair : (if bool_decide (mode ∈ LAYOUT_MODES) then (mode, st)
                   else (DEFAULT_LAYOUT_MODE,
                         logger_log "[Layout] Invalid mode, using default" st))
                  = (applied, st1)).
  { subst applied st1. by case_bool_decide. }
  rewrite Hpair.
  assert (Hst1 : webviewGrid st1 = Some grid ∧ localStorage st1 = localStorage st).
  { subst st1. by case_bool_decide. }
  destruct Hst1 as [Hgrid1 Hls1].
  unfold setItem. rewrite Hls1, Hacc.
  set (st2 := applyLayoutMode applied _).
  set (grid2 := set_classList
                  (classList_add ("layout-" +:+ applied)
                     (classList_remove
                        ["layout-horizontal"; "layout-vertical"; "layout-grid"]
                        (classList grid))) grid).
  assert (Hgrid2 : webviewGrid st2 = Some grid2).
  { subst st2 grid2. unfold applyLayoutMode. cbn. by rewrite Hgrid1. }
  assert (Hstored : getItem STORAGE_KEY (localStorage st2) = Some applied).
  { subst st2. unfold applyLayoutMode, getItem. cbn. by rewrite lookup_insert_eq. }
  assert (Hclasses : ∀ c, c ∈ ["layout-horizontal"; "layout-vertical"; "layout-grid"] →
                          c ∈ classList grid2 ↔ c = "layout-" +:+ applied).
  { intros c Hc. subst grid2. cbn. by apply classes_after_apply. }
  assert (Hkey : STORAGE_KEY ≠ getStorageKey st2).
  { unfold getStorageKey, STORAGE_KEY, STORAGE_KEY_PREFIX.
    rewrite (getCurrentLayoutMode_classes st2 grid2 applied Hgrid2 Happlied Hclasses).
    unfold LAYOUT_MODES in Happlied.
    repeat (apply elem_of_cons in Happlied as [->|Happlied]); try done. }
  destruct resizer.
  - destruct (onLayoutModeChange_keeps_mode st2 STORAGE_KEY Hkey) as [Hcl Hget].
    rewrite Hgrid2 in Hcl.
    destruct (webviewGrid (onLayoutModeChange st2)) as [grid3|] eqn:Hgrid3; [|done].
    injection Hcl as Hcl.
    exists (onLayoutModeChange st2), grid3. split_and!; [done| | |done|].
    + unfold getLayoutMode. rewrite Hget, Hstored.
      by rewrite (proj2 (truthy_Some_iff _)) .
    + apply (getCurrentLayoutMode_classes _ grid3); [done|done|].
      intros c Hc. rewrite Hcl. by apply Hclasses.
    + intros c Hc. rewrite Hcl. by apply Hclasses.
  - exists st2, grid2. split_and!; [done| | |done|done].
    + unfold getLayoutMode. rewrite Hstored. by rewrite (proj2 (truthy_Some_iff _)).
    + by apply (getCurrentLayoutMode_classes _ grid2).
Qed.

End LayoutFacts.

Section LayoutExamples.
Import Resizer Layout.

Lemma setLayoutMode_keeps_store_and_grid_in_step_witness :
  let st := Demo.panels_in ["webview-grid"; "layout-horizontal"] ∅ in
  ∃ st' grid',
    setLayoutMode true "grid" st = (None, st')
    ∧ getLayoutMode st' = "grid"
    ∧ getCurrentLayoutMode st' = "grid"
    ∧ webviewGrid st' = Some grid'
    ∧ ∀ c, c ∈ ["layout-horizontal"; "layout-vertical"; "layout-grid"] →
           c ∈ classList grid' ↔ c = "layout-grid".
Proof.
  eapply (setLayoutMode_keeps_store_and_grid_in_step true "grid"
            (Demo.panels_in ["webview-grid"; "layout-horizontal"] ∅)).
  - reflexivity.
  - done.
Defined.

End LayoutExamples.

Section ResizerSaveFacts.
Import Resizer ResizerSave.
Local Open Scope Q_scope.
Context `{Formats} `{Writers}.

Lemma filter_imap_visible (f : nat → Wrapper → nat * Wrapper) (l : list Wrapper) :
  (∀ i w, (f i w).2 = w) →
  (filter (λ iw, visible iw.2 = true) (imap f l)).*2
  = filter (λ w, visible w = true) l.
Proof.
  revert f. induction l as [|x l IH]; intros f Hf; [done|].
  cbn [imap]. rewrite !filter_cons. rewrite Hf.
  rewrite <- (IH (f ∘ S)) by (intros; apply Hf).
  case_decide; cbn; by rewrite ?Hf.
Qed.

Lemma visible_wrappers_Permutation (st : State) :
  (getVisibleWrappers st).*2 ≡ₚ filter (λ w, visible w = true) (wrappers st).
Proof.
  unfold getVisibleWrappers. rewrite sort_by_order_Permutation.
  by rewrite filter_imap_visible.
Qed.

Lemma Math_min_spec x (xs : list Q) :
  Math_min x xs ∈ x :: xs ∧ ∀ y, y ∈ x :: xs → Math_min x xs <= y.
Proof.
  unfold Math_min. revert x. induction xs as [|z xs IH]; intros x; cbn.
  - split; [left|]. intros y ->%list_elem_of_singleton. lra.
  - destruct (Qlt_le_dec z x) as [Hlt|Hle].
    + destruct (IH z) as [Hin Hmin]. split.
      * right. exact Hin.
      * intros y [->|Hy]%elem_of_cons; [|by apply Hmin].
        specialize (Hmin z (ltac:(left))). lra.
    + destruct (IH x) as [Hin Hmin]. split.
      * apply elem_of_cons in Hin as [Hx|Hin]; [rewrite Hx; left|right; by right].
      * intros y [->|[->|Hy]%elem_of_cons]%elem_of_cons.
        -- apply Hmin. left.
        -- specialize (Hmin x (ltac:(left))). lra.
        -- apply Hmin. by right.
Qed.

Lemma foldl_obj_set {V} (g : Wrapper → V) (l : list Wrapper) (acc : list (string * V)) :
  NoDup (acc.*1 ++ (aiKey <$> l)) →
  foldl (λ ratios w, obj_set (aiKey w) (g w) ratios) acc l
  = acc ++ ((λ w, (aiKey w, g w)) <$> l).
Proof.
  revert acc. induction l as [|w l IH]; intros acc Hnd; cbn.
  - by rewrite app_nil_r.
  - assert (Hfresh : aiKey w ∉ acc.*1).
    { apply NoDup_app in Hnd as (_ & Hdisj & _). intros Hin.
      apply (Hdisj _ Hin). left. }
    unfold obj_set at 2. rewrite bool_decide_eq_false_2 by done.
    rewrite IH.
    + by rewrite <- app_assoc.
    + rewrite fmap_app. cbn. rewrite <- app_assoc. done.
Qed.

(** The ratios of a non-grid layout with positive sizes and distinct
    service keys: each visible wrapper's size over the smallest size. *)
Lemma calculateCurrentRatios_run (st : State) :
  getCurrentLayoutMode st ≠ "grid" →
  (∃ w, w ∈ wrappers st ∧ visible w = true) →
  NoDup (aiKey <$> filter (λ w, visible w = true) (wrappers st)) →
  (∀ w, w ∈ wrappers st → visible w = true →
        0 < extent (getCurrentLayoutMode st) w) →
  ∃ smallest,
    0 < smallest
    ∧ (∃ w, w ∈ wrappers st ∧ visible w = true
            ∧ extent (getCurrentLayoutMode st) w = smallest)
    ∧ (∀ w, w ∈ wrappers st → visible w = true →
            smallest <= extent (getCurrentLayoutMode st) w)
    ∧ calculateCurrentRatios st
      = (λ w, (aiKey w, Some (extent (getCurrentLayoutMode st) w / smallest)))
          <$> (getVisibleWrappers st).*2.
Proof.
  intros Hmode (w0 & Hw0 & Hv0) Hnd Hpos.
  pose proof (visible_wrappers_Permutation st) as Hperm.
  assert (Hmem : ∀ w, w ∈ (getVisibleWrappers st).*2
                      ↔ w ∈ wrappers st ∧ visible w = true).
  { intros w. rewrite Hperm, list_elem_of_filter. tauto. }
  unfold calculateCurrentRatios.
  destruct ((getVisibleWrappers st).*2) as [|first rest] eqn:Hvis.
  { exfalso. apply (elem_of_nil w0). apply Hmem. done. }
  rewrite bool_decide_eq_false_2 by done.
  set (mode := getCurrentLayoutMode st) in *.
  set (smallest := Math_min (extent mode first) (extent mode <$> rest)).
  destruct (Math_min_spec (extent mode first) (extent mode <$> rest)) as [Hin Hmin].
  fold smallest in Hin, Hmin.
  change (extent mode first :: (extent mode <$> rest))
    with (extent mode <$> first :: rest) in Hin, Hmin.
  apply list_elem_of_fmap in Hin as (wmin & Hwmin & Hwin).
  assert (Hsmall : 0 < smallest).
  { rewrite Hwmin. apply Hmem in Hwin as [? ?]. by apply Hpos. }
  exists smallest. split_and!.
  - done.
  - exists wmin. apply Hmem in Hwin as [? ?]. done.
  - intros w Hw Hv. apply Hmin. apply list_elem_of_fmap_2. apply Hmem. done.
  - rewrite foldl_obj_set.
    + cbn [app]. apply list_fmap_ext. intros _ w _. cbn. f_equal.
      unfold js_div. rewrite Qeq_bool_false; [done|]. intros E. lra.
    + change ([].*1 ++ (aiKey <$> first :: rest)) with (aiKey <$> first :: rest).
      by rewrite Hperm.
Qed.


End ResizerSaveFacts.

Section ResizerSaveExamples.
Import Resizer ResizerSave.
Local Open Scope Q_scope.


End ResizerSaveExamples.

(* ================================================================== *)
(** * Further properties of the panel renderer *)
(* ================================================================== *)

Section PanelsMore.
Import Panels.

Lemma matches_set_display s k d (w : Wrapper) :
  matches s k (set_display d w) = matches s k w.
Proof. done. Qed.

(** What the inner loop of [hideAll] does to the wrapper of a pair. *)
Lemma hide_inner s (kis : list (string * Instance)) (ws : list Wrapper) a b :
  querySelector a b
    (foldr (λ ki ws', update_selected s ki.1 (set_display "none") ws') ws kis)
  = if bool_decide (a = s ∧ b ∈ kis.*1)
    then set_display "none" <$> querySelector a b ws
    else querySelector a b ws.
Proof.
  induction kis as [|ki kis IH]; cbn [foldr].
  - rewrite bool_decide_eq_false_2; [done|]. intros [_ Hin]. by apply elem_of_nil in Hin.
  - destruct (decide ((a, b) = (s, ki.1))) as [[= -> Hb]|Hne].
    + rewrite Hb, query_update_same by done. rewrite <- Hb, IH.
      rewrite (bool_decide_eq_true_2 (s = s ∧ b ∈ (ki :: kis).*1))
        by (split; [done|rewrite Hb; left]).
      case_bool_decide; [|done].
      by destruct (querySelector s b ws).
    + rewrite query_update_other by done. rewrite IH.
      rewrite (bool_decide_ext (a = s ∧ b ∈ (ki :: kis).*1) (a = s ∧ b ∈ kis.*1));
        [done|].
      cbn [fmap list_fmap]. rewrite elem_of_cons.
      split; [|tauto].
      intros [-> [->|?]]; [done|tauto].
Qed.

Lemma elem_of_map_to_list_keys (m : gmap string Instance) b :
  b ∈ (map_to_list m).*1 ↔ is_Some (m !! b).
Proof.
  rewrite list_elem_of_fmap. split.
  - intros ([k i] & -> & Hin). apply elem_of_map_to_list in Hin. by exists i.
  - intros [i Hi]. exists (b, i). split; [done|]. by apply elem_of_map_to_list.
Qed.

Lemma hide_outer (sms : list (string * gmap string Instance)) (ws : list Wrapper) a b :
  querySelector a b
    (foldr (λ sm ws,
              foldr (λ ki ws', update_selected sm.1 ki.1 (set_display "none") ws')
                ws (map_to_list sm.2)) ws sms)
  = if existsb (λ sm, bool_decide (sm.1 = a ∧ is_Some (sm.2 !! b))) sms
    then set_display "none" <$> querySelector a b ws
    else querySelector a b ws.
Proof.
  induction sms as [|sm sms IH]; cbn [foldr existsb]; [done|].
  rewrite hide_inner, IH.
  rewrite (bool_decide_ext (a = sm.1 ∧ b ∈ (map_to_list sm.2).*1)
             (sm.1 = a ∧ is_Some (sm.2 !! b)))
    by (rewrite elem_of_map_to_list_keys; intuition congruence).
  case_bool_decide; cbn [orb]; [|done].
  destruct (existsb _ sms); [|done].
  by destruct (querySelector a b ws).
Qed.

(** [hideAll] hides the wrapper of every cached pair and touches no
    other wrapper. *)
Lemma hideAll_query (st : State) a b :
  querySelector a b (wrappers (hideAll st))
  = if bool_decide (is_Some (cached st a b))
    then set_display "none" <$> querySelector a b (wrappers st)
    else querySelector a b (wrappers st).
Proof.
  unfold hideAll. cbn [wrappers set_wrappers]. rewrite hide_outer.
  assert (Hiff : existsb (λ sm : string * gmap string Instance,
                            bool_decide (sm.1 = a ∧ is_Some (sm.2 !! b)))
                   (map_to_list (webviewInstances st)) = true
                 ↔ is_Some (cached st a b)).
  { rewrite existsb_exists. unfold cached. split.
    - intros ([s m] & Hin%list_elem_of_In & Hb). apply bool_decide_eq_true in Hb.
      cbn in Hb. destruct Hb as [-> Hb]. apply elem_of_map_to_list in Hin.
      by rewrite Hin.
    - intros Hc. destruct (webviewInstances st !! a) as [m|] eqn:Hm;
        [|by destruct Hc].
      exists (a, m). split; [by apply list_elem_of_In, elem_of_map_to_list|].
      by apply bool_decide_eq_true. }
  case_bool_decide as Hc.
  - by rewrite (proj2 Hiff Hc).
  - destruct (existsb _ _); [|done]. exfalso. by apply Hc, Hiff.
Qed.

(** The loop body leaves the wrapper of every other pair as it is. *)
Lemma renderOne_query_other aiKey index (st : State) a b :
  (a, b) ≠ (sessionKey st, aiKey) →
  querySelector a b (wrappers (renderOne aiKey index st))
  = querySelector a b (wrappers st).
Proof.
  intros Hne. unfold renderOne.
  destruct (querySelector (sessionKey st) aiKey (wrappers st)) as [w|] eqn:Hq.
  - pose proof (query_matches _ _ _ _ Hq) as Hw.
    unfold recreate, construct.
    repeat (case_match; simplify_eq/=); by rewrite query_update_other.
  - assert (Hm : ∀ nodes,
              matches a b
                {| dataset_sessionId := sessionKey st; dataset_aiKey := aiKey;
                   display := ""; order := index; children := nodes |} = false).
    { intros nodes. by apply (matches_not_other a b (sessionKey st) aiKey);
        [|unfold matches; cbn; rewrite !bool_decide_eq_true_2]. }
    unfold construct.
    repeat (case_match; simplify_eq/=); rewrite ?query_app, ?Hm; by case_match.
Qed.

(** The loop body leaves its own pair with a displayed wrapper at the
    given position. *)
Lemma renderOne_query_same aiKey index (st : State) :
  ∃ w, querySelector (sessionKey st) aiKey (wrappers (renderOne aiKey index st)) = Some w
       ∧ order w = index ∧ display w ≠ "none".
Proof.
  unfold renderOne.
  destruct (querySelector (sessionKey st) aiKey (wrappers st)) as [w|] eqn:Hq.
  - pose proof (query_matches _ _ _ _ Hq) as Hw.
    assert (Hst1 : wrappers (recreate aiKey (set_order index (set_display "flex" w)) st).2
                   = wrappers st).
    { unfold recreate, construct. by repeat (case_match; simplify_eq/=). }
    destruct (recreate _ _ st) as [kids st1]. cbn [snd] in Hst1.
    cbn [wrappers set_wrappers]. rewrite Hst1, query_update_same, Hq by done.
    eexists. split; [reflexivity|]. done.
  - assert (Hst1 : ∀ p : Instance * State,
              p = match cached st (sessionKey st) aiKey with
                  | Some webview => (webview, st)
                  | None =>
                      let '(webview, st') :=
                        if bool_decide (mode st = Some "api")
                        then construct ApiPanel aiKey st
                        else construct Webview aiKey st in
                      (webview, cache (sessionKey st) aiKey webview st')
                  end → wrappers p.2 = wrappers st).
    { intros p ->. unfold construct. by repeat (case_match; simplify_eq/=). }
    specialize (Hst1 _ eq_refl).
    destruct (match cached st (sessionKey st) aiKey with
              | Some _ => _ | None => _ end) as [webview st1].
    cbn [snd] in Hst1. cbn [wrappers set_wrappers].
    rewrite query_app, Hst1, Hq.
    unfold matches at 1. cbn. rewrite !bool_decide_eq_true_2 by done. cbn.
    eexists. split; [reflexivity|]. done.
Qed.

Lemma loop_query_other (keys : list string) (acc : State * nat) a b :
  a ≠ sessionKey acc.1 ∨ b ∉ keys ∨ b ∉ aiConfigs acc.1 →
  querySelector a b (wrappers (foldl renderStep acc keys).1)
  = querySelector a b (wrappers acc.1).
Proof.
  revert acc. induction keys as [|k keys IH]; intros acc Hor; [done|].
  cbn [foldl].
  destruct (renderStep_frame acc k) as (Hs & _ & Ha & _).
  rewrite IH.
  - unfold renderStep. case_bool_decide as Hk; [|done]. cbn [fst].
    apply renderOne_query_other. intros [= -> ->].
    destruct Hor as [?|[Hin|?]]; [done| |done]. apply Hin. left.
  - rewrite Hs, Ha. destruct Hor as [?|[Hin|?]]; [tauto| |tauto].
    right. left. intros ?. apply Hin. by right.
Qed.

Lemma loop_query_shown (keys : list string) (acc : State * nat) b :
  b ∈ keys → b ∈ aiConfigs acc.1 →
  ∃ w, querySelector (sessionKey acc.1) b (wrappers (foldl renderStep acc keys).1) = Some w
       ∧ display w ≠ "none".
Proof.
  revert acc. induction keys as [|k keys IH]; intros acc Hin Hcfg.
  { by apply elem_of_nil in Hin. }
  cbn [foldl].
  destruct (renderStep_frame acc k) as (Hs & _ & Ha & _).
  destruct (decide (b ∈ keys)) as [Hrest|Hrest].
  - rewrite <- Hs. apply IH; [done|by rewrite Ha].
  - apply elem_of_cons in Hin as [->|?]; [|done].
    rewrite loop_query_other by tauto.
    unfold renderStep. rewrite bool_decide_eq_true_2 by done. cbn [fst].
    destruct (renderOne_query_same k acc.2 acc.1) as (w & Hq & _ & Hd). eauto.
Qed.

Lemma loop_query_order (keys : list string) (acc : State * nat) (i : nat) b :
  NoDup keys →
  filter (λ k, k ∈ aiConfigs acc.1) keys !! i = Some b →
  ∃ w, querySelector (sessionKey acc.1) b (wrappers (foldl renderStep acc keys).1) = Some w
       ∧ order w = (acc.2 + i)%nat.
Proof.
  revert acc i. induction keys as [|k keys IH]; intros acc i Hnd Hi; [done|].
  apply NoDup_cons in Hnd as [Hk Hnd].
  cbn [foldl].
  destruct (renderStep_frame acc k) as (Hs & _ & Ha & _).
  rewrite filter_cons in Hi. unfold renderStep in *.
  destruct (decide (k ∈ aiConfigs acc.1)) as [Hcfg|Hcfg].
  - rewrite bool_decide_eq_true_2 in * by done. cbn [fst snd] in *.
    destruct i as [|i]; cbn in Hi.
    + simplify_eq. rewrite loop_query_other.
      * destruct (renderOne_query_same b acc.2 acc.1) as (w & Hq & Ho & _).
        exists w. split; [done|]. rewrite Ho. lia.
      * tauto.
    + destruct (IH (renderOne k acc.2 acc.1, S acc.2) i Hnd) as (w & Hq & Ho).
      { cbn [fst]. by rewrite Ha. }
      cbn [fst snd] in *. rewrite Hs in Hq. exists w. split; [done|]. lia.
  - rewrite bool_decide_eq_false_2 in * by done. by apply IH.
Qed.

(** [renderWebviews] as the loop run on the state [hideAll] leaves. *)
Lemma renderWebviews_after_hide (st : State) :
  selectedAIs st ≠ [] →
  ∃ st3,
    renderWebviews st = (foldl renderStep (st3, O) (selectedAIs st)).1
    ∧ wrappers st3 = wrappers (hideAll st)
    ∧ sessionKey st3 = sessionKey st
    ∧ aiConfigs st3 = aiConfigs st
    ∧ (∀ a b, is_Some (cached st a b) → is_Some (cached st3 a b)).
Proof.
  intros Hsel. unfold renderWebviews, renderSelected.
  destruct (selectedAIs st) as [|k keys] eqn:Hkeys; [done|].
  set (st1 := match placeholder st with Some _ => _ | None => st end).
  assert (H1 : wrappers st1 = wrappers st ∧ webviewInstances st1 = webviewInstances st
               ∧ currentSessionId st1 = currentSessionId st
               ∧ aiConfigs st1 = aiConfigs st ∧ selectedAIs st1 = selectedAIs st).
  { subst st1. by destruct (placeholder st). }
  destruct H1 as (Hw1 & Hc1 & Hs1 & Ha1 & Hsel1).
  set (st2 := hideAll st1).
  set (st3 := getSessionWebviews (sessionKey st2) st2).
  assert (Hsel3 : selectedAIs st3 = k :: keys).
  { subst st3 st2. unfold getSessionWebviews. case_match; cbn; congruence. }
  exists st3. rewrite Hsel3. split; [done|]. split_and!.
  - transitivity (wrappers st2).
    + subst st3. unfold getSessionWebviews. by case_match.
    + subst st2. unfold hideAll. cbn. by rewrite Hw1, Hc1.
  - unfold sessionKey. f_equal.
    transitivity (currentSessionId st2); [|by subst st2; cbn].
    subst st3. generalize (sessionKey st2). intros s.
    unfold getSessionWebviews. by case_match.
  - subst st3 st2. unfold getSessionWebviews. case_match; cbn; congruence.
  - intros a b. subst st3. rewrite cached_getSessionWebviews.
    subst st2. unfold cached, hideAll. cbn. by rewrite Hc1.
Qed.

(** After a render, the first wrapper of a pair is displayed exactly
    when the pair is a selected, configured service of the current
    session. *)
Lemma renderWebviews_query_display (st : State) a b :
  (is_Some (querySelector a b (wrappers st)) → is_Some (cached st a b)) →
  match querySelector a b (wrappers (renderWebviews st)) with
  | Some w =>
      display w ≠ "none"
      ↔ a = sessionKey st ∧ b ∈ selectedAIs st ∧ b ∈ aiConfigs st
  | None => ¬ (a = sessionKey st ∧ b ∈ selectedAIs st ∧ b ∈ aiConfigs st)
  end.
Proof.
  intros Hcached.
  assert (Hhidden : ∀ w, querySelector a b (wrappers (hideAll st)) = Some w →
                         display w = "none").
  { intros w. rewrite hideAll_query. case_bool_decide as Hc.
    - destruct (querySelector a b (wrappers st)); [|done]. by intros [= <-].
    - intros Hq. exfalso. apply Hc, Hcached. by rewrite Hq. }
  destruct (decide (selectedAIs st = [])) as [Hnil|Hsel].
  { unfold renderWebviews. rewrite Hnil. cbn [wrappers set_placeholder].
    destruct (querySelector a b (wrappers (hideAll st))) as [w|] eqn:Hq.
    - rewrite (Hhidden w eq_refl). split; [done|].
      intros (_ & Hin & _). by apply elem_of_nil in Hin.
    - intros (_ & Hin & _). by apply elem_of_nil in Hin. }
  destruct (renderWebviews_after_hide st Hsel) as (st3 & -> & Hw3 & Hs3 & Ha3 & _).
  destruct (decide (a = sessionKey st ∧ b ∈ selectedAIs st ∧ b ∈ aiConfigs st))
    as [(-> & Hin & Hcfg)|Hnot].
  - destruct (loop_query_shown (selectedAIs st) (st3, O) b Hin) as (w & Hq & Hd).
    { cbn [fst]. by rewrite Ha3. }
    cbn [fst] in Hq. rewrite Hs3 in Hq. rewrite Hq. done.
  - rewrite loop_query_other.
    + cbn [fst]. rewrite Hw3.
      destruct (querySelector a b (wrappers (hideAll st))) as [w|] eqn:Hq; [|done].
      rewrite (Hhidden w eq_refl). done.
    + cbn [fst]. rewrite Hs3, Ha3.
      destruct (decide (a = sessionKey st)); [|tauto].
      destruct (decide (b ∈ selectedAIs st)); tauto.
Qed.


(** *** Every wrapper, not only the first of its pair *)

Lemma query_elem a b (ws : list Wrapper) w :
  querySelector a b ws = Some w →
  w ∈ ws ∧ dataset_sessionId w = a ∧ dataset_aiKey w = b.
Proof.
  intros Hq. pose proof (query_matches _ _ _ _ Hq) as Hm.
  apply find_some in Hq as [Hin _]. apply list_elem_of_In in Hin.
  unfold matches in Hm. apply andb_true_iff in Hm as [H1 H2].
  apply bool_decide_eq_true in H1, H2. done.
Qed.

Lemma query_None_pairs a b (ws : list Wrapper) :
  querySelector a b ws = None →
  (a, b) ∉ (λ w, (dataset_sessionId w, dataset_aiKey w)) <$> ws.
Proof.
  intros Hq (w & [= -> ->] & Hin)%list_elem_of_fmap.
  apply list_elem_of_In in Hin.
  pose proof (find_none _ _ Hq w Hin) as Hm.
  unfold matches in Hm. by rewrite !bool_decide_eq_true_2 in Hm.
Qed.

Lemma query_member (ws : list Wrapper) w :
  NoDup ((λ w, (dataset_sessionId w, dataset_aiKey w)) <$> ws) →
  w ∈ ws →
  querySelector (dataset_sessionId w) (dataset_aiKey w) ws = Some w.
Proof.
  induction ws as [|x ws IH]; intros Hnd Hin; [by apply elem_of_nil in Hin|].
  cbn [fmap list_fmap] in Hnd. apply NoDup_cons in Hnd as [Hx Hnd].
  unfold querySelector. cbn [List.find].
  apply elem_of_cons in Hin as [->|Hin].
  - unfold matches. by rewrite !bool_decide_eq_true_2.
  - destruct (matches (dataset_sessionId w) (dataset_aiKey w) x) eqn:Hm.
    + exfalso. apply Hx. apply list_elem_of_fmap. exists w. split; [|done].
      unfold matches in Hm. apply andb_true_iff in Hm as [H1 H2].
      apply bool_decide_eq_true in H1, H2. by rewrite H1, H2.
    + by apply IH.
Qed.

Lemma pairs_update_selected s k (f : Wrapper → Wrapper) (ws : list Wrapper) :
  (∀ w, matches s k w = true →
        dataset_sessionId (f w) = s ∧ dataset_aiKey (f w) = k) →
  (λ w, (dataset_sessionId w, dataset_aiKey w)) <$> update_selected s k f ws
  = (λ w, (dataset_sessionId w, dataset_aiKey w)) <$> ws.
Proof.
  intros Hf. induction ws as [|x ws IH]; [done|].
  cbn [update_selected]. destruct (matches s k x) eqn:Hm; cbn [fmap list_fmap].
  - destruct (Hf x Hm) as [-> ->].
    unfold matches in Hm. apply andb_true_iff in Hm as [H1 H2].
    apply bool_decide_eq_true in H1, H2. by rewrite H1, H2.
  - by rewrite IH.
Qed.

Lemma pairs_hideAll (st : State) :
  (λ w, (dataset_sessionId w, dataset_aiKey w)) <$> wrappers (hideAll st)
  = (λ w, (dataset_sessionId w, dataset_aiKey w)) <$> wrappers st.
Proof.
  unfold hideAll. cbn [wrappers set_wrappers].
  induction (map_to_list (webviewInstances st)) as [|sm l IH]; [done|].
  cbn [foldr]. rewrite <- IH.
  induction (map_to_list sm.2) as [|ki l' IH']; [done|].
  cbn [foldr]. rewrite pairs_update_selected; [done|].
  intros w Hm. unfold matches in Hm. apply andb_true_iff in Hm as [H1 H2].
  by apply bool_decide_eq_true in H1, H2.
Qed.

(** The loop body keeps the wrappers' pairs, or adds the one pair that
    had no wrapper. *)
Lemma pairs_renderOne aiKey index (st : State) :
  let pairs (s : State) :=
    (λ w, (dataset_sessionId w, dataset_aiKey w)) <$> wrappers s in
  pairs (renderOne aiKey index st) = pairs st
  ∨ (pairs (renderOne aiKey index st) = pairs st ++ [(sessionKey st, aiKey)]
     ∧ (sessionKey st, aiKey) ∉ pairs st).
Proof.
  cbv zeta. unfold renderOne.
  destruct (querySelector (sessionKey st) aiKey (wrappers st)) as [w|] eqn:Hq.
  - left. pose proof (query_elem _ _ _ _ Hq) as (_ & Hs & Hk).
    unfold recreate, construct.
    repeat (case_match; simplify_eq/=); by rewrite pairs_update_selected.
  - right. split; [|by apply query_None_pairs].
    unfold construct.
    repeat (case_match; simplify_eq/=); by rewrite fmap_app.
Qed.

Lemma renderOne_cached_mono aiKey index (st : State) a b :
  is_Some (cached st a b) → is_Some (cached (renderOne aiKey index st) a b).
Proof.
  intros Hc. unfold renderOne, recreate, construct.
  repeat (case_match; simplify_eq/=);
    rewrite ?cached_set_wrappers, ?cached_cache, ?cached_set_constructed;
    try done; by destruct (decide _).
Qed.

Lemma renderOne_cached_new aiKey index (st : State) :
  querySelector (sessionKey st) aiKey (wrappers st) = None →
  is_Some (cached (renderOne aiKey index st) (sessionKey st) aiKey).
Proof.
  intros Hq. unfold renderOne. rewrite Hq. unfold construct.
  repeat (case_match; simplify_eq/=);
    rewrite ?cached_set_wrappers, ?cached_cache, ?cached_set_constructed,
      ?decide_True by done; done.
Qed.

(** The wrappers have different pairs and each pair is cached: kept by
    the loop. *)
Lemma loop_tidy (keys : list string) (acc : State * nat) :
  let pairs (s : State) :=
    (λ w, (dataset_sessionId w, dataset_aiKey w)) <$> wrappers s in
  NoDup (pairs acc.1) →
  (∀ a b, (a, b) ∈ pairs acc.1 → is_Some (cached acc.1 a b)) →
  NoDup (pairs (foldl renderStep acc keys).1)
  ∧ (∀ a b, (a, b) ∈ pairs (foldl renderStep acc keys).1 →
            is_Some (cached (foldl renderStep acc keys).1 a b)).
Proof.
  cbv zeta. revert acc. induction keys as [|k keys IH]; intros acc Hnd Hc; [done|].
  cbn [foldl]. apply IH; unfold renderStep; case_bool_decide; try done; cbn [fst].
  - destruct (pairs_renderOne k acc.2 acc.1) as [->|[-> Hnew]]; [done|].
    apply NoDup_app. split_and!; [done| |apply NoDup_singleton].
    intros p Hp ->%list_elem_of_singleton. done.
  - intros a b Hin.
    destruct (pairs_renderOne k acc.2 acc.1) as [Heq|[Heq Hnew]];
      rewrite Heq in Hin.
    + by apply renderOne_cached_mono, Hc.
    + apply elem_of_app in Hin as [Hin|[= -> ->]%list_elem_of_singleton].
      * by apply renderOne_cached_mono, Hc.
      * apply renderOne_cached_new.
        destruct (querySelector (sessionKey acc.1) k (wrappers acc.1)) as [w|] eqn:Hq;
          [|done].
        exfalso. apply Hnew. apply query_elem in Hq as (Hin & Hs & Hk).
        apply list_elem_of_fmap. exists w. by rewrite Hs, Hk.
Qed.

Lemma renderWebviews_tidy (st : State) :
  let pairs (s : State) :=
    (λ w, (dataset_sessionId w, dataset_aiKey w)) <$> wrappers s in
  NoDup (pairs st) →
  (∀ a b, (a, b) ∈ pairs st → is_Some (cached st a b)) →
  NoDup (pairs (renderWebviews st))
  ∧ (∀ a b, (a, b) ∈ pairs (renderWebviews st) →
            is_Some (cached (renderWebviews st) a b)).
Proof.
  cbv zeta. intros Hnd Hc.
  destruct (decide (selectedAIs st = [])) as [Hnil|Hsel].
  { unfold renderWebviews. rewrite Hnil. cbn [wrappers set_placeholder].
    rewrite pairs_hideAll. split; [done|]. intros a b Hin. by apply Hc. }
  destruct (renderWebviews_after_hide st Hsel) as (st3 & -> & Hw3 & _ & _ & Hc3).
  apply (loop_tidy (selectedAIs st) (st3, O)); cbn [fst];
    rewrite Hw3, pairs_hideAll; [done|].
  intros a b Hin. by apply Hc3, Hc.
Qed.

(** X23: what a render leaves on screen.  When the wrappers in the grid
    belong to different (session, service) pairs and each of them has
    its element in the cache -- as is the case at start-up, and as a
    render leaves them -- then after [renderWebviews] a wrapper is
    displayed exactly when it belongs to the current session and its
    service is selected and configured; every other wrapper has
    [display: none]; every selected, configured service has a displayed
    wrapper; and the two conditions hold again. *)
Theorem renderWebviews_displays_exactly_the_selection (st : State) :
  NoDup ((λ w, (dataset_sessionId w, dataset_aiKey w)) <$> wrappers st) →
  (∀ w, w ∈ wrappers st →
        is_Some (cached st (dataset_sessionId w) (dataset_aiKey w))) →
  let st' := renderWebviews st in
  (∀ w, w ∈ wrappers st' →
        (display w ≠ "none"
         ↔ dataset_sessionId w = sessionKey st
           ∧ dataset_aiKey w ∈ selectedAIs st
           ∧ dataset_aiKey w ∈ aiConfigs st))
  ∧ (∀ b, b ∈ selectedAIs st → b ∈ aiConfigs st →
          ∃ w, w ∈ wrappers st' ∧ dataset_sessionId w = sessionKey st
               ∧ dataset_aiKey w = b ∧ display w ≠ "none")
  ∧ NoDup ((λ w, (dataset_sessionId w, dataset_aiKey w)) <$> wrappers st')
  ∧ (∀ w, w ∈ wrappers st' →
          is_Some (cached st' (dataset_sessionId w) (dataset_aiKey w))).
Proof.
  intros Hnd Hc st'.
  assert (Hc' : ∀ a b,
            (a, b) ∈ (λ w, (dataset_sessionId w, dataset_aiKey w)) <$> wrappers st →
            is_Some (cached st a b)).
  { intros a b (w & [= -> ->] & Hin)%list_elem_of_fmap. by apply Hc. }
  destruct (renderWebviews_tidy st Hnd Hc') as [Hnd' Hcached'].
  fold st' in Hnd', Hcached'.
  assert (Hfirst : ∀ a b, is_Some (querySelector a b (wrappers st)) →
                          is_Some (cached st a b)).
  { intros a b [w Hq]. apply query_elem in Hq as (Hin & <- & <-). by apply Hc. }
  split_and!.
  - intros w Hin.
    pose proof (renderWebviews_query_display st (dataset_sessionId w) (dataset_aiKey w)
                  (Hfirst _ _)) as Hd.
    fold st' in Hd. by rewrite (query_member _ _ Hnd' Hin) in Hd.
  - intros b Hin Hcfg.
    pose proof (renderWebviews_query_display st (sessionKey st) b (Hfirst _ _)) as Hd.
    fold st' in Hd.
    destruct (querySelector (sessionKey st) b (wrappers st')) as [w|] eqn:Hq.
    + apply query_elem in Hq as (Hw & Hs & Hk). exists w. split_and!; try done.
      by apply Hd.
    + by destruct Hd.
  - done.
  - intros w Hin. apply Hcached'. apply list_elem_of_fmap. by exists w.
Qed.

(** X24: the display positions follow the selection.  With no service
    selected twice, the wrapper of the [i]-th selected service that has
    a configuration gets [style.order = i]; a selected service without a
    configuration takes no position. *)
Theorem renderWebviews_orders_follow_the_selection (st : State) (i : nat) (b : string) :
  NoDup (selectedAIs st) →
  filter (λ k, k ∈ aiConfigs st) (selectedAIs st) !! i = Some b →
  ∃ w, querySelector (sessionKey st) b (wrappers (renderWebviews st)) = Some w
       ∧ order w = i.
Proof.
  intros Hnd Hi.
  assert (Hsel : selectedAIs st ≠ []) by (intros E; by rewrite E in Hi).
  destruct (renderWebviews_after_hide st Hsel) as (st3 & -> & _ & Hs3 & Ha3 & _).
  destruct (loop_query_order (selectedAIs st) (st3, O) i b Hnd) as (w & Hq & Ho).
  { cbn [fst]. by rewrite Ha3. }
  cbn [fst snd] in *. rewrite Hs3 in Hq. eauto.
Qed.

Lemma loop_cached_other (keys : list string) (acc : State * nat) a b :
  a ≠ sessionKey acc.1 ∨ b ∉ keys ∨ b ∉ aiConfigs acc.1 →
  cached (foldl renderStep acc keys).1 a b = cached acc.1 a b.
Proof.
  revert acc. induction keys as [|k keys IH]; intros acc Hor; [done|].
  cbn [foldl].
  destruct (renderStep_frame acc k) as (Hs & _ & Ha & _).
  rewrite IH.
  - unfold renderStep. case_bool_decide as Hk; [|done]. cbn [fst].
    apply renderOne_other. intros [= -> ->].
    destruct Hor as [?|[Hin|?]]; [done| |done]. apply Hin. left.
  - rewrite Hs, Ha. destruct Hor as [?|[Hin|?]]; [tauto| |tauto].
    right. left. intros ?. apply Hin. by right.
Qed.


End PanelsMore.

Section PanelsMoreExamples.
Import Panels.

Lemma renderWebviews_displays_exactly_the_selection_witness :
  let st0 :=
    renderWebviews
      (initial (Some "s1") ["chatgpt"; "claude"] {["chatgpt"; "claude"]} (Some "web")) in
  let st :=
    {| webviewInstances := webviewInstances st0; wrappers := wrappers st0;
       placeholder := placeholder st0; constructed := constructed st0;
       currentSessionId := Some "s2"; selectedAIs := ["claude"];
       aiConfigs := aiConfigs st0; mode := Some "api" |} in
  let st' := renderWebviews st in
  length (wrappers st) = 2%nat
  ∧ (∀ w, w ∈ wrappers st' →
          (display w ≠ "none"
           ↔ dataset_sessionId w = sessionKey st
             ∧ dataset_aiKey w ∈ selectedAIs st
             ∧ dataset_aiKey w ∈ aiConfigs st))
  ∧ (∀ b, b ∈ selectedAIs st → b ∈ aiConfigs st →
          ∃ w, w ∈ wrappers st' ∧ dataset_sessionId w = sessionKey st
               ∧ dataset_aiKey w = b ∧ display w ≠ "none")
  ∧ NoDup ((λ w, (dataset_sessionId w, dataset_aiKey w)) <$> wrappers st')
  ∧ (∀ w, w ∈ wrappers st' →
          is_Some (cached st' (dataset_sessionId w) (dataset_aiKey w))).
Proof.
  intros st0 st st'. split; [by vm_compute|].
  apply (renderWebviews_displays_exactly_the_selection st).
  - vm_compute. apply NoDup_cons. split; [|apply NoDup_singleton].
    intros Hin%list_elem_of_singleton. discriminate.
  - intros w Hin.
    assert (Hws : ∃ w1 w2, wrappers st = [w1; w2]
                           ∧ is_Some (cached st (dataset_sessionId w1) (dataset_aiKey w1))
                           ∧ is_Some (cached st (dataset_sessionId w2) (dataset_aiKey w2))).
    { eexists _, _. split; [by vm_compute|].
      split; eexists; vm_compute; reflexivity. }
    destruct Hws as (w1 & w2 & Hws & H1 & H2). rewrite Hws in Hin.
    rewrite !elem_of_cons, elem_of_nil in Hin. by destruct Hin as [->|[->|[]]].
Defined.

Lemma renderWebviews_orders_follow_the_selection_witness :
  let st :=
    initial (Some "s1") ["chatgpt"; "grok"; "claude"] {["chatgpt"; "claude"]} (Some "web") in
  NoDup (selectedAIs st)
  ∧ ∃ w, querySelector (sessionKey st) "claude" (wrappers (renderWebviews st)) = Some w
         ∧ order w = 1%nat.
Proof.
  intros st.
  assert (Hnd : NoDup (selectedAIs st)).
  { apply (bool_decide_unpack (NoDup (selectedAIs st))). by vm_compute. }
  split; [exact Hnd|].
  apply (renderWebviews_orders_follow_the_selection st 1 "claude" Hnd).
  by vm_compute.
Defined.


End PanelsMoreExamples.


Section LayoutInit.
Import Resizer Layout.

Lemma layout_class_inj (m m' : string) :
  "layout-" +:+ m = "layout-" +:+ m' ↔ m = m'.
Proof. split; [|by intros ->]. intros E. by simplify_eq/=. Qed.

Lemma applyLayoutMode_classes_idem (name : string) (names cl : list string) :
  classList_add name
    (classList_remove names (classList_add name (classList_remove names cl)))
  = classList_add name (classList_remove names cl).
Proof.
  unfold classList_remove.
  set (r := filter (λ c, c ∉ names) cl).
  assert (Hr : filter (λ c, c ∉ names) r = r).
  { subst r. by apply list_filter_filter_r. }
  unfold classList_add at 2. case_bool_decide as Hpresent.
  - by rewrite Hr.
  - rewrite filter_app, Hr.
    destruct (decide (name ∈ names)) as [Hl|Hl].
    + by rewrite filter_cons_False, filter_nil, app_nil_r by tauto.
    + rewrite filter_cons_True, filter_nil by done.
      unfold classList_add.
      rewrite bool_decide_eq_true_2 by (apply elem_of_app; right; left).
      by rewrite bool_decide_eq_false_2.
Qed.


End LayoutInit.

Section LayoutInitExamples.
Import Resizer Layout.


End LayoutInitExamples.
